(** * Thakira memory store: record store and derived views

    A shallow embedding of the data layer of the application
    ([lib/database], [lib/memory-store]) and of the pure view logic of its
    screens (timeline grouping, contextual suggestions, focus filtering),
    followed by the properties the specification states about them.

    Conventions of the embedding.
    - A JavaScript string is a [string]; each character stands for one code
      unit below 256 (the Latin-1 range), which is all that
      [toLowerCase], [trim] and the [\s] class need to be defined exactly.
    - An instant is a [Z], the number of milliseconds since the epoch, as
      [Date.prototype.getTime] returns it.  The device clock and its zone
      are explicit arguments: [now] and [tz], the zone's offset from UTC in
      minutes, positive to the east, in force at [now].  Where the code
      moves a date by a day, the offset in force on that other day, [tz'],
      is an argument as well: it differs from [tz] across a daylight-saving
      switch.
    - A promise is the state transformer it performs on the store, together
      with the way it settles. *)

From Stdlib Require Import ZArith NArith List String Ascii Bool Lia.
From Stdlib Require Import Permutation Sorted.
Import ListNotations.

Local Open Scope string_scope.
Local Open Scope list_scope.
Local Open Scope Z_scope.

(* ===================================================================== *)
(** ** Stable sorting *)
(* ===================================================================== *)

(** Both [Array.prototype.sort] and SQL's [ORDER BY] are modelled by one
    stable insertion sort.  [before a b = Lt] says that [a] must come
    strictly before [b]; elements that the comparison does not separate
    keep their order. *)
Module Stable.
Section Sort.
Context {A : Type} (before : A -> A -> comparison).

Fixpoint insert (x : A) (l : list A) : list A :=
  match l with
  | [] => [x]
  | y :: l' =>
      match before y x with
      | Lt => y :: insert x l'
      | _ => x :: l
      end
  end.

Definition sort (l : list A) : list A := fold_right insert [] l.
End Sort.
End Stable.

(* ===================================================================== *)
(** ** JavaScript strings *)
(* ===================================================================== *)

Module JSString.

(** [WhiteSpace] and [LineTerminator] code units below 256:
    TAB, LF, VT, FF, CR, SP and NBSP.  This is both the [\s] class and
    what [trim] strips. *)
Definition is_white_space (c : ascii) : bool :=
  let n := N_of_ascii c in
  (((9 <=? n) && (n <=? 13)) || (n =? 32) || (n =? 160))%N.

(** [toLowerCase] on one code unit: A-Z, and the Latin-1 capitals
    U+00C0-U+00DE except the multiplication sign U+00D7. *)
Definition lower_char (c : ascii) : ascii :=
  let n := N_of_ascii c in
  if (((65 <=? n) && (n <=? 90))
      || ((192 <=? n) && (n <=? 222) && negb (n =? 215)))%N
  then ascii_of_N (n + 32) else c.

Fixpoint toLowerCase (s : string) : string :=
  match s with
  | EmptyString => EmptyString
  | String c s' => String (lower_char c) (toLowerCase s')
  end.

(** [s.startsWith(k)] *)
Fixpoint startsWith (s k : string) {struct k} : bool :=
  match k, s with
  | EmptyString, _ => true
  | String _ _, EmptyString => false
  | String a k', String b s' => Ascii.eqb a b && startsWith s' k'
  end.

(** [s.includes(k)] *)
Fixpoint includes (s k : string) : bool :=
  startsWith s k ||
  match s with
  | EmptyString => false
  | String _ s' => includes s' k
  end.

Fixpoint trimStart (s : string) : string :=
  match s with
  | EmptyString => EmptyString
  | String c s' => if is_white_space c then trimStart s' else s
  end.

Fixpoint trimEnd (s : string) : string :=
  match s with
  | EmptyString => EmptyString
  | String c s' =>
      match trimEnd s' with
      | EmptyString => if is_white_space c then EmptyString
                       else String c EmptyString
      | r => String c r
      end
  end.

Definition trim (s : string) : string := trimStart (trimEnd s).

(** [s.split(/\s+/)], written as the scan the regular expression performs:
    [after_space] tells that the previous code unit was part of the
    separator being consumed.  The result is never empty; the segment
    under construction is the head of the result. *)
Fixpoint split_spaces_from (after_space : bool) (s : string) : list string :=
  match s with
  | EmptyString => [EmptyString]
  | String c s' =>
      if is_white_space c then
        if after_space then split_spaces_from true s'
        else EmptyString :: split_spaces_from true s'
      else
        match split_spaces_from false s' with
        | w :: ws => String c w :: ws
        | [] => [String c EmptyString]
        end
  end.

Definition split_spaces (s : string) : list string :=
  split_spaces_from false s.

(** [s.split(sep)[0]] for a one-character separator: the part of [s]
    before the first [sep], or all of [s]. *)
Fixpoint split_head (sep : ascii) (s : string) : string :=
  match s with
  | EmptyString => EmptyString
  | String c s' =>
      if Ascii.eqb c sep then EmptyString else String c (split_head sep s')
  end.

(** [tags.join(sep)] *)
Fixpoint join (sep : string) (l : list string) : string :=
  match l with
  | [] => EmptyString
  | [x] => x
  | x :: l' => (x ++ sep ++ join sep l')%string
  end.

(** [a.localeCompare(b)], taken as the comparison of code units.  On the
    keys it is applied to in this program, dates written [YYYY-MM-DD],
    every collation agrees with it. *)
Definition localeCompare (a b : string) : comparison := String.compare a b.

(** JavaScript truthiness of a string: [!s] holds for the empty string. *)
Definition truthy (s : string) : bool :=
  match s with EmptyString => false | _ => true end.

(** [s.substring(0, n)] *)
Definition substring_to (n : nat) (s : string) : string :=
  String.substring 0 n s.

Fixpoint repeat_char (n : nat) (c : ascii) : string :=
  match n with
  | O => EmptyString
  | S n' => String c (repeat_char n' c)
  end.

(** [s.padStart(len, fill)] for a one-character [fill]. *)
Definition padStart (len : nat) (fill : ascii) (s : string) : string :=
  (repeat_char (len - String.length s) fill ++ s)%string.

(** [a || b] on strings: [a] unless it is empty. *)
Definition or_default (a b : string) : string :=
  if truthy a then a else b.

End JSString.

(* ===================================================================== *)
(** ** JavaScript dates *)
(* ===================================================================== *)

Module JSDate.

Definition msPerDay : Z := 86400000.
Definition msPerHour : Z := 3600000.
Definition msPerMinute : Z := 60000.

(** [Day(t)], the number of the day an instant falls on. *)
Definition Day (t : Z) : Z := t / msPerDay.
Definition TimeWithinDay (t : Z) : Z := t mod msPerDay.

(** Year, month (1-12) and day of the month of a day number, in the
    proleptic Gregorian calendar ([YearFromTime], [MonthFromTime],
    [DateFromTime]), computed over 400-year eras that start on March 1. *)
Definition civil_from_days (z : Z) : Z * Z * Z :=
  let z := z + 719468 in
  let era := z / 146097 in
  let doe := z mod 146097 in
  let yoe := (doe - doe / 1460 + doe / 36524 - doe / 146096) / 365 in
  let doy := doe - (365 * yoe + yoe / 4 - yoe / 100) in
  let mp := (5 * doy + 2) / 153 in
  let d := doy - (153 * mp + 2) / 5 + 1 in
  let m := if mp <? 10 then mp + 3 else mp - 9 in
  let y := yoe + era * 400 in
  (if m <=? 2 then y + 1 else y, m, d).

(** [MakeDay]: the day number of a calendar date. *)
Definition days_from_civil (y m d : Z) : Z :=
  let y := if m <=? 2 then y - 1 else y in
  let era := y / 400 in
  let yoe := y mod 400 in
  let mp := if 2 <? m then m - 3 else m + 9 in
  let doy := (153 * mp + 2) / 5 + d - 1 in
  let doe := yoe * 365 + yoe / 4 - yoe / 100 + doy in
  era * 146097 + doe - 719468.

(** [WeekDay(t)]: 0 is Sunday. *)
Definition WeekDay (day : Z) : Z := (day + 4) mod 7.

(** The instant as the device's zone shows it. *)
Definition LocalTime (tz t : Z) : Z := t + tz * msPerMinute.

(** [getHours()] *)
Definition getHours (tz t : Z) : Z :=
  (LocalTime tz t / msPerHour) mod 24.

(** [UTC(t)]: the instant a local time value stands for, [tz] being the
    offset in force at that local time. *)
Definition UTC (tz local : Z) : Z := local - tz * msPerMinute.

(** [d.setDate(d.getDate() - 1)]: the same wall-clock time on the previous
    local day.  The local time value of [t], taken with the offset [tz]
    in force at [t], is moved back by one day ([MakeDate] of the day
    before and the same time within the day) and read as an instant with
    the offset [tz'] in force at that local time.  In a zone whose offset
    did not change in between, [tz' = tz] and the result is 24 hours
    before [t]; across a daylight-saving switch it is an hour more or
    less. *)
Definition previousDay (tz tz' : Z) (t : Z) : Z :=
  UTC tz' (LocalTime tz t - msPerDay).

Definition digit (n : Z) : ascii := ascii_of_N (48 + Z.to_N (n mod 10)).

(** [n] written with exactly [k] decimal digits. *)
Fixpoint pad (k : nat) (n : Z) : string :=
  match k with
  | O => EmptyString
  | S k' => (pad k' (n / 10) ++ String (digit n) EmptyString)%string
  end.

(** [n] written without leading zeros, for a day of the month. *)
Definition numeric (n : Z) : string :=
  if n <? 10 then pad 1 n else pad 2 n.

(** The year of an ISO string: four digits, or a sign and six digits
    outside 0-9999. *)
Definition iso_year (y : Z) : string :=
  if (0 <=? y) && (y <=? 9999) then pad 4 y
  else ((if (y <? 0)%Z then "-" else "+") ++ pad 6 (Z.abs y))%string.

Definition iso_date_of_civil (ymd : Z * Z * Z) : string :=
  let '(y, m, d) := ymd in
  (iso_year y ++ "-" ++ pad 2 m ++ "-" ++ pad 2 d)%string.

(** The date part of [toISOString()]. *)
Definition iso_date (t : Z) : string :=
  iso_date_of_civil (civil_from_days (Day t)).

Definition iso_time (t : Z) : string :=
  let r := TimeWithinDay t in
  (pad 2 (r / msPerHour)%Z ++ ":" ++ pad 2 (r / msPerMinute mod 60)%Z
    ++ ":" ++ pad 2 (r / 1000 mod 60)%Z ++ "." ++ pad 3 (r mod 1000)%Z)%string.

(** [toISOString()]: [YYYY-MM-DDTHH:mm:ss.sssZ], always in UTC. *)
Definition toISOString (t : Z) : string :=
  (iso_date t ++ "T" ++ iso_time t ++ "Z")%string.

Definition weekday_short (w : Z) : string :=
  match w with
  | 0 => "Sun" | 1 => "Mon" | 2 => "Tue" | 3 => "Wed"
  | 4 => "Thu" | 5 => "Fri" | _ => "Sat"
  end.

Definition weekday_long (w : Z) : string :=
  match w with
  | 0 => "Sunday" | 1 => "Monday" | 2 => "Tuesday" | 3 => "Wednesday"
  | 4 => "Thursday" | 5 => "Friday" | _ => "Saturday"
  end.

Definition month_short (m : Z) : string :=
  match m with
  | 1 => "Jan" | 2 => "Feb" | 3 => "Mar" | 4 => "Apr" | 5 => "May"
  | 6 => "Jun" | 7 => "Jul" | 8 => "Aug" | 9 => "Sep" | 10 => "Oct"
  | 11 => "Nov" | _ => "Dec"
  end.

(** The year of [toDateString()]: its digits, zero-padded to four, after a
    minus sign when negative.  (The years of a JavaScript date have at most
    six digits.) *)
Definition year_string (y : Z) : string :=
  let n := Z.abs y in
  ((if (y <? 0)%Z then "-" else "")
   ++ (if (n <? 10000)%Z then pad 4 n
       else if (n <? 100000)%Z then pad 5 n else pad 6 n))%string.

(** [toDateString()] of a local day number: [Mon Jan 01 2024]. *)
Definition date_string_of_day (day : Z) : string :=
  let '(y, m, d) := civil_from_days day in
  (weekday_short (WeekDay day) ++ " " ++ month_short m ++ " "
    ++ pad 2 d ++ " " ++ year_string y)%string.

Definition toDateString (tz t : Z) : string :=
  date_string_of_day (Day (LocalTime tz t)).

(** [toLocaleDateString("en-US", {weekday: "long", month: "short",
    day: "numeric"})] of a local day number: [Monday, Jan 1]. *)
Definition locale_date_string_of_day (day : Z) : string :=
  let '(_, m, d) := civil_from_days day in
  (weekday_long (WeekDay day) ++ ", " ++ month_short m ++ " "
    ++ numeric d)%string.

Definition toLocaleDateString (tz t : Z) : string :=
  locale_date_string_of_day (Day (LocalTime tz t)).

(** *** Reading ISO strings *)

Definition digit_value (c : ascii) : option Z :=
  let n := N_of_ascii c in
  if ((48 <=? n) && (n <=? 57))%N then Some (Z.of_N n - 48) else None.

(** The value of a string made of decimal digits only. *)
Fixpoint digits_value (acc : Z) (s : string) : option Z :=
  match s with
  | EmptyString => Some acc
  | String c s' =>
      match digit_value c with
      | Some v => digits_value (acc * 10 + v) s'
      | None => None
      end
  end.

Definition number_at (pos len : nat) (s : string) : option Z :=
  let f := substring pos len s in
  if Nat.eqb (String.length f) len then digits_value 0 f else None.

Definition char_at (pos : nat) (c : ascii) (s : string) : bool :=
  match String.get pos s with
  | Some x => Ascii.eqb x c
  | None => false
  end.

Definition in_range (lo hi : Z) (o : option Z) : option Z :=
  match o with
  | Some v => if (lo <=? v) && (v <=? hi) then Some v else None
  | None => None
  end.

(** The calendar fields of a string that starts [YYYY-MM-DD]. *)
Definition read_date (s : string) : option (Z * Z * Z) :=
  match number_at 0 4 s, in_range 1 12 (number_at 5 2 s),
        in_range 1 31 (number_at 8 2 s) with
  | Some y, Some m, Some d =>
      if char_at 4 "-" s && char_at 7 "-" s then Some (y, m, d) else None
  | _, _, _ => None
  end.

(** The milliseconds within the day of a string whose positions 10-23
    are [THH:mm:ss.sssZ]. *)
Definition read_time (s : string) : option Z :=
  match in_range 0 23 (number_at 11 2 s), in_range 0 59 (number_at 14 2 s),
        in_range 0 59 (number_at 17 2 s), number_at 20 3 s with
  | Some h, Some mi, Some sec, Some ms =>
      if char_at 10 "T" s && char_at 13 ":" s && char_at 16 ":" s
         && char_at 19 "." s && char_at 23 "Z" s
      then Some (h * msPerHour + mi * msPerMinute + sec * 1000 + ms)
      else None
  | _, _, _, _ => None
  end.

(** The two shapes of time string the application produces, both denoting
    UTC: the date-only form [YYYY-MM-DD] and the full form [toISOString]
    writes.  The model reads no other shape: a string the application
    never writes is taken as unreadable ([None]), which stands for the
    invalid date of [new Date(s)] and for the NULL of SQLite's [date(s)]. *)
Definition read_iso (s : string) : option (Z * Z * Z * Z) :=
  match read_date s with
  | Some (y, m, d) =>
      if Nat.eqb (String.length s) 10 then Some (y, m, d, 0)
      else if Nat.eqb (String.length s) 24 then
        match read_time s with
        | Some r => Some (y, m, d, r)
        | None => None
        end
      else None
  | None => None
  end.

(** [new Date(s).getTime()], [None] for the invalid date. *)
Definition parse (s : string) : option Z :=
  match read_iso s with
  | Some (y, m, d, r) => Some (days_from_civil y m d * msPerDay + r)
  | None => None
  end.

End JSDate.

(* ===================================================================== *)
(** ** JavaScript numbers *)
(* ===================================================================== *)

Module JSNumber.

(** The decimal digits of [n >= 0], most significant first; [fuel] bounds
    their number. *)
Fixpoint decimal (fuel : nat) (n : Z) : string :=
  match fuel with
  | O => EmptyString
  | S fuel' =>
      if n <? 10 then String (JSDate.digit n) EmptyString
      else (decimal fuel' (n / 10) ++ String (JSDate.digit n) EmptyString)%string
  end.

(** [n.toString()] for an integer [n >= 0]: a number has no more decimal
    digits than binary ones. *)
Definition toString (n : Z) : string :=
  decimal (S (Z.to_nat (Z.log2 n))) n.

End JSNumber.


(* ===================================================================== *)
(** ** The relational store ([lib/database]) *)
(* ===================================================================== *)

Module Database.

Inductive ContentType := text | voice | photo | link | screenshot.

Definition ContentType_eqb (a b : ContentType) : bool :=
  match a, b with
  | text, text | voice, voice | photo, photo | link, link
  | screenshot, screenshot => true
  | _, _ => false
  end.

(** A REAL column value, kept as the bit pattern of the double: the store
    never computes on coordinates. *)
Inductive REAL := Float64 (bits : Z).

Module Memory.
Record t := {
  id : Z;
  content : string;
  contentType : ContentType;
  createdAt : string;
  latitude : option REAL;
  longitude : option REAL;
  locationName : option string;
  audioUri : option string;
  imageUri : option string;
  linkUrl : option string;
  linkTitle : option string;
  linkPreview : option string;
  focusTags : option string;
  viewCount : Z;
  lastViewedAt : option string
}.
End Memory.

(** [Omit<Memory, "id" | "viewCount" | "lastViewedAt">], the argument of
    [addMemory]. *)
Module NewMemory.
Record t := {
  content : string;
  contentType : ContentType;
  createdAt : string;
  latitude : option REAL;
  longitude : option REAL;
  locationName : option string;
  audioUri : option string;
  imageUri : option string;
  linkUrl : option string;
  linkTitle : option string;
  linkPreview : option string;
  focusTags : option string
}.
End NewMemory.

(** One entry of a [Partial<Memory>], as [Object.entries] lists them. *)
Inductive MemoryEntry :=
| E_id (v : Z)
| E_content (v : string)
| E_contentType (v : ContentType)
| E_createdAt (v : string)
| E_latitude (v : option REAL)
| E_longitude (v : option REAL)
| E_locationName (v : option string)
| E_audioUri (v : option string)
| E_imageUri (v : option string)
| E_linkUrl (v : option string)
| E_linkTitle (v : option string)
| E_linkPreview (v : option string)
| E_focusTags (v : option string)
| E_viewCount (v : Z)
| E_lastViewedAt (v : option string).

(** [isActive] is the boolean the interface declares; the table keeps it
    as the INTEGER 0 or 1, and no statement writes another value. *)
Module FocusGoal.
Record t := {
  id : Z;
  name : string;
  isActive : bool;
  createdAt : string
}.
End FocusGoal.

Inductive ThemeMode := light | dark | auto.

Module UserPreferences.
Record t := {
  id : Z;
  displayName : string;
  avatarIndex : Z;
  themeMode : ThemeMode;
  locationEnabled : bool
}.
End UserPreferences.

(** The database file and the module's handle on it.  [db] tells whether
    the handle has been opened.  Each of the two AUTOINCREMENT tables
    carries its [sqlite_sequence] entry, the largest rowid it ever held;
    rows are listed in insertion order.  [user_preferences] admits the
    single row [id = 1]. *)
Record Store := {
  db : bool;
  memories : list Memory.t;
  memories_seq : Z;
  focus_goals : list FocusGoal.t;
  focus_goals_seq : Z;
  user_preferences : option UserPreferences.t
}.

Definition empty : Store :=
  {| db := false; memories := []; memories_seq := 0;
     focus_goals := []; focus_goals_seq := 0; user_preferences := None |}.

(** *** Promises *)

(** The error taxonomy of the specification; a rejected promise carries
    one of them. *)
Inductive Error :=
  ValidationError | NotFoundError | PermissionDenied | StorageError.

Inductive Settled (A : Type) :=
| Fulfilled (a : A)
| Rejected (e : Error).
Arguments Fulfilled {A} a.
Arguments Rejected {A} e.

Definition Promise (A : Type) : Type := Store -> Settled A * Store.

Definition resolve {A} (a : A) : Promise A := fun s => (Fulfilled a, s).

(** [const x = await p; k x] *)
Definition await {A B} (p : Promise A) (k : A -> Promise B) : Promise B :=
  fun s =>
    match p s with
    | (Fulfilled a, s') => k a s'
    | (Rejected e, s') => (Rejected e, s')
    end.

Notation "x <- p ;; k" := (await p (fun x => k))
  (at level 61, p at next level, right associativity).

(** A statement run on the open database. *)
Definition exec (f : Store -> Store) : Promise unit :=
  fun s => (Fulfilled tt, f s).

Definition query {A} (f : Store -> A) : Promise A :=
  fun s => (Fulfilled (f s), s).

(** The store a promise leaves, and the value it is fulfilled with. *)
Definition store_after {A} (p : Promise A) (s : Store) : Store := snd (p s).
Definition outcome {A} (p : Promise A) (s : Store) : Settled A := fst (p s).

(** *** SQL *)

(** [ORDER BY key DESC]: rows with equal keys, whose order SQLite leaves
    open, keep their table order. *)
Definition order_by_desc {A K : Type} (cmp : K -> K -> comparison)
    (key : A -> K) (l : list A) : list A :=
  Stable.sort (fun a b => cmp (key b) (key a)) l.

(** [LIMIT n] *)
Definition limit {A} (n : nat) (l : list A) : list A := firstn n l.

(** SQLite's [date(s)] on the time strings [JSDate.read_iso] reads: the
    calendar date, normalised, as [YYYY-MM-DD]; NULL otherwise. *)
Definition date (s : string) : option string :=
  match JSDate.read_iso s with
  | Some (y, m, d, _) =>
      Some (JSDate.iso_date_of_civil
              (JSDate.civil_from_days (JSDate.days_from_civil y m d)))
  | None => None
  end.

(** [date(createdAt) = ?] *)
Definition date_is (day : string) (s : string) : bool :=
  match date s with
  | Some d => String.eqb d day
  | None => false
  end.

Definition max_rowid (ids : list Z) : Z := fold_right Z.max 0 ids.

(** The rowid an AUTOINCREMENT table gives its next row: one more than
    the largest it ever held. *)
Definition next_rowid (seq : Z) (ids : list Z) : Z :=
  Z.max seq (max_rowid ids) + 1.

(** *** Opening *)

Definition default_preferences : UserPreferences.t :=
  {| UserPreferences.id := 1;
     UserPreferences.displayName := "User";
     UserPreferences.avatarIndex := 0;
     UserPreferences.themeMode := auto;
     UserPreferences.locationEnabled := false |}.

(** [CREATE TABLE IF NOT EXISTS] leaves existing tables alone;
    [INSERT OR IGNORE INTO user_preferences (id) VALUES (1)] adds the
    singleton row with its column defaults when it is missing. *)
Definition initDatabase : Promise unit :=
  exec (fun s =>
    {| db := true;
       memories := memories s;
       memories_seq := memories_seq s;
       focus_goals := focus_goals s;
       focus_goals_seq := focus_goals_seq s;
       user_preferences :=
         match user_preferences s with
         | Some p => Some p
         | None => Some default_preferences
         end |}).

Definition getDatabase : Promise unit :=
  fun s => if db s then resolve tt s else initDatabase s.

(** *** Memories *)

Definition set_memories (f : list Memory.t -> list Memory.t)
    (seq : Z) (s : Store) : Store :=
  {| db := db s;
     memories := f (memories s);
     memories_seq := seq;
     focus_goals := focus_goals s;
     focus_goals_seq := focus_goals_seq s;
     user_preferences := user_preferences s |}.

Definition new_row (rowid : Z) (memory : NewMemory.t) : Memory.t :=
  {| Memory.id := rowid;
     Memory.content := NewMemory.content memory;
     Memory.contentType := NewMemory.contentType memory;
     Memory.createdAt := NewMemory.createdAt memory;
     Memory.latitude := NewMemory.latitude memory;
     Memory.longitude := NewMemory.longitude memory;
     Memory.locationName := NewMemory.locationName memory;
     Memory.audioUri := NewMemory.audioUri memory;
     Memory.imageUri := NewMemory.imageUri memory;
     Memory.linkUrl := NewMemory.linkUrl memory;
     Memory.linkTitle := NewMemory.linkTitle memory;
     Memory.linkPreview := NewMemory.linkPreview memory;
     Memory.focusTags := NewMemory.focusTags memory;
     Memory.viewCount := 0;
     Memory.lastViewedAt := None |}.

(** [INSERT INTO memories (content, ..., focusTags) VALUES (...)], which
    leaves [viewCount] to its default 0 and [lastViewedAt] NULL, and
    [result.lastInsertRowId]. *)
Definition addMemory (memory : NewMemory.t) : Promise Z :=
  _ <- getDatabase ;;
  fun s =>
    let rowid := next_rowid (memories_seq s) (map Memory.id (memories s)) in
    (Fulfilled rowid,
     set_memories (fun rows => rows ++ [new_row rowid memory]) rowid s).

Definition by_createdAt_desc : list Memory.t -> list Memory.t :=
  order_by_desc String.compare Memory.createdAt.

Definition getAllMemories : Promise (list Memory.t) :=
  _ <- getDatabase ;;
  query (fun s => by_createdAt_desc (memories s)).

Definition getMemoriesByType (type : ContentType) : Promise (list Memory.t) :=
  _ <- getDatabase ;;
  query (fun s =>
    by_createdAt_desc
      (filter (fun m => ContentType_eqb (Memory.contentType m) type)
              (memories s))).

Definition getMemoriesByDateRange (startDate endDate : string)
    : Promise (list Memory.t) :=
  _ <- getDatabase ;;
  query (fun s =>
    by_createdAt_desc
      (filter (fun m => String.leb startDate (Memory.createdAt m)
                        && String.leb (Memory.createdAt m) endDate)
              (memories s))).

Definition getRecentMemories (n : nat) : Promise (list Memory.t) :=
  _ <- getDatabase ;;
  query (fun s => limit n (by_createdAt_desc (memories s))).

(** [SET key = ?] on one row; the [id] entry is the one [updateMemory]
    leaves out. *)
Definition assign (e : MemoryEntry) (m : Memory.t) : Memory.t :=
  let 'Memory.Build_t i c ct ca la lo ln au im lu lt lp ft vc lv := m in
  match e with
  | E_id _ => m
  | E_content v =>
      Memory.Build_t i v ct ca la lo ln au im lu lt lp ft vc lv
  | E_contentType v =>
      Memory.Build_t i c v ca la lo ln au im lu lt lp ft vc lv
  | E_createdAt v =>
      Memory.Build_t i c ct v la lo ln au im lu lt lp ft vc lv
  | E_latitude v =>
      Memory.Build_t i c ct ca v lo ln au im lu lt lp ft vc lv
  | E_longitude v =>
      Memory.Build_t i c ct ca la v ln au im lu lt lp ft vc lv
  | E_locationName v =>
      Memory.Build_t i c ct ca la lo v au im lu lt lp ft vc lv
  | E_audioUri v =>
      Memory.Build_t i c ct ca la lo ln v im lu lt lp ft vc lv
  | E_imageUri v =>
      Memory.Build_t i c ct ca la lo ln au v lu lt lp ft vc lv
  | E_linkUrl v =>
      Memory.Build_t i c ct ca la lo ln au im v lt lp ft vc lv
  | E_linkTitle v =>
      Memory.Build_t i c ct ca la lo ln au im lu v lp ft vc lv
  | E_linkPreview v =>
      Memory.Build_t i c ct ca la lo ln au im lu lt v ft vc lv
  | E_focusTags v =>
      Memory.Build_t i c ct ca la lo ln au im lu lt lp v vc lv
  | E_viewCount v =>
      Memory.Build_t i c ct ca la lo ln au im lu lt lp ft v lv
  | E_lastViewedAt v =>
      Memory.Build_t i c ct ca la lo ln au im lu lt lp ft vc v
  end.

Definition is_id_entry (e : MemoryEntry) : bool :=
  match e with E_id _ => true | _ => false end.

(** [UPDATE memories SET ... WHERE id = ?] *)
Definition update_where_id (rowid : Z) (f : Memory.t -> Memory.t)
    (rows : list Memory.t) : list Memory.t :=
  map (fun m => if Memory.id m =? rowid then f m else m) rows.

Definition updateMemory (rowid : Z) (updates : list MemoryEntry)
    : Promise unit :=
  _ <- getDatabase ;;
  let fields := filter (fun e => negb (is_id_entry e)) updates in
  if (0 <? List.length fields)%nat then
    exec (fun s =>
      set_memories
        (update_where_id rowid
           (fun m => fold_left (fun m e => assign e m) fields m))
        (memories_seq s) s)
  else resolve tt.

(** [DELETE FROM memories WHERE id = ?] *)
Definition deleteMemory (rowid : Z) : Promise unit :=
  _ <- getDatabase ;;
  exec (fun s =>
    set_memories (filter (fun m => negb (Memory.id m =? rowid)))
                 (memories_seq s) s).

Definition viewed (at_ : string) (m : Memory.t) : Memory.t :=
  assign (E_lastViewedAt (Some at_))
         (assign (E_viewCount (Memory.viewCount m + 1)) m).

Definition incrementViewCount (now : Z) (rowid : Z) : Promise unit :=
  _ <- getDatabase ;;
  exec (fun s =>
    set_memories (update_where_id rowid (viewed (JSDate.toISOString now)))
                 (memories_seq s) s).

(** *** Focus goals *)

Definition set_focus_goals (f : list FocusGoal.t -> list FocusGoal.t)
    (seq : Z) (s : Store) : Store :=
  {| db := db s;
     memories := memories s;
     memories_seq := memories_seq s;
     focus_goals := f (focus_goals s);
     focus_goals_seq := seq;
     user_preferences := user_preferences s |}.

Definition getFocusGoals : Promise (list FocusGoal.t) :=
  _ <- getDatabase ;;
  query (fun s =>
    order_by_desc String.compare FocusGoal.createdAt (focus_goals s)).

(** [INSERT INTO focus_goals (name, createdAt) VALUES (?, ?)]: [isActive]
    takes its default 0. *)
Definition addFocusGoal (now : Z) (name : string) : Promise Z :=
  _ <- getDatabase ;;
  fun s =>
    let rowid :=
      next_rowid (focus_goals_seq s) (map FocusGoal.id (focus_goals s)) in
    (Fulfilled rowid,
     set_focus_goals
       (fun rows => rows ++ [ {| FocusGoal.id := rowid;
                                 FocusGoal.name := name;
                                 FocusGoal.isActive := false;
                                 FocusGoal.createdAt := JSDate.toISOString now |} ])
       rowid s).

Definition set_isActive (b : bool) (g : FocusGoal.t) : FocusGoal.t :=
  {| FocusGoal.id := FocusGoal.id g;
     FocusGoal.name := FocusGoal.name g;
     FocusGoal.isActive := b;
     FocusGoal.createdAt := FocusGoal.createdAt g |}.

(** [UPDATE focus_goals SET isActive = 0] *)
Definition deactivate_all : Promise unit :=
  exec (fun s => set_focus_goals (map (set_isActive false))
                                 (focus_goals_seq s) s).

(** [UPDATE focus_goals SET isActive = 1 WHERE id = ?] *)
Definition activate (rowid : Z) : Promise unit :=
  exec (fun s =>
    set_focus_goals
      (map (fun g => if FocusGoal.id g =? rowid then set_isActive true g
                     else g))
      (focus_goals_seq s) s).

Definition setActiveFocusGoal (rowid : option Z) : Promise unit :=
  _ <- getDatabase ;;
  _ <- deactivate_all ;;
  match rowid with
  | Some i => activate i
  | None => resolve tt
  end.

Definition deleteFocusGoal (rowid : Z) : Promise unit :=
  _ <- getDatabase ;;
  exec (fun s =>
    set_focus_goals (filter (fun g => negb (FocusGoal.id g =? rowid)))
                    (focus_goals_seq s) s).

(** *** Preferences and aggregates *)

Definition getUserPreferences : Promise UserPreferences.t :=
  _ <- getDatabase ;;
  query (fun s =>
    match user_preferences s with
    | Some row => row
    | None => default_preferences
    end).

Definition getMemoryCount : Promise Z :=
  _ <- getDatabase ;;
  query (fun s => Z.of_nat (List.length (memories s))).

Definition getTodayMemoryCount (now : Z) : Promise Z :=
  _ <- getDatabase ;;
  let today := JSString.split_head "T" (JSDate.toISOString now) in
  query (fun s =>
    Z.of_nat
      (List.length (filter (fun m => date_is today (Memory.createdAt m))
                      (memories s)))).

(** [tz] is the offset in force now, [tz'] the one in force at the same
    wall-clock time the day before. *)
Definition getMorningMemories (tz tz' now : Z) : Promise (list Memory.t) :=
  _ <- getDatabase ;;
  let yesterday := JSDate.previousDay tz tz' now in
  let yesterdayStr :=
    JSString.split_head "T" (JSDate.toISOString yesterday) in
  query (fun s =>
    limit 5
      (by_createdAt_desc
         (filter (fun m => date_is yesterdayStr (Memory.createdAt m))
                 (memories s)))).

Definition getFrequentlyViewedMemories : Promise (list Memory.t) :=
  _ <- getDatabase ;;
  query (fun s =>
    limit 5
      (order_by_desc Z.compare Memory.viewCount
         (filter (fun m => 0 <? Memory.viewCount m) (memories s)))).

(** One entry of a [Partial<UserPreferences>]. *)
Inductive PreferenceEntry :=
| P_id (v : Z)
| P_displayName (v : string)
| P_avatarIndex (v : Z)
| P_themeMode (v : ThemeMode)
| P_locationEnabled (v : bool).

Definition assign_preference (e : PreferenceEntry) (p : UserPreferences.t)
    : UserPreferences.t :=
  let 'UserPreferences.Build_t i n a t l := p in
  match e with
  | P_id _ => p
  | P_displayName v => UserPreferences.Build_t i v a t l
  | P_avatarIndex v => UserPreferences.Build_t i n v t l
  | P_themeMode v => UserPreferences.Build_t i n a v l
  | P_locationEnabled v => UserPreferences.Build_t i n a t v
  end.

Definition is_id_preference (e : PreferenceEntry) : bool :=
  match e with P_id _ => true | _ => false end.

(** [UPDATE user_preferences SET ... WHERE id = 1] *)
Definition updateUserPreferences (updates : list PreferenceEntry)
    : Promise unit :=
  _ <- getDatabase ;;
  let fields := filter (fun e => negb (is_id_preference e)) updates in
  if (0 <? List.length fields)%nat then
    exec (fun s =>
      {| db := db s;
         memories := memories s;
         memories_seq := memories_seq s;
         focus_goals := focus_goals s;
         focus_goals_seq := focus_goals_seq s;
         user_preferences :=
           option_map
             (fun p => fold_left (fun p e => assign_preference e p) fields p)
             (user_preferences s) |})
  else resolve tt.

End Database.

(* ===================================================================== *)
(** ** The file-persisted store ([lib/memory-store]) *)
(* ===================================================================== *)

Module MemoryStore.

Inductive MemoryType := text | voice | photo | link | screenshot.

Record Metadata := {
  durationSec : option Z;
  uri : option string;
  thumbnailUri : option string
}.

Record MemoryItem := {
  id : string;
  type : MemoryType;
  title : string;
  content : string;
  createdAt : string;
  location : option string;
  tags : option (list string);
  metadata : option Metadata
}.

Record MemoryState := {
  items : list MemoryItem;
  focusGoal : option string
}.

Inductive Action :=
| set_state (payload : MemoryState)
| add_item (payload : MemoryItem)
| set_focus (payload : option string).

Definition initialState : MemoryState := {| items := []; focusGoal := None |}.

Definition reducer (state : MemoryState) (action : Action) : MemoryState :=
  match action with
  | set_state payload => payload
  | add_item payload =>
      {| items := payload :: items state; focusGoal := focusGoal state |}
  | set_focus payload => {| items := items state; focusGoal := payload |}
  end.

(** The comparison [sortedItems] sorts with: the difference of the two
    [getTime()] values, which is NaN, hence no ordering, when either
    date is invalid. *)
Definition by_time_desc (a b : MemoryItem) : comparison :=
  match JSDate.parse (createdAt b), JSDate.parse (createdAt a) with
  | Some tb, Some ta => Z.compare tb ta
  | _, _ => Eq
  end.

Definition sortedItems (state : MemoryState) : list MemoryItem :=
  Stable.sort by_time_desc (items state).

Inductive TimeBucket := morning | afternoon | evening | night.

Definition getTimeBucket (tz now : Z) : TimeBucket :=
  let hour := JSDate.getHours tz now in
  if hour <? 12 then morning
  else if hour <? 17 then afternoon
  else if hour <? 21 then evening
  else night.

Definition isWithinHours (now : Z) (item : MemoryItem) (hours : Z) : bool :=
  match JSDate.parse (createdAt item) with
  | Some t => now - t <? hours * 60 * 60 * 1000
  | None => false
  end.

Definition getSmartSuggestions (tz now : Z) (items : list MemoryItem)
    : list MemoryItem :=
  let suggestions :=
    match getTimeBucket tz now with
    | morning => filter (fun item => isWithinHours now item 24) items
    | evening => filter (fun item => isWithinHours now item 48) items
    | _ => firstn 3 items
    end in
  firstn 4 suggestions.

(** [Omit<MemoryItem, "id" | "createdAt">], the argument of the store's
    [addMemory]. *)
Record NewItem := {
  new_type : MemoryType;
  new_title : string;
  new_content : string;
  new_location : option string;
  new_tags : option (list string);
  new_metadata : option Metadata
}.

(** The store's [addMemory]: [fresh] is the identifier [nanoid()] draws. *)
Definition addMemory (fresh : string) (now : Z) (input : NewItem)
    (state : MemoryState) : MemoryState :=
  reducer state
    (add_item {| id := fresh;
                 type := new_type input;
                 title := new_title input;
                 content := new_content input;
                 createdAt := JSDate.toISOString now;
                 location := new_location input;
                 tags := new_tags input;
                 metadata := new_metadata input |}).

Definition setFocusGoal (goal : option string) (state : MemoryState)
    : MemoryState :=
  reducer state (set_focus goal).

(** The instants [seedMemories()] stamps its four items with, [now] being
    the [Date.now()] it reads: 90 minutes, 5 hours, 24 hours and 48 hours
    earlier. *)
Definition seed_times (now : Z) : list Z :=
  [now - 1000 * 60 * 90; now - 1000 * 60 * 60 * 5;
   now - 1000 * 60 * 60 * 24; now - 1000 * 60 * 60 * 48].

(** What [seedMemories()] returns when it reads the clock at [now]: four
    items of these types, titles, tags and timestamps.  (Their ids are
    drawn by [nanoid()], and the text of one of them has a character
    outside the strings of this embedding; both are left open.) *)
Definition seeded (now : Z) (seeds : list MemoryItem) : Prop :=
  map type seeds = [voice; text; link; photo]
  /\ map title seeds
     = ["Morning check-in"; "Idea: local-first sync";
        "Article: contextual reminders"; "Whiteboard snapshot"]
  /\ map tags seeds
     = [Some ["work"; "focus"]; Some ["idea"; "research"];
        Some ["reading"]; Some ["workshop"]]
  /\ map createdAt seeds = map JSDate.toISOString (seed_times now).

(** The provider's effect on mount, once [loadFromDisk()] has settled
    with the stored state or with null: [set_state] is dispatched with
    the stored state, or with the seeds and no focus goal.  [seeds] is
    what [seedMemories()] returned. *)
Definition mount (stored : option MemoryState) (seeds : list MemoryItem)
    (state : MemoryState) : MemoryState :=
  reducer state
    (set_state
       match stored with
       | Some payload => payload
       | None => {| items := seeds; focusGoal := None |}
       end).

End MemoryStore.

(* ===================================================================== *)
(** ** Screens *)
(* ===================================================================== *)

Module TimelineScreen.
Import Database.

Record GroupedMemories := {
  date : string;
  formattedDate : string;
  data : list Memory.t
}.

(** The offset in force the day before does not show in
    [yesterday.toDateString()], the local date of [yesterday] being the
    day before today's whatever that offset is; it is taken to be [tz]. *)
Definition formatDate (tz now : Z) (dateString : string) : string :=
  match JSDate.parse dateString with
  | Some date =>
      let today := now in
      let yesterday := JSDate.previousDay tz tz today in
      if String.eqb (JSDate.toDateString tz date)
                    (JSDate.toDateString tz today) then "Today"
      else if String.eqb (JSDate.toDateString tz date)
                         (JSDate.toDateString tz yesterday) then "Yesterday"
      else JSDate.toLocaleDateString tz date
  | None => "Invalid Date"
  end.

(** [if (!groups[date]) groups[date] = []; groups[date].push(memory)] on
    the entries of [groups], kept in insertion order. *)
Fixpoint push (date : string) (memory : Memory.t)
    (groups : list (string * list Memory.t)) : list (string * list Memory.t) :=
  match groups with
  | [] => [(date, [memory])]
  | (k, v) :: rest =>
      if String.eqb k date then (k, v ++ [memory]) :: rest
      else (k, v) :: push date memory rest
  end.

Definition date_key (memory : Memory.t) : string :=
  JSString.split_head "T" (Memory.createdAt memory).

Definition collect (memories : list Memory.t) : list (string * list Memory.t) :=
  fold_left (fun groups memory => push (date_key memory) memory groups)
            memories [].

Definition groupMemoriesByDate (tz now : Z) (memories : list Memory.t)
    : list GroupedMemories :=
  map (fun entry =>
         {| date := fst entry;
            formattedDate := formatDate tz now (fst entry);
            data := snd entry |})
      (Stable.sort (fun a b => JSString.localeCompare (fst b) (fst a))
                   (collect memories)).

(** [loadMemories]: what the screen shows after a load.  (Its [catch]
    branch, which only logs, is entered when the store rejects.) *)
Definition loadMemories (tz now : Z) : Promise (list GroupedMemories) :=
  _ <- initDatabase ;;
  data <- getAllMemories ;;
  resolve (groupMemoriesByDate tz now data).

(** [filteredGroups]: the groups shown under the type filter. *)
Definition filteredGroups (filterType : option ContentType)
    (groupedMemories : list GroupedMemories) : list GroupedMemories :=
  match filterType with
  | Some t =>
      filter (fun group => (0 <? List.length (data group))%nat)
        (map (fun group =>
                {| date := date group;
                   formattedDate := formattedDate group;
                   data := filter (fun m =>
                                     ContentType_eqb (Memory.contentType m) t)
                                  (data group) |})
             groupedMemories)
  | None => groupedMemories
  end.

End TimelineScreen.

Module DiscoverScreen.
Import Database.

(** [loadData]: the suggestions and the goals the screen is given.  (Its
    [catch] branch, which only logs, is entered when the store rejects.)
    [tz] is the offset in force now, [tz'] the one in force at the same
    wall-clock time the day before. *)
Definition loadData (tz tz' now : Z)
    : Promise (list Memory.t * list FocusGoal.t) :=
  _ <- initDatabase ;;
  let hour := JSDate.getHours tz now in
  memorySuggestions <-
    (if hour <? 12 then getMorningMemories tz tz' now
     else if hour <? 17 then getRecentMemories 5
     else getFrequentlyViewedMemories) ;;
  memorySuggestions <-
    (if (List.length memorySuggestions =? 0)%nat then getRecentMemories 5
     else resolve memorySuggestions) ;;
  goals <- getFocusGoals ;;
  resolve (memorySuggestions, goals).

End DiscoverScreen.

Module FocusModeScreen.
Import Database.

Definition matches (keywords : list string) (memory : Memory.t) : bool :=
  let content := JSString.toLowerCase (Memory.content memory) in
  let tags :=
    match Memory.focusTags memory with
    | Some t => JSString.toLowerCase t
    | None => ""
    end in
  existsb (fun keyword => JSString.includes content keyword
                          || JSString.includes tags keyword)
          keywords.

(** [filterMemories]: the list handed to [setFilteredMemories].  (Its
    [catch] branch, which only logs, is entered when the store rejects.) *)
Definition filterMemories (goalName : string) : Promise (list Memory.t) :=
  allMemories <- getAllMemories ;;
  let keywords := JSString.split_spaces (JSString.toLowerCase goalName) in
  resolve (filter (matches keywords) allMemories).

(** The screen's state. *)
Record State := {
  goals : list FocusGoal.t;
  activeGoal : option FocusGoal.t;
  filteredMemories : list Memory.t;
  newGoalName : string;
  showNewGoalInput : bool
}.

Definition initial : State :=
  {| goals := []; activeGoal := None; filteredMemories := [];
     newGoalName := ""; showNewGoalInput := false |}.

Definition with_goals (v : list FocusGoal.t) (st : State) : State :=
  {| goals := v; activeGoal := activeGoal st;
     filteredMemories := filteredMemories st;
     newGoalName := newGoalName st;
     showNewGoalInput := showNewGoalInput st |}.

Definition with_activeGoal (v : option FocusGoal.t) (st : State) : State :=
  {| goals := goals st; activeGoal := v;
     filteredMemories := filteredMemories st;
     newGoalName := newGoalName st;
     showNewGoalInput := showNewGoalInput st |}.

Definition with_filteredMemories (v : list Memory.t) (st : State) : State :=
  {| goals := goals st; activeGoal := activeGoal st;
     filteredMemories := v;
     newGoalName := newGoalName st;
     showNewGoalInput := showNewGoalInput st |}.

Definition with_input (name : string) (shown : bool) (st : State) : State :=
  {| goals := goals st; activeGoal := activeGoal st;
     filteredMemories := filteredMemories st;
     newGoalName := name;
     showNewGoalInput := shown |}.

(** [setActiveGoal(goal); await filterMemories(goal.name)] *)
Definition show_goal (goal : FocusGoal.t) (st : State) : Promise State :=
  filtered <- filterMemories (FocusGoal.name goal) ;;
  resolve (with_filteredMemories filtered (with_activeGoal (Some goal) st)).

(** [route.params?.goalId] as a condition: absent and 0 are falsy. *)
Definition goalId_given (goalId : option Z) : option Z :=
  match goalId with
  | Some i => if i =? 0 then None else Some i
  | None => None
  end.

(** [loadData], for the [goalId] the screen was opened with. *)
Definition loadData (goalId : option Z) (st : State) : Promise State :=
  _ <- initDatabase ;;
  allGoals <- getFocusGoals ;;
  let st := with_goals allGoals st in
  let found :=
    match goalId_given goalId with
    | Some i => find (fun g => FocusGoal.id g =? i) allGoals
    | None => find FocusGoal.isActive allGoals
    end in
  match found with
  | Some goal => show_goal goal st
  | None => resolve st
  end.

Definition handleSelectGoal (goal : FocusGoal.t) (st : State)
    : Promise State :=
  _ <- setActiveFocusGoal (Some (FocusGoal.id goal)) ;;
  show_goal goal st.

(** [handleCreateGoal]: the alert raised, if any, and the state left. *)
Definition handleCreateGoal (now : Z) (goalId : option Z) (st : State)
    : Promise (option (string * string) * State) :=
  if negb (JSString.truthy (JSString.trim (newGoalName st))) then
    resolve (Some ("Empty Name", "Please enter a goal name."), st)
  else
    _ <- addFocusGoal now (JSString.trim (newGoalName st)) ;;
    st' <- loadData goalId (with_input "" false st) ;;
    resolve (None, st').

(** [handleDeleteGoal], once the deletion is confirmed. *)
Definition handleDeleteGoal (goalId : option Z) (goal : FocusGoal.t)
    (st : State) : Promise State :=
  _ <- deleteFocusGoal (FocusGoal.id goal) ;;
  let st :=
    match activeGoal st with
    | Some active =>
        if FocusGoal.id active =? FocusGoal.id goal
        then with_filteredMemories [] (with_activeGoal None st)
        else st
    | None => st
    end in
  loadData goalId st.

Definition handleExitFocus : Promise unit :=
  setActiveFocusGoal None.

End FocusModeScreen.

Module TextInputScreen.
Import Database.

Inductive Feedback :=
| Alert (title message : string)
| GoBack.

(** [handleSave] for the text the user typed and the location picked up
    when the screen opened: the feedback the user gets (the alert shown, or
    the return to the previous screen after a save) and the store left.
    The [saving] flag and the haptic feedback are not part of the model. *)
Definition handleSave (now : Z) (text : string)
    (location : option (REAL * REAL)) : Store -> Feedback * Store :=
  fun s =>
    if negb (JSString.truthy (JSString.trim text)) then
      (Alert "Empty Note" "Please write something before saving.", s)
    else
      match addMemory
              {| NewMemory.content := JSString.trim text;
                 NewMemory.contentType := Database.text;
                 NewMemory.createdAt := JSDate.toISOString now;
                 NewMemory.latitude := option_map fst location;
                 NewMemory.longitude := option_map snd location;
                 NewMemory.locationName := None;
                 NewMemory.audioUri := None;
                 NewMemory.imageUri := None;
                 NewMemory.linkUrl := None;
                 NewMemory.linkTitle := None;
                 NewMemory.linkPreview := None;
                 NewMemory.focusTags := None |} s with
      | (Fulfilled _, s') => (GoBack, s')
      | (Rejected _, s') =>
          (Alert "Error" "Failed to save note. Please try again.", s')
      end.

End TextInputScreen.

Module HomeScreen.
Import MemoryStore.

Definition filteredItems (focusGoal : option string)
    (items : list MemoryItem) : list MemoryItem :=
  match focusGoal with
  | None => items
  | Some goal =>
      if negb (JSString.truthy goal) then items
      else
        let lowerGoal := JSString.toLowerCase goal in
        filter (fun item =>
                  JSString.includes (JSString.toLowerCase (title item)) lowerGoal
                  || match tags item with
                     | Some ts =>
                         existsb (fun tag =>
                                    JSString.includes (JSString.toLowerCase tag)
                                                      lowerGoal) ts
                     | None => false
                     end)
               items
  end.

(** The payload [QuickAddModal] submits. *)
Record Payload := {
  payload_type : MemoryType;
  payload_title : string;
  payload_content : string;
  payload_tags : option (list string);
  payload_metadata : option Metadata
}.

(** [handleAdd]: an item added under a focus goal, and without tags of
    its own, is tagged with the goal. *)
Definition handleAdd (fresh : string) (now : Z) (payload : Payload)
    (state : MemoryState) : MemoryState :=
  MemoryStore.addMemory fresh now
    {| new_type := payload_type payload;
       new_title := payload_title payload;
       new_content := payload_content payload;
       new_location := None;
       new_tags :=
         match payload_tags payload with
         | Some ts => Some ts
         | None =>
             match focusGoal state with
             | Some goal => if JSString.truthy goal then Some [goal] else None
             | None => None
             end
         end;
       new_metadata := payload_metadata payload |}
    state.

Definition toggleFocus (state : MemoryState) : MemoryState :=
  MemoryStore.setFocusGoal
    (match focusGoal state with
     | Some goal => if JSString.truthy goal then None else Some "focus"
     | None => Some "focus"
     end)
    state.

End HomeScreen.

Module VoiceInputScreen.
Import Database.

(** [formatTime]: the recording time, a count of seconds, as [mm:ss]. *)
Definition formatTime (seconds : Z) : string :=
  let mins := seconds / 60 in
  let secs := seconds mod 60 in
  (JSString.padStart 2 "0" (JSNumber.toString mins) ++ ":"
   ++ JSString.padStart 2 "0" (JSNumber.toString secs))%string.

(** [!uri] for a [string | null]. *)
Definition missing (uri : option string) : bool :=
  match uri with
  | Some u => negb (JSString.truthy u)
  | None => true
  end.

Definition handleSave (now : Z) (audioUri : option string)
    (recordingTime : Z) (location : option (REAL * REAL))
    : Store -> TextInputScreen.Feedback * Store :=
  fun s =>
    match audioUri with
    | Some uri =>
        if missing audioUri then
          (TextInputScreen.Alert "No Recording"
             "Please record a voice note first.", s)
        else
          match addMemory
                  {| NewMemory.content :=
                       ("Voice note - " ++ formatTime recordingTime)%string;
                     NewMemory.contentType := voice;
                     NewMemory.createdAt := JSDate.toISOString now;
                     NewMemory.latitude := option_map fst location;
                     NewMemory.longitude := option_map snd location;
                     NewMemory.locationName := None;
                     NewMemory.audioUri := Some uri;
                     NewMemory.imageUri := None;
                     NewMemory.linkUrl := None;
                     NewMemory.linkTitle := None;
                     NewMemory.linkPreview := None;
                     NewMemory.focusTags := None |} s with
          | (Fulfilled _, s') => (TextInputScreen.GoBack, s')
          | (Rejected _, s') =>
              (TextInputScreen.Alert "Error"
                 "Failed to save voice note. Please try again.", s')
          end
    | None =>
        (TextInputScreen.Alert "No Recording"
           "Please record a voice note first.", s)
    end.

End VoiceInputScreen.

Module PhotoInputScreen.
Import Database.

Definition handleSave (now : Z) (imageUri : option string)
    (caption : string) (location : option (REAL * REAL))
    : Store -> TextInputScreen.Feedback * Store :=
  fun s =>
    match imageUri with
    | Some uri =>
        if VoiceInputScreen.missing imageUri then
          (TextInputScreen.Alert "No Photo"
             "Please select or capture a photo first.", s)
        else
          match addMemory
                  {| NewMemory.content :=
                       JSString.or_default (JSString.trim caption) "Photo";
                     NewMemory.contentType := photo;
                     NewMemory.createdAt := JSDate.toISOString now;
                     NewMemory.latitude := option_map fst location;
                     NewMemory.longitude := option_map snd location;
                     NewMemory.locationName := None;
                     NewMemory.audioUri := None;
                     NewMemory.imageUri := Some uri;
                     NewMemory.linkUrl := None;
                     NewMemory.linkTitle := None;
                     NewMemory.linkPreview := None;
                     NewMemory.focusTags := None |} s with
          | (Fulfilled _, s') => (TextInputScreen.GoBack, s')
          | (Rejected _, s') =>
              (TextInputScreen.Alert "Error"
                 "Failed to save photo. Please try again.", s')
          end
    | None =>
        (TextInputScreen.Alert "No Photo"
           "Please select or capture a photo first.", s)
    end.

End PhotoInputScreen.

Module MemoryCard.

(** [truncateText] *)
Definition truncateText (text : string) (maxLength : nat) : string :=
  if (String.length text <=? maxLength)%nat then text
  else (JSString.trim (JSString.substring_to maxLength text) ++ "...")%string.

End MemoryCard.

Module ProfileScreen.
Import Database.

(** The screen's state: the preferences and the two counters shown. *)
Record State := {
  preferences : option UserPreferences.t;
  totalMemories : Z;
  todayMemories : Z
}.

Definition initial : State :=
  {| preferences := None; totalMemories := 0; todayMemories := 0 |}.

Definition loadData (now : Z) : Promise State :=
  _ <- initDatabase ;;
  prefs <- getUserPreferences ;;
  total <- getMemoryCount ;;
  today <- getTodayMemoryCount now ;;
  resolve {| preferences := Some prefs;
             totalMemories := total;
             todayMemories := today |}.

Definition with_preferences (p : UserPreferences.t) (st : State) : State :=
  {| preferences := Some p;
     totalMemories := totalMemories st;
     todayMemories := todayMemories st |}.

Definition handleAvatarChange (index : Z) (st : State) : Promise State :=
  match preferences st with
  | None => resolve st
  | Some p =>
      _ <- updateUserPreferences [P_avatarIndex index] ;;
      resolve (with_preferences (assign_preference (P_avatarIndex index) p) st)
  end.

Definition handleLocationToggle (st : State) : Promise State :=
  match preferences st with
  | None => resolve st
  | Some p =>
      let newValue := negb (UserPreferences.locationEnabled p) in
      _ <- updateUserPreferences [P_locationEnabled newValue] ;;
      resolve
        (with_preferences (assign_preference (P_locationEnabled newValue) p)
                          st)
  end.

End ProfileScreen.

(* ===================================================================== *)
(** ** Sample data *)
(* ===================================================================== *)

Module Sample.
Import Database.

(** A text note, as the text screen saves it. *)
Definition note (content createdAt : string) (focusTags : option string)
    : NewMemory.t :=
  {| NewMemory.content := content;
     NewMemory.contentType := text;
     NewMemory.createdAt := createdAt;
     NewMemory.latitude := None;
     NewMemory.longitude := None;
     NewMemory.locationName := None;
     NewMemory.audioUri := None;
     NewMemory.imageUri := None;
     NewMemory.linkUrl := None;
     NewMemory.linkTitle := None;
     NewMemory.linkPreview := None;
     NewMemory.focusTags := focusTags |}.

(** The store after the given notes were added to an empty one. *)
Definition store_of (notes : list NewMemory.t) : Store :=
  fold_left (fun s n => store_after (addMemory n) s) notes empty.

(** 2024-01-01T08:00:00.000Z *)
Definition jan1_0800 : Z := 1704096000000.

Definition hours (n : Z) : Z := n * JSDate.msPerHour.

Definition buy_milk : Store :=
  store_of [note "Buy milk" (JSDate.toISOString jan1_0800) None].

(** Four notes taken on the morning of 2024-01-01, an hour apart, the
    first one tagged; and the same four records in the file store. *)
Definition four_notes : Store :=
  store_of
    [note "Book flights" (JSDate.toISOString jan1_0800) (Some "travel-plans");
     note "Call the bank" (JSDate.toISOString (jan1_0800 + hours 1)) None;
     note "Buy milk" (JSDate.toISOString (jan1_0800 + hours 2)) None;
     note "Water the plants" (JSDate.toISOString (jan1_0800 + hours 3)) None].

Definition item (id title createdAt : string) (tags : option (list string))
    : MemoryStore.MemoryItem :=
  {| MemoryStore.id := id;
     MemoryStore.type := MemoryStore.text;
     MemoryStore.title := title;
     MemoryStore.content := title;
     MemoryStore.createdAt := createdAt;
     MemoryStore.location := None;
     MemoryStore.tags := tags;
     MemoryStore.metadata := None |}.

Definition four_items : MemoryStore.MemoryState :=
  fold_left MemoryStore.reducer
    [MemoryStore.add_item
       (item "a" "Book flights" (JSDate.toISOString jan1_0800)
             (Some ["travel-plans"]));
     MemoryStore.add_item
       (item "b" "Call the bank" (JSDate.toISOString (jan1_0800 + hours 1))
             None);
     MemoryStore.add_item
       (item "c" "Buy milk" (JSDate.toISOString (jan1_0800 + hours 2)) None);
     MemoryStore.add_item
       (item "d" "Water the plants"
             (JSDate.toISOString (jan1_0800 + hours 3)) None)]
    MemoryStore.initialState.

(** Two notes taken on 2024-01-02 and one taken on 2024-01-01. *)
Definition three_notes : Store :=
  store_of
    [note "Plan the week" (JSDate.toISOString jan1_0800) None;
     note "Call the bank" (JSDate.toISOString (jan1_0800 + hours 26)) None;
     note "Book flights" (JSDate.toISOString (jan1_0800 + hours 31)) None].

(** Notes taken on three consecutive days: 2024-01-01 08:00,
    2024-01-02 10:00 and 2024-01-03 09:00, UTC. *)
Definition three_days : Store :=
  store_of
    [note "Plan the week" (JSDate.toISOString jan1_0800) None;
     note "Call the bank" (JSDate.toISOString (jan1_0800 + hours 26)) None;
     note "Book flights" (JSDate.toISOString (jan1_0800 + hours 49)) None].

(** Notes taken late in the evening, UTC: 2024-01-01 20:00,
    2024-01-01 22:00 and 2024-01-02 22:00.  Three hours east of UTC these
    are 23:00 on 1 January, 01:00 on 2 January and 01:00 on 3 January. *)
Definition late_notes : Store :=
  store_of
    [note "Lock the door" (JSDate.toISOString (jan1_0800 + hours 12)) None;
     note "Set the alarm" (JSDate.toISOString (jan1_0800 + hours 14)) None;
     note "Charge the phone" (JSDate.toISOString (jan1_0800 + hours 38))
          None].

(** Notes taken at 08:00 on 1 January and at 02:00 and 05:00 on
    2 January, UTC.  Eleven hours east of UTC these are 19:00 on
    1 January, 13:00 and 16:00 on 2 January. *)
Definition east_notes : Store :=
  store_of
    [note "Two days ago" (JSDate.toISOString jan1_0800) None;
     note "Yesterday at one" (JSDate.toISOString (jan1_0800 + hours 18)) None;
     note "Yesterday at four" (JSDate.toISOString (jan1_0800 + hours 21))
          None].

(** Two goals, created a minute apart. *)
Definition two_goals : Store :=
  store_after (addFocusGoal (jan1_0800 + 60000) "travel")
    (store_after (addFocusGoal jan1_0800 "work") empty).

End Sample.

(* ===================================================================== *)
(** ** Invariants of the store *)
(* ===================================================================== *)

Module Invariant.
Import Database.

(** The goals marked active. *)
Definition active_goals (goals : list FocusGoal.t) : list FocusGoal.t :=
  filter FocusGoal.isActive goals.

(** The single-active-goal invariant. *)
Definition single_active (goals : list FocusGoal.t) : Prop :=
  (List.length (active_goals goals) <= 1)%nat.

(** [id] is the primary key of [focus_goals]. *)
Definition goal_ids_unique (s : Store) : Prop :=
  NoDup (map FocusGoal.id (focus_goals s)).

(** What [UPDATE focus_goals SET isActive = 1 WHERE id = ?] does to a row. *)
Definition activate_row (rowid : Z) (g : FocusGoal.t) : FocusGoal.t :=
  if FocusGoal.id g =? rowid then set_isActive true g else g.

End Invariant.

(* ===================================================================== *)
(** ** Notions the specification uses *)
(* ===================================================================== *)

Module Spec.
Import Database.

(** [k] occurs in [s] as a substring. *)
Definition substring_of (k s : string) : Prop :=
  exists pre post, s = (pre ++ k ++ post)%string.

Fixpoint all_chars (p : ascii -> bool) (s : string) : bool :=
  match s with
  | EmptyString => true
  | String c s' => p c && all_chars p s'
  end.

(** A string that is empty or consists only of whitespace. *)
Definition blank (s : string) : Prop :=
  all_chars JSString.is_white_space s = true.

(** A string without any whitespace. *)
Definition unspaced (s : string) : Prop :=
  all_chars (fun c => negb (JSString.is_white_space c)) s = true.

(** Day numbers whose year has four digits: 0000-03-01 to 9999-12-31. *)
Definition in_calendar (day : Z) : Prop := -719468 <= day <= 2932896.

(** The date [YYYY-MM-DD] of a day number. *)
Definition date_of_day (day : Z) : string :=
  JSDate.iso_date_of_civil (JSDate.civil_from_days day).

(** The local day number of an instant. *)
Definition local_day (tz t : Z) : Z := JSDate.Day (JSDate.LocalTime tz t).

(** [a] may stand before [b] in a list sorted with [before]: [b] is not
    strictly before [a]. *)
Definition may_precede {A} (before : A -> A -> comparison) (a b : A)
    : Prop :=
  before b a <> Lt.

(** Rows with the most recent [createdAt] first. *)
Definition newest_first (rows : list Memory.t) : Prop :=
  StronglySorted
    (fun a b =>
       String.compare (Memory.createdAt a) (Memory.createdAt b) <> Lt)
    rows.

(** Rows with the largest [viewCount] first. *)
Definition most_viewed_first (rows : list Memory.t) : Prop :=
  StronglySorted (fun a b => Memory.viewCount b <= Memory.viewCount a) rows.

(** The number of records whose [createdAt] falls on the current local
    calendar date. *)
Definition local_today_count (tz now : Z) (s : Store) : Z :=
  Z.of_nat
    (List.length
       (filter (fun m =>
                  match JSDate.parse (Memory.createdAt m) with
                  | Some t => local_day tz t =? local_day tz now
                  | None => false
                  end)
               (memories s))).

(** The local day number a record was created on. *)
Definition local_day_of (tz : Z) (m : Memory.t) : option Z :=
  option_map (local_day tz) (JSDate.parse (Memory.createdAt m)).

(** A record dated a given day: SQLite's [date(createdAt)] is that
    day's [YYYY-MM-DD]. *)
Definition dated (day : Z) (m : Memory.t) : bool :=
  date_is (date_of_day day) (Memory.createdAt m).

(** A selection, or the fallback when the selection is empty. *)
Definition or_else {A} (selection fallback : list A) : list A :=
  match selection with
  | [] => fallback
  | _ => selection
  end.

(** A record whose timestamp carries the date [k]. *)
Definition on_date (k : string) (m : Memory.t) : bool :=
  String.eqb (TimelineScreen.date_key m) k.

(** What [collect] has built once the records [done] went through it:
    one entry per date met, holding the records of that date in the
    order they came. *)
Definition grouped (done : list Memory.t)
    (groups : list (string * list Memory.t)) : Prop :=
  NoDup (map fst groups)
  /\ (forall k v, In (k, v) groups -> v = filter (on_date k) done /\ v <> [])
  /\ (forall m, In m done -> In (TimelineScreen.date_key m) (map fst groups)).

(** The comparison the timeline sorts its entries with. *)
Definition newest_date_first (a b : string * list Memory.t) : comparison :=
  JSString.localeCompare (fst b) (fst a).

(** Words laid out with a separator between each two of them. *)
Fixpoint weave (words seps : list string) : string :=
  match words, seps with
  | w :: words', sep :: seps' => (w ++ sep ++ weave words' seps')%string
  | w :: _, [] => w
  | [], _ => ""
  end.

(** What [/\s+/] matches: a non-empty run of whitespace. *)
Definition separator (sep : string) : Prop := sep <> "" /\ blank sep.

(** The tag text focus filtering looks at: [focusTags], or the empty
    string when the record has none. *)
Definition tags_text (m : Memory.t) : string :=
  match Memory.focusTags m with
  | Some t => t
  | None => ""
  end.

(** The same logical record held by both stores: the text the file store
    matches on ([title]) is the text the relational store matches on
    ([content]), and [focusTags] is the tag list joined by single
    spaces. *)
Definition corresponds (m : Memory.t) (item : MemoryStore.MemoryItem)
    : Prop :=
  Memory.content m = MemoryStore.title item
  /\ Memory.createdAt m = MemoryStore.createdAt item
  /\ Memory.focusTags m =
     option_map (JSString.join " ") (MemoryStore.tags item).

End Spec.

(* ===================================================================== *)
(** ** Notions used to state what the code does *)
(* ===================================================================== *)

Module Behaviour.
Import Database Invariant.

(** *** Runs of calls *)

(** One call on the memories. *)
Inductive MemoryOp :=
| Op_add (memory : NewMemory.t)
| Op_update (rowid : Z) (updates : list MemoryEntry)
| Op_delete (rowid : Z)
| Op_view (now rowid : Z).

Definition apply_op (op : MemoryOp) (s : Store) : Store :=
  match op with
  | Op_add memory => store_after (addMemory memory) s
  | Op_update rowid updates => store_after (updateMemory rowid updates) s
  | Op_delete rowid => store_after (deleteMemory rowid) s
  | Op_view now rowid => store_after (incrementViewCount now rowid) s
  end.

Definition run (ops : list MemoryOp) (s : Store) : Store :=
  fold_left (fun s op => apply_op op s) ops s.

(** [id] is a key of [memories], and no id exceeds the table's
    sequence. *)
Definition rowids_sound (s : Store) : Prop :=
  NoDup (map Memory.id (memories s))
  /\ forall i, In i (map Memory.id (memories s)) -> 0 < i <= memories_seq s.

(** One call on the focus goals. *)
Inductive GoalOp :=
| Op_addGoal (now : Z) (name : string)
| Op_activate (rowid : option Z)
| Op_deleteGoal (rowid : Z).

Definition apply_goal_op (op : GoalOp) (s : Store) : Store :=
  match op with
  | Op_addGoal now name => store_after (addFocusGoal now name) s
  | Op_activate rowid => store_after (setActiveFocusGoal rowid) s
  | Op_deleteGoal rowid => store_after (deleteFocusGoal rowid) s
  end.

Definition run_goals (ops : list GoalOp) (s : Store) : Store :=
  fold_left (fun s op => apply_goal_op op s) ops s.

(** The focus goals are well kept: [id] is a key, no id exceeds the
    table's sequence, and at most one goal is active. *)
Definition goals_sound (s : Store) : Prop :=
  goal_ids_unique s
  /\ (forall i, In i (map FocusGoal.id (focus_goals s)) ->
                0 < i <= focus_goals_seq s)
  /\ single_active (focus_goals s).

(** *** Views *)

(** Rows that differ at most in [viewCount] and [lastViewedAt]. *)
Definition same_but_views (a b : Memory.t) : Prop :=
  Memory.id a = Memory.id b
  /\ Memory.content a = Memory.content b
  /\ Memory.contentType a = Memory.contentType b
  /\ Memory.createdAt a = Memory.createdAt b
  /\ Memory.latitude a = Memory.latitude b
  /\ Memory.longitude a = Memory.longitude b
  /\ Memory.locationName a = Memory.locationName b
  /\ Memory.audioUri a = Memory.audioUri b
  /\ Memory.imageUri a = Memory.imageUri b
  /\ Memory.linkUrl a = Memory.linkUrl b
  /\ Memory.linkTitle a = Memory.linkTitle b
  /\ Memory.linkPreview a = Memory.linkPreview b
  /\ Memory.focusTags a = Memory.focusTags b.

(** The store after the record [rowid] was opened at each of [times]. *)
Definition views (times : list Z) (rowid : Z) (s : Store) : Store :=
  fold_left (fun s now => store_after (incrementViewCount now rowid) s)
            times s.

(** [lastViewedAt] after views at [times]. *)
Definition last_view (times : list Z) (previous : option string)
    : option string :=
  fold_left (fun _ now => Some (JSDate.toISOString now)) times previous.

(** *** Preferences and goals *)

(** The preferences a store holds: the singleton row, or its defaults. *)
Definition preferences_of (s : Store) : UserPreferences.t :=
  match user_preferences s with
  | Some row => row
  | None => default_preferences
  end.

(** Once the database is open the singleton row exists. *)
Definition preferences_exist (s : Store) : Prop :=
  db s = true -> user_preferences s <> None.

(** What identifies a goal apart from its being active. *)
Definition goal_identity (g : FocusGoal.t) : Z * string * string :=
  (FocusGoal.id g, FocusGoal.name g, FocusGoal.createdAt g).

(** The memories a focus goal brings up. *)
Definition brought_up (goalName : string) (s : Store) : list Memory.t :=
  filter (FocusModeScreen.matches
            (JSString.split_spaces (JSString.toLowerCase goalName)))
         (by_createdAt_desc (memories s)).

(** The goals as [getFocusGoals] lists them. *)
Definition listed_goals (s : Store) : list FocusGoal.t :=
  order_by_desc String.compare FocusGoal.createdAt (focus_goals s).

(** *** Text *)

Definition first_char (s : string) : option ascii :=
  match s with
  | EmptyString => None
  | String c _ => Some c
  end.

Fixpoint last_char (s : string) : option ascii :=
  match s with
  | EmptyString => None
  | String c EmptyString => Some c
  | String _ rest => last_char rest
  end.

(** A string with no whitespace at either end. *)
Definition trimmed (s : string) : Prop :=
  forall c, first_char s = Some c \/ last_char s = Some c ->
            JSString.is_white_space c = false.

(** *** Captures *)

(** A media reference that is there: neither null nor empty. *)
Definition present (uri : option string) : Prop :=
  exists u, uri = Some u /\ u <> "".

(** What the capture screens owe the store: a record has content, has
    never been viewed, and carries the media its type calls for and no
    other. *)
Definition well_formed (m : Memory.t) : Prop :=
  Memory.content m <> ""
  /\ Memory.viewCount m = 0
  /\ Memory.linkUrl m = None
  /\ match Memory.contentType m with
     | text => Memory.audioUri m = None /\ Memory.imageUri m = None
     | voice => present (Memory.audioUri m) /\ Memory.imageUri m = None
     | photo => present (Memory.imageUri m) /\ Memory.audioUri m = None
     | _ => False
     end.

(** A save that went through: the user is sent back and the store holds
    one more record, which is [ok]; or one that did not: an alert, and
    the store as it was. *)
Definition saved_or_refused (result : TextInputScreen.Feedback * Store)
    (s : Store) (saved : Prop) (ok : Memory.t -> Prop) : Prop :=
  (saved /\ fst result = TextInputScreen.GoBack
   /\ exists row, memories (snd result) = memories s ++ [row] /\ ok row)
  \/ (~ saved /\ snd result = s
      /\ exists title message,
           fst result = TextInputScreen.Alert title message).

(** *** Time *)

(** A timestamp as the capture screens write it: [toISOString()] of an
    instant of a four-digit year. *)
Definition written_at (t : Z) (createdAt : string) : Prop :=
  Spec.in_calendar (JSDate.Day t) /\ createdAt = JSDate.toISOString t.

(** Comparing first by [c1], then by [c2]. *)
Definition then_by (c1 c2 : comparison) : comparison :=
  match c1 with
  | Eq => c2
  | _ => c1
  end.

(** The instant an item of the file store was created, when its
    [createdAt] reads as a date. *)
Definition instant (item : MemoryStore.MemoryItem) : option Z :=
  JSDate.parse (MemoryStore.createdAt item).

(** An item created less than [hours] hours before [now]. *)
Definition younger_than (hours now : Z) (item : MemoryStore.MemoryItem)
    : Prop :=
  exists t, instant item = Some t /\ now - t < hours * 3600000.

(** [a] was created no earlier than [b]; an item without a date stands
    in no such relation. *)
Definition not_older (a b : MemoryStore.MemoryItem) : Prop :=
  exists ta tb, instant a = Some ta /\ instant b = Some tb /\ tb <= ta.

(** An item whose [createdAt] reads as a date. *)
Definition has_date (item : MemoryStore.MemoryItem) : Prop :=
  instant item <> None.

(** One step of the file store: the provider's mount effect, which may
    settle before or after the first calls, or a call of the screens. *)
Inductive ItemOp :=
| Op_mount (stored : option MemoryStore.MemoryState)
           (seeds : list MemoryStore.MemoryItem) (now : Z)
| Op_addItem (fresh : string) (now : Z) (input : MemoryStore.NewItem)
| Op_homeAdd (fresh : string) (now : Z) (payload : HomeScreen.Payload)
| Op_setFocus (goal : option string)
| Op_toggleFocus.

Definition apply_item_op (op : ItemOp) (state : MemoryStore.MemoryState)
    : MemoryStore.MemoryState :=
  match op with
  | Op_mount stored seeds _ => MemoryStore.mount stored seeds state
  | Op_addItem fresh now input => MemoryStore.addMemory fresh now input state
  | Op_homeAdd fresh now payload => HomeScreen.handleAdd fresh now payload state
  | Op_setFocus goal => MemoryStore.setFocusGoal goal state
  | Op_toggleFocus => HomeScreen.toggleFocus state
  end.

Definition run_items (ops : list ItemOp) (state : MemoryStore.MemoryState)
    : MemoryStore.MemoryState :=
  fold_left (fun state op => apply_item_op op state) ops state.

(** The steps of a running application: the clock is read at instants
    of four-digit years; the seeds are those of [seedMemories()]; and
    the stored state, which the store itself wrote, holds dated items. *)
Definition op_sound (op : ItemOp) : Prop :=
  match op with
  | Op_mount (Some payload) _ _ =>
      Forall has_date (MemoryStore.items payload)
  | Op_mount None seeds now =>
      MemoryStore.seeded now seeds
      /\ Forall (fun t => Spec.in_calendar (JSDate.Day t))
                (MemoryStore.seed_times now)
  | Op_addItem _ now _ | Op_homeAdd _ now _ =>
      Spec.in_calendar (JSDate.Day now)
  | _ => True
  end.

(** What the home screen lists: the store's items, newest first, under
    the focus goal. *)
Definition home_list (state : MemoryStore.MemoryState)
    : list MemoryStore.MemoryItem :=
  HomeScreen.filteredItems (MemoryStore.focusGoal state)
                           (MemoryStore.sortedItems state).

End Behaviour.

(* ===================================================================== *)
(** * Properties *)
(* ===================================================================== *)

(** ** The relational store *)

Section StoreFacts.
Import Database.

(** Opening touches neither table nor its sequence. *)
Lemma getDatabase_fulfilled (s : Store) :
  outcome getDatabase s = Fulfilled tt.
Proof. unfold outcome, getDatabase. destruct (db s); reflexivity. Qed.

Lemma getDatabase_tables (s : Store) :
  let s' := store_after getDatabase s in
  db s' = true /\ memories s' = memories s
  /\ memories_seq s' = memories_seq s
  /\ focus_goals s' = focus_goals s
  /\ focus_goals_seq s' = focus_goals_seq s.
Proof.
  unfold store_after, getDatabase.
  destruct (db s) eqn:E; simpl; auto.
Qed.

Lemma getDatabase_open (s : Store) :
  db s = true -> getDatabase s = (Fulfilled tt, s).
Proof. intros E. unfold getDatabase. rewrite E. reflexivity. Qed.

Lemma getDatabase_eta (s : Store) :
  getDatabase s = (Fulfilled tt, store_after getDatabase s).
Proof. unfold store_after, getDatabase. destruct (db s); reflexivity. Qed.

(** A promise that starts by awaiting the handle. *)
Lemma await_getDatabase {B} (k : unit -> Promise B) (s : Store) :
  await getDatabase k s = k tt (store_after getDatabase s).
Proof. unfold await. rewrite getDatabase_eta. reflexivity. Qed.

Lemma max_rowid_ge (ids : list Z) (i : Z) : In i ids -> i <= max_rowid ids.
Proof.
  induction ids as [|j ids IH]; simpl; [tauto|].
  intros [->|H]; [lia|]. specialize (IH H). lia.
Qed.

Lemma next_rowid_fresh (seq : Z) (ids : list Z) :
  ~ In (next_rowid seq ids) ids.
Proof.
  intros H. apply max_rowid_ge in H. unfold next_rowid in H. lia.
Qed.

Lemma assign_id (e : MemoryEntry) (m : Memory.t) :
  Memory.id (assign e m) = Memory.id m.
Proof. destruct m, e; reflexivity. Qed.

Lemma filter_idempotent {A} (f : A -> bool) (l : list A) :
  filter f (filter f l) = filter f l.
Proof.
  induction l as [|x l IH]; simpl; [reflexivity|].
  destruct (f x) eqn:E; simpl; rewrite ?E, IH; reflexivity.
Qed.

Lemma filter_all {A} (f : A -> bool) (l : list A) :
  (forall x, In x l -> f x = true) -> filter f l = l.
Proof.
  induction l as [|x l IH]; simpl; intros H; [reflexivity|].
  rewrite (H x (or_introl eq_refl)), IH; auto.
Qed.

Lemma update_where_id_absent (rowid : Z) (f : Memory.t -> Memory.t)
    (rows : list Memory.t) :
  ~ In rowid (map Memory.id rows) -> update_where_id rowid f rows = rows.
Proof.
  unfold update_where_id.
  induction rows as [|m rows IH]; simpl; intros H; [reflexivity|].
  destruct (Z.eqb_spec (Memory.id m) rowid) as [E|E]; [tauto|].
  rewrite IH; tauto.
Qed.

End StoreFacts.

(** *** Focus goals *)

Section FocusGoalFacts.
Import Database Invariant.

Lemma active_goals_deactivated (goals : list FocusGoal.t) :
  active_goals (map (set_isActive false) goals) = [].
Proof. induction goals; simpl; auto. Qed.

Lemma activate_deactivated (rowid : Z) (g : FocusGoal.t) :
  activate_row rowid (set_isActive false g) =
  set_isActive (FocusGoal.id g =? rowid) g.
Proof.
  unfold activate_row. simpl. destruct (FocusGoal.id g =? rowid); reflexivity.
Qed.

Lemma active_goals_cons (g : FocusGoal.t) (goals : list FocusGoal.t) :
  active_goals (g :: goals) =
  if FocusGoal.isActive g then g :: active_goals goals
  else active_goals goals.
Proof. reflexivity. Qed.

Lemma active_goals_activate_absent (rowid : Z) (goals : list FocusGoal.t) :
  ~ In rowid (map FocusGoal.id goals) ->
  active_goals (map (activate_row rowid) (map (set_isActive false) goals)) = [].
Proof.
  induction goals as [|g goals IH]; intros H; [reflexivity|].
  cbn [map]. rewrite activate_deactivated, active_goals_cons.
  cbn [map In] in H.
  destruct (Z.eqb_spec (FocusGoal.id g) rowid); [tauto|].
  simpl. apply IH. tauto.
Qed.

Lemma active_goals_activate_present (rowid : Z) (goals : list FocusGoal.t) :
  NoDup (map FocusGoal.id goals) ->
  In rowid (map FocusGoal.id goals) ->
  exists g, In g goals /\ FocusGoal.id g = rowid /\
    active_goals (map (activate_row rowid) (map (set_isActive false) goals))
    = [set_isActive true g].
Proof.
  induction goals as [|g goals IH]; intros ND H; [destruct H|].
  cbn [map In] in *.
  inversion ND as [|? ? Hnotin ND']; subst.
  rewrite activate_deactivated, active_goals_cons.
  destruct (Z.eqb_spec (FocusGoal.id g) rowid) as [E|E].
  - exists g. split; [auto|]. split; [exact E|].
    simpl. f_equal. apply active_goals_activate_absent. congruence.
  - destruct H as [H|H]; [tauto|].
    destruct (IH ND' H) as (g' & Hin & Hid & Hact).
    exists g'. simpl. auto.
Qed.

Lemma setActiveFocusGoal_goals (rowid : option Z) (s : Store) :
  outcome (setActiveFocusGoal rowid) s = Fulfilled tt /\
  focus_goals (store_after (setActiveFocusGoal rowid) s) =
    match rowid with
    | Some i =>
        map (activate_row i) (map (set_isActive false) (focus_goals s))
    | None => map (set_isActive false) (focus_goals s)
    end.
Proof.
  unfold outcome, store_after, setActiveFocusGoal.
  rewrite await_getDatabase.
  destruct (getDatabase_tables s) as (_ & _ & _ & Hg & _).
  destruct rowid; simpl; rewrite Hg; auto.
Qed.

Lemma sort_permutation {A} (before : A -> A -> comparison) (l : list A) :
  Permutation (Stable.sort before l) l.
Proof.
  assert (Hins : forall x l0, Permutation (Stable.insert before x l0) (x :: l0)).
  { intros x l0. induction l0 as [|y l0 IH]; simpl; [auto|].
    destruct (before y x); auto.
    rewrite IH. apply perm_swap. }
  induction l as [|x l IH]; simpl; [auto|].
  rewrite Hins. auto.
Qed.

Lemma filter_permutation {Row} (keep : Row -> bool) (rows rows' : list Row) :
  Permutation rows rows' ->
  Permutation (filter keep rows) (filter keep rows').
Proof.
  intros P. induction P as [|x l l' _ IH|x y l|l l' l'' _ IH1 _ IH2]; simpl.
  - constructor.
  - destruct (keep x); [constructor|]; exact IH.
  - destruct (keep x), (keep y); try reflexivity. apply perm_swap.
  - etransitivity; eassumption.
Qed.

(** Every operation on goals keeps [id] a key. *)
Lemma goal_ids_unique_empty : goal_ids_unique empty.
Proof. constructor. Qed.

Lemma goal_ids_unique_addFocusGoal (now : Z) (name : string) (s : Store) :
  goal_ids_unique s ->
  goal_ids_unique (store_after (addFocusGoal now name) s).
Proof.
  unfold goal_ids_unique, store_after, addFocusGoal.
  rewrite await_getDatabase.
  destruct (getDatabase_tables s) as (_ & _ & _ & Hg & Hq).
  simpl. rewrite Hg, Hq, map_app. simpl. intros ND.
  apply NoDup_rev in ND. rewrite <- (rev_involutive (_ ++ _)).
  apply NoDup_rev. rewrite rev_app_distr. simpl.
  constructor; [|exact ND].
  rewrite <- in_rev. apply next_rowid_fresh.
Qed.

Lemma map_id_set_isActive (b : bool) (goals : list FocusGoal.t) :
  map FocusGoal.id (map (set_isActive b) goals) = map FocusGoal.id goals.
Proof. rewrite map_map. apply map_ext. reflexivity. Qed.

Lemma map_id_activate_row (rowid : Z) (goals : list FocusGoal.t) :
  map FocusGoal.id (map (activate_row rowid) goals) = map FocusGoal.id goals.
Proof.
  rewrite map_map. apply map_ext. intros g. unfold activate_row.
  destruct (FocusGoal.id g =? rowid); reflexivity.
Qed.

Lemma goal_ids_unique_setActiveFocusGoal (rowid : option Z) (s : Store) :
  goal_ids_unique s ->
  goal_ids_unique (store_after (setActiveFocusGoal rowid) s).
Proof.
  unfold goal_ids_unique.
  rewrite (proj2 (setActiveFocusGoal_goals rowid s)).
  destruct rowid as [i|];
    rewrite ?map_id_activate_row, map_id_set_isActive; auto.
Qed.

Lemma unique_keys_after_delete {Row Key} (key : Row -> Key)
    (keep : Row -> bool) (rows : list Row) :
  NoDup (map key rows) -> NoDup (map key (filter keep rows)).
Proof.
  intros ND. induction rows as [|row rows IH]; simpl; [constructor|].
  simpl in ND. apply NoDup_cons_iff in ND. destruct ND as [Hfresh ND].
  destruct (keep row); simpl; [|exact (IH ND)].
  apply NoDup_cons_iff. split; [|exact (IH ND)].
  intros Hin. apply Hfresh. apply in_map_iff in Hin.
  destruct Hin as (other & Hkey & Hin). apply filter_In in Hin.
  apply in_map_iff. exists other. tauto.
Qed.

Lemma filter_filter_length {Row} (p q : Row -> bool) (rows : list Row) :
  (List.length (filter p (filter q rows)) <= List.length (filter p rows))%nat.
Proof.
  induction rows as [|row rows IH]; simpl; [lia|].
  destruct (q row); simpl; destruct (p row); simpl; lia.
Qed.

Lemma goal_ids_unique_deleteFocusGoal (rowid : Z) (s : Store) :
  goal_ids_unique s ->
  goal_ids_unique (store_after (deleteFocusGoal rowid) s).
Proof.
  unfold goal_ids_unique, store_after, deleteFocusGoal.
  rewrite await_getDatabase.
  destruct (getDatabase_tables s) as (_ & _ & _ & Hg & _).
  simpl. rewrite Hg. apply unique_keys_after_delete.
Qed.

End FocusGoalFacts.

Section FocusGoalClaims.
Import Database Invariant.

(** C2.  At most one focus goal is active at any time.  In a store whose
    goal ids are a key, [addFocusGoal] and [deleteFocusGoal] keep the
    invariant "at most one goal has isActive = true",
    [setActiveFocusGoal] establishes it whatever the argument, also in the
    state between its two statements, and for an id that is present,
    [setActiveFocusGoal(id)] followed by [getFocusGoals()] yields exactly
    one active goal, the one with that id. *)
Theorem single_active_goal (s : Store) :
  goal_ids_unique s ->
  (forall now name,
      single_active (focus_goals s) ->
      single_active (focus_goals (store_after (addFocusGoal now name) s)))
  /\ single_active
       (focus_goals (store_after (_ <- getDatabase ;; deactivate_all) s))
  /\ (forall rowid,
      single_active (focus_goals (store_after (setActiveFocusGoal rowid) s)))
  /\ (forall rowid,
      single_active (focus_goals s) ->
      single_active (focus_goals (store_after (deleteFocusGoal rowid) s)))
  /\ (forall rowid,
      In rowid (map FocusGoal.id (focus_goals s)) ->
      exists goals g,
        outcome (_ <- setActiveFocusGoal (Some rowid) ;; getFocusGoals) s
          = Fulfilled goals
        /\ active_goals goals = [g]
        /\ FocusGoal.id g = rowid
        /\ FocusGoal.isActive g = true).
Proof.
  intros ND. repeat split.
  - (* addFocusGoal *)
    intros now name H.
    unfold store_after, addFocusGoal. rewrite await_getDatabase.
    destruct (getDatabase_tables s) as (_ & _ & _ & Hg & _).
    simpl. rewrite Hg. unfold single_active, active_goals in *.
    rewrite filter_app. simpl. rewrite app_nil_r. exact H.
  - (* between the two statements of setActiveFocusGoal *)
    unfold store_after. rewrite await_getDatabase.
    destruct (getDatabase_tables s) as (_ & _ & _ & Hg & _).
    simpl. rewrite Hg. unfold single_active.
    rewrite active_goals_deactivated. simpl. lia.
  - (* setActiveFocusGoal *)
    intros rowid. rewrite (proj2 (setActiveFocusGoal_goals rowid s)).
    unfold single_active. destruct rowid as [i|].
    + destruct (in_dec Z.eq_dec i (map FocusGoal.id (focus_goals s)))
        as [Hin|Hout].
      * destruct (active_goals_activate_present i _ ND Hin)
          as (g & _ & _ & E).
        rewrite E. simpl. lia.
      * rewrite active_goals_activate_absent by exact Hout. simpl. lia.
    + rewrite active_goals_deactivated. simpl. lia.
  - (* deleteFocusGoal *)
    intros rowid H.
    unfold store_after, deleteFocusGoal. rewrite await_getDatabase.
    destruct (getDatabase_tables s) as (_ & _ & _ & Hg & _).
    simpl. rewrite Hg. unfold single_active, active_goals in *.
    pose proof (filter_filter_length FocusGoal.isActive
                  (fun g => negb (FocusGoal.id g =? rowid)) (focus_goals s)).
    lia.
  - (* setActiveFocusGoal then getFocusGoals *)
    intros rowid Hin.
    destruct (active_goals_activate_present rowid _ ND Hin)
      as (g & _ & Hid & E).
    pose proof (setActiveFocusGoal_goals (Some rowid) s) as [Ho Hs].
    set (s1 := store_after (setActiveFocusGoal (Some rowid)) s) in *.
    exists (order_by_desc String.compare FocusGoal.createdAt (focus_goals s1)).
    exists (set_isActive true g).
    split; [|split; [|split; [exact Hid|reflexivity]]].
    + unfold outcome, await in *. unfold store_after in s1.
      destruct (setActiveFocusGoal (Some rowid) s) as [r s'] eqn:Es.
      simpl in Ho, s1. subst r. subst s1.
      unfold getFocusGoals. rewrite await_getDatabase.
      destruct (getDatabase_tables s') as (_ & _ & _ & Hg & _).
      unfold query. simpl. rewrite Hg. reflexivity.
    + apply Permutation_length_1_inv. symmetry.
      unfold active_goals in *. rewrite <- E, <- Hs.
      apply filter_permutation. apply sort_permutation.
Qed.

Lemma single_active_goal_witness :
  exists goals g,
    outcome (_ <- setActiveFocusGoal (Some 2) ;; getFocusGoals)
            Sample.two_goals = Fulfilled goals
    /\ active_goals goals = [g]
    /\ FocusGoal.id g = 2
    /\ FocusGoal.isActive g = true.
Proof.
  refine (proj2 (proj2 (proj2 (proj2
            (single_active_goal Sample.two_goals _)))) 2 _).
  - unfold goal_ids_unique. vm_compute map.
    constructor; [simpl; intros [H|[]]; discriminate H|].
    constructor; [simpl; intros []|constructor].
  - vm_compute. right. left. reflexivity.
Defined.

End FocusGoalClaims.

(** *** Memories *)

Section MemoryClaims.
Import Database.

Lemma addMemory_eq (memory : NewMemory.t) (s : Store) :
  let rowid := next_rowid (memories_seq s) (map Memory.id (memories s)) in
  outcome (addMemory memory) s = Fulfilled rowid
  /\ memories (store_after (addMemory memory) s)
     = memories s ++ [new_row rowid memory].
Proof.
  unfold outcome, store_after, addMemory. rewrite await_getDatabase.
  destruct (getDatabase_tables s) as (_ & Hm & Hq & _).
  simpl. rewrite Hm, Hq. auto.
Qed.

(** C1, refuted as stated: a text note with empty content and no media
    reference is not rejected; it is inserted and its id returned. *)
Lemma addMemory_accepts_empty_content :
  let blank := Sample.note "" (JSDate.toISOString Sample.jan1_0800) None in
  NewMemory.content blank = ""
  /\ NewMemory.audioUri blank = None
  /\ NewMemory.imageUri blank = None
  /\ NewMemory.linkUrl blank = None
  /\ outcome (addMemory blank) empty = Fulfilled 1
  /\ outcome (addMemory blank) empty <> Rejected ValidationError
  /\ map Memory.content (memories (store_after (addMemory blank) empty))
     = [""].
Proof.
  cbv zeta. repeat split; try reflexivity. discriminate.
Qed.

(** C1, as the code has it.  [addMemory] validates nothing: for every
    input it appends exactly one row, whose id is fresh, whose
    [viewCount] is 0 and whose content, type and timestamp are the
    submitted ones, and returns that id.  The check for empty input is
    made by the screen: [handleSave] on text that is empty once trimmed
    raises the "Empty Note" alert, does not call [addMemory] and leaves
    the store as it was. *)
Theorem addMemory_inserts_unconditionally :
  (forall (memory : NewMemory.t) (s : Store),
      exists rowid row,
        outcome (addMemory memory) s = Fulfilled rowid
        /\ ~ In rowid (map Memory.id (memories s))
        /\ memories (store_after (addMemory memory) s) = memories s ++ [row]
        /\ Memory.id row = rowid
        /\ Memory.viewCount row = 0
        /\ Memory.lastViewedAt row = None
        /\ Memory.content row = NewMemory.content memory
        /\ Memory.contentType row = NewMemory.contentType memory
        /\ Memory.createdAt row = NewMemory.createdAt memory)
  /\ (forall (now : Z) (text : string) (location : option (REAL * REAL))
             (s : Store),
      JSString.trim text = "" ->
      TextInputScreen.handleSave now text location s
      = (TextInputScreen.Alert "Empty Note"
           "Please write something before saving.", s)).
Proof.
  split.
  - intros memory s.
    destruct (addMemory_eq memory s) as [Ho Hs].
    eexists. eexists. split; [exact Ho|].
    split; [apply next_rowid_fresh|].
    split; [exact Hs|]. repeat split.
  - intros now text location s E.
    unfold TextInputScreen.handleSave. rewrite E. reflexivity.
Qed.

Lemma addMemory_inserts_unconditionally_witness :
  TextInputScreen.handleSave Sample.jan1_0800 "   " None Sample.buy_milk
  = (TextInputScreen.Alert "Empty Note"
       "Please write something before saving.", Sample.buy_milk).
Proof.
  apply (proj2 addMemory_inserts_unconditionally). reflexivity.
Defined.

(** C7, refuted as stated: updating an id that no row carries fulfils;
    no NotFoundError is raised. *)
Lemma updateMemory_absent_id_fulfils :
  ~ In 7 (map Memory.id (memories Sample.buy_milk))
  /\ outcome (updateMemory 7 [E_content "Buy oat milk"]) Sample.buy_milk
     = Fulfilled tt
  /\ outcome (updateMemory 7 [E_content "Buy oat milk"]) Sample.buy_milk
     <> Rejected NotFoundError.
Proof.
  split; [|split].
  - vm_compute. intros [H|[]]. discriminate H.
  - reflexivity.
  - discriminate.
Qed.

(** C7, as the code has it.  [updateMemory] does nothing beyond opening
    the database when the update has no entries, or only an [id] entry;
    on an open database the store is unchanged.  When no row has the
    given id it fulfils as well, without an error, and the table is
    unchanged. *)
Theorem updateMemory_noop (rowid : Z) (s : Store) :
  updateMemory rowid [] s = getDatabase s
  /\ (db s = true -> updateMemory rowid [] s = (Fulfilled tt, s))
  /\ (forall updates,
      filter (fun e => negb (is_id_entry e)) updates = [] ->
      updateMemory rowid updates s = getDatabase s)
  /\ (forall updates,
      ~ In rowid (map Memory.id (memories s)) ->
      outcome (updateMemory rowid updates) s = Fulfilled tt
      /\ memories (store_after (updateMemory rowid updates) s) = memories s).
Proof.
  assert (Hnone : forall updates,
             filter (fun e => negb (is_id_entry e)) updates = [] ->
             updateMemory rowid updates s = getDatabase s).
  { intros updates E. unfold updateMemory. rewrite await_getDatabase, E.
    simpl. symmetry. apply getDatabase_eta. }
  split; [apply Hnone; reflexivity|].
  split; [intros E; rewrite Hnone by reflexivity;
          apply getDatabase_open; exact E|].
  split; [exact Hnone|].
  intros updates Hout.
  unfold outcome, store_after, updateMemory. rewrite await_getDatabase.
  destruct (getDatabase_tables s) as (_ & Hm & _).
  destruct (0 <? List.length _)%nat; simpl; [|auto].
  rewrite Hm. split; [reflexivity|].
  apply update_where_id_absent. exact Hout.
Qed.

Lemma updateMemory_noop_witness :
  outcome (updateMemory 7 [E_content "Buy oat milk"]) Sample.buy_milk
  = Fulfilled tt
  /\ memories (store_after (updateMemory 7 [E_content "Buy oat milk"])
                           Sample.buy_milk)
     = memories Sample.buy_milk.
Proof.
  apply (proj2 (proj2 (proj2 (updateMemory_noop 7 Sample.buy_milk)))).
  vm_compute. intros [H|[]]. discriminate H.
Defined.

(** C8.  [deleteMemory] is idempotent: it always fulfils, a second call
    with the same id fulfils too and returns the store the first call
    left, and deleting an id that no row carries leaves the table as it
    was. *)
Theorem deleteMemory_idempotent (rowid : Z) (s : Store) :
  let s1 := store_after (deleteMemory rowid) s in
  outcome (deleteMemory rowid) s = Fulfilled tt
  /\ deleteMemory rowid s1 = (Fulfilled tt, s1)
  /\ ~ In rowid (map Memory.id (memories s1))
  /\ (~ In rowid (map Memory.id (memories s)) ->
      memories s1 = memories s).
Proof.
  cbv zeta. unfold outcome, store_after.
  assert (E : deleteMemory rowid s =
              (Fulfilled tt,
               set_memories (filter (fun m => negb (Memory.id m =? rowid)))
                 (memories_seq (store_after getDatabase s))
                 (store_after getDatabase s))).
  { unfold deleteMemory. rewrite await_getDatabase. reflexivity. }
  rewrite E. cbn [fst snd].
  destruct (getDatabase_tables s) as (Hdb & Hm & Hq & _).
  set (s0 := store_after getDatabase s) in *.
  split; [reflexivity|]. split; [|split].
  - unfold deleteMemory, await.
    rewrite getDatabase_open by exact Hdb.
    unfold exec, set_memories. simpl.
    rewrite filter_idempotent. reflexivity.
  - simpl. intros Hin. apply in_map_iff in Hin.
    destruct Hin as (m & Hid & Hin). apply filter_In in Hin.
    destruct Hin as [_ Hne]. rewrite Hid, Z.eqb_refl in Hne. discriminate.
  - intros Hout. simpl. rewrite Hm. apply filter_all.
    intros m Hin. destruct (Z.eqb_spec (Memory.id m) rowid) as [Eid|]; auto.
    exfalso. apply Hout. apply in_map_iff. exists m. auto.
Qed.

Lemma deleteMemory_idempotent_witness :
  memories (store_after (deleteMemory 7) Sample.buy_milk)
  = memories Sample.buy_milk.
Proof.
  apply (proj2 (proj2 (proj2 (deleteMemory_idempotent 7 Sample.buy_milk)))).
  vm_compute. intros [H|[]]. discriminate H.
Defined.

End MemoryClaims.

(** ** Strings *)

Section StringFacts.
Import JSString Spec.

Lemma startsWith_spec (s k : string) :
  startsWith s k = true <-> exists post, s = (k ++ post)%string.
Proof.
  revert s. induction k as [|a k IH]; intros s; simpl.
  - split; [intros _; exists s; reflexivity|reflexivity].
  - destruct s as [|b s]; simpl.
    + split; [discriminate|intros [post H]; discriminate H].
    + rewrite andb_true_iff, IH. split.
      * intros [E [post ->]]. apply Ascii.eqb_eq in E. subst b.
        exists post. reflexivity.
      * intros [post H]. injection H as -> ->.
        split; [apply Ascii.eqb_refl|exists post; reflexivity].
Qed.

Lemma includes_spec (s k : string) :
  includes s k = true <-> substring_of k s.
Proof.
  unfold substring_of. induction s as [|b s IH]; simpl.
  - rewrite orb_false_r, startsWith_spec. split.
    + intros [post H]. exists "", post. exact H.
    + intros (pre & post & H). destruct pre; simpl in H; [|discriminate H].
      exists post. exact H.
  - rewrite orb_true_iff, IH, startsWith_spec. split.
    + intros [[post H]|(pre & post & H)].
      * exists "", post. exact H.
      * exists (String b pre), post. simpl. rewrite H. reflexivity.
    + intros (pre & post & H). destruct pre as [|c pre]; simpl in H.
      * left. exists post. exact H.
      * right. injection H as _ H. exists pre, post. exact H.
Qed.

Lemma includes_empty (s : string) : includes s "" = true.
Proof. destruct s; reflexivity. Qed.

Lemma lower_char_white_space (c : ascii) :
  is_white_space (lower_char c) = is_white_space c.
Proof. destruct c as [[] [] [] [] [] [] [] []]; reflexivity. Qed.

Lemma all_chars_toLowerCase (s : string) :
  all_chars is_white_space (toLowerCase s) = all_chars is_white_space s
  /\ all_chars (fun c => negb (is_white_space c)) (toLowerCase s)
     = all_chars (fun c => negb (is_white_space c)) s.
Proof.
  induction s as [|c s [IH1 IH2]]; simpl; [auto|].
  rewrite lower_char_white_space, IH1, IH2. auto.
Qed.

(** Splitting a blank string yields empty keywords only. *)
Lemma split_spaces_from_blank (b : bool) (s : string) :
  blank s ->
  exists n, split_spaces_from b s = "" :: repeat "" n.
Proof.
  unfold blank. revert b. induction s as [|c s IH]; simpl; intros b H.
  - exists 0%nat. reflexivity.
  - apply andb_true_iff in H. destruct H as [Hc Hs]. rewrite Hc.
    destruct (IH true Hs) as [n E]. rewrite E.
    destruct b; [exists n|exists (S n)]; reflexivity.
Qed.

(** Splitting a string without whitespace yields the string itself. *)
Lemma split_spaces_unspaced (s : string) :
  unspaced s -> split_spaces s = [s].
Proof.
  unfold unspaced, split_spaces. induction s as [|c s IH]; simpl; intros H.
  - reflexivity.
  - apply andb_true_iff in H. destruct H as [Hc Hs].
    apply negb_true_iff in Hc. rewrite Hc, (IH Hs). reflexivity.
Qed.

(** There is at least one keyword, and every keyword is free of
    whitespace. *)
Lemma split_spaces_from_keywords (b : bool) (s : string) :
  split_spaces_from b s <> []
  /\ Forall unspaced (split_spaces_from b s).
Proof.
  revert b. induction s as [|c s IH]; intros b; simpl.
  - split; [discriminate|]. constructor; [reflexivity|constructor].
  - destruct (is_white_space c) eqn:Ec.
    + destruct b.
      * apply IH.
      * split; [discriminate|].
        constructor; [reflexivity|apply IH].
    + destruct (IH false) as [Hne Hall].
      destruct (split_spaces_from false s) as [|w ws]; [tauto|].
      split; [discriminate|].
      inversion Hall; subst. constructor; [|assumption].
      unfold unspaced in *. simpl. rewrite Ec. simpl. assumption.
Qed.

(** [split(/\s+/)] cuts the string at its runs of whitespace: the keywords,
    laid out with those runs between them, give the string back. *)
Lemma split_spaces_from_weave (b : bool) (s : string) :
  exists lead seps,
    blank lead /\ (b = false -> lead = "")
    /\ Forall separator seps
    /\ S (List.length seps) = List.length (split_spaces_from b s)
    /\ s = (lead ++ weave (split_spaces_from b s) seps)%string.
Proof.
  revert b. induction s as [|c s IH]; intros b.
  - exists "", []. simpl. repeat split; auto.
  - simpl. destruct (is_white_space c) eqn:Ec.
    + destruct (IH true) as (lead & seps & Hl & _ & Hs & Hn & E).
      destruct b.
      * exists (String c lead), seps. simpl.
        unfold blank in *. simpl. rewrite Ec, Hl.
        repeat split; auto; [discriminate|]. rewrite <- E. reflexivity.
      * exists "", (String c lead :: seps). simpl.
        split; [reflexivity|]. split; [reflexivity|].
        split; [constructor; [|exact Hs]|].
        { split; [discriminate|]. unfold blank in *. simpl.
          rewrite Ec, Hl. reflexivity. }
        split; [rewrite Hn; reflexivity|].
        destruct (split_spaces_from true s) as [|w ws] eqn:Ew;
          [discriminate Hn|].
        rewrite E at 1. reflexivity.
    + destruct (IH false) as (lead & seps & _ & Hlead & Hs & Hn & E).
      rewrite (Hlead eq_refl) in E. simpl in E.
      destruct (split_spaces_from false s) as [|w ws] eqn:Ew;
        [discriminate Hn|].
      exists "", seps. simpl.
      split; [reflexivity|]. split; [reflexivity|].
      split; [exact Hs|]. split; [exact Hn|].
      rewrite E at 1. destruct seps; reflexivity.
Qed.

Lemma split_spaces_weave (s : string) :
  exists seps,
    Forall separator seps
    /\ S (List.length seps) = List.length (split_spaces s)
    /\ weave (split_spaces s) seps = s.
Proof.
  destruct (split_spaces_from_weave false s)
    as (lead & seps & _ & Hlead & Hs & Hn & E).
  rewrite (Hlead eq_refl) in E. exists seps. auto.
Qed.

End StringFacts.

(** ** Focus filtering *)

Section FocusFilterClaims.
Import Database JSString Spec.

Lemma filterMemories_eq (goalName : string) (s : Store) :
  outcome (FocusModeScreen.filterMemories goalName) s =
  Fulfilled
    (filter (FocusModeScreen.matches
               (split_spaces (toLowerCase goalName)))
            (by_createdAt_desc (memories s))).
Proof.
  unfold outcome, FocusModeScreen.filterMemories, getAllMemories, await.
  rewrite getDatabase_eta.
  destruct (getDatabase_tables s) as (_ & Hm & _).
  unfold query, resolve. simpl. rewrite Hm. reflexivity.
Qed.

Lemma getAllMemories_eq (s : Store) :
  outcome getAllMemories s = Fulfilled (by_createdAt_desc (memories s)).
Proof.
  unfold outcome, getAllMemories. rewrite await_getDatabase.
  destruct (getDatabase_tables s) as (_ & Hm & _).
  unfold query. simpl. rewrite Hm. reflexivity.
Qed.

Lemma matches_spec (keywords : list string) (m : Memory.t) :
  FocusModeScreen.matches keywords m = true <->
  exists k, In k keywords
    /\ (substring_of k (toLowerCase (Memory.content m))
        \/ substring_of k (toLowerCase (tags_text m))).
Proof.
  unfold FocusModeScreen.matches. rewrite existsb_exists.
  assert (Et : match Memory.focusTags m with
               | Some t => toLowerCase t
               | None => ""
               end = toLowerCase (tags_text m)).
  { unfold tags_text. destruct (Memory.focusTags m); reflexivity. }
  rewrite Et.
  split; intros (k & Hin & H); exists k; (split; [exact Hin|]).
  - apply orb_true_iff in H. rewrite !includes_spec in H. exact H.
  - apply orb_true_iff. rewrite !includes_spec. exact H.
Qed.

(** C5.  Focus filtering keeps a record iff some keyword of the
    lower-cased goal name, split on whitespace, occurs as a substring of
    the lower-cased [content] or of the lower-cased [focusTags]; the kept
    records stay in the store's order; the result depends on the goal
    name only through its lower-cased form.  In particular the goal
    "work travel" keeps a record tagged "travel-plans" and drops one that
    only says "personal". *)
Theorem focus_filter_spec :
  (forall (goalName : string) (s : Store),
      exists all kept,
        outcome getAllMemories s = Fulfilled all
        /\ outcome (FocusModeScreen.filterMemories goalName) s
           = Fulfilled kept
        /\ (exists keep, kept = filter keep all)
        /\ (forall m,
            In m kept <->
            In m all
            /\ exists k,
                In k (split_spaces (toLowerCase goalName))
                /\ (substring_of k (toLowerCase (Memory.content m))
                    \/ substring_of k (toLowerCase (tags_text m))))
        /\ (forall goalName',
            toLowerCase goalName' = toLowerCase goalName ->
            outcome (FocusModeScreen.filterMemories goalName') s
            = Fulfilled kept))
  /\ (let s := Sample.store_of
                 [Sample.note "Book flights"
                    (JSDate.toISOString Sample.jan1_0800)
                    (Some "travel-plans");
                  Sample.note "personal"
                    (JSDate.toISOString (Sample.jan1_0800 + 60000))
                    (Some "personal")] in
      exists kept,
        outcome (FocusModeScreen.filterMemories "work travel") s
        = Fulfilled kept
        /\ map Memory.content kept = ["Book flights"]).
Proof.
  split.
  - intros goalName s.
    eexists. eexists.
    split; [apply getAllMemories_eq|].
    split; [apply filterMemories_eq|].
    split; [|split].
    + eexists. reflexivity.
    + intros m. rewrite filter_In, matches_spec. reflexivity.
    + intros goalName' E. rewrite filterMemories_eq, E. reflexivity.
  - cbv zeta. eexists. split; [apply filterMemories_eq|]. reflexivity.
Qed.

End FocusFilterClaims.

Section BlankGoal.
Import Database JSString Spec.

(** C10.  A goal name that is empty or consists only of whitespace
    matches every record: the empty string is among the keywords its
    split yields, the empty string is a substring of every text, and
    focus filtering returns all the store's records. *)
Theorem blank_goal_matches_all (goalName : string) (s : Store) :
  blank goalName ->
  In "" (split_spaces (toLowerCase goalName))
  /\ (forall text, includes text "" = true /\ substring_of "" text)
  /\ outcome (FocusModeScreen.filterMemories goalName) s
     = outcome getAllMemories s.
Proof.
  intros Hb.
  assert (Hb' : blank (toLowerCase goalName)).
  { unfold blank. rewrite (proj1 (all_chars_toLowerCase goalName)). exact Hb. }
  destruct (split_spaces_from_blank false _ Hb') as [n E].
  split; [unfold split_spaces; rewrite E; left; reflexivity|].
  split.
  - intros text. split; [apply includes_empty|].
    apply includes_spec, includes_empty.
  - rewrite filterMemories_eq, getAllMemories_eq. f_equal.
    apply filter_all. intros m _.
    unfold split_spaces. rewrite E.
    unfold FocusModeScreen.matches. cbn [existsb].
    rewrite includes_empty. reflexivity.
Qed.

Lemma blank_goal_matches_all_witness :
  outcome (FocusModeScreen.filterMemories "   ") Sample.four_notes
  = outcome getAllMemories Sample.four_notes.
Proof.
  apply (proj2 (proj2 (blank_goal_matches_all "   " Sample.four_notes
                         eq_refl))).
Defined.

Lemma focus_filter_spec_witness :
  outcome (FocusModeScreen.filterMemories "Work TRAVEL") Sample.four_notes
  = outcome (FocusModeScreen.filterMemories "work travel") Sample.four_notes.
Proof.
  destruct (proj1 focus_filter_spec "work travel" Sample.four_notes)
    as (all & kept & _ & Hk & _ & _ & Hcase).
  rewrite Hk. apply Hcase. reflexivity.
Defined.

End BlankGoal.

(** ** The two stores compared *)

Section TwoStores.
Import Database JSString Spec.

Lemma toLowerCase_app (a b : string) :
  toLowerCase (a ++ b) = (toLowerCase a ++ toLowerCase b)%string.
Proof. induction a as [|c a IH]; simpl; [reflexivity|]. rewrite IH. reflexivity. Qed.

Lemma toLowerCase_join_space (l : list string) :
  toLowerCase (join " " l) = join " " (map toLowerCase l).
Proof.
  induction l as [|x l IH]; [reflexivity|].
  destruct l as [|y l]; [reflexivity|].
  change (join " " (x :: y :: l)) with (x ++ " " ++ join " " (y :: l))%string.
  change (join " " (map toLowerCase (x :: y :: l)))
    with (toLowerCase x ++ " " ++ join " " (map toLowerCase (y :: l)))%string.
  rewrite !toLowerCase_app, IH. reflexivity.
Qed.

(** A keyword free of [sep] cannot straddle a separator. *)
Lemma startsWith_app_sep (sep : ascii) (k a b : string) :
  all_chars (fun c => negb (Ascii.eqb c sep)) k = true ->
  startsWith (a ++ String sep b) k = startsWith a k.
Proof.
  revert a. induction k as [|c k IH]; intros a H; [reflexivity|].
  simpl in H. apply andb_true_iff in H. destruct H as [Hc Hk].
  destruct a as [|x a]; simpl.
  - apply negb_true_iff in Hc. rewrite Hc. reflexivity.
  - rewrite (IH a Hk). reflexivity.
Qed.

Lemma includes_app_sep (sep : ascii) (k a b : string) :
  k <> "" ->
  all_chars (fun c => negb (Ascii.eqb c sep)) k = true ->
  includes (a ++ String sep b) k = includes a k || includes b k.
Proof.
  intros Hne H. induction a as [|x a IH].
  - destruct k as [|c k]; [congruence|].
    simpl in H. apply andb_true_iff in H. destruct H as [Hc _].
    apply negb_true_iff in Hc. simpl. rewrite Hc. reflexivity.
  - change ((String x a ++ String sep b)%string)
      with (String x (a ++ String sep b)).
    cbn [includes]. rewrite IH.
    change (String x (a ++ String sep b))
      with ((String x a ++ String sep b)%string).
    rewrite (startsWith_app_sep sep k (String x a) b H).
    rewrite orb_assoc. reflexivity.
Qed.

Lemma includes_join (sep : ascii) (k : string) (l : list string) :
  k <> "" ->
  all_chars (fun c => negb (Ascii.eqb c sep)) k = true ->
  includes (join (String sep "") l) k = existsb (fun t => includes t k) l.
Proof.
  intros Hne H. induction l as [|x l IH].
  - destruct k; [congruence|reflexivity].
  - destruct l as [|y l].
    + simpl. rewrite orb_false_r. reflexivity.
    + change (join (String sep "") (x :: y :: l))
        with (x ++ String sep (join (String sep "") (y :: l)))%string.
      rewrite includes_app_sep, IH by assumption. reflexivity.
Qed.

Lemma unspaced_no_space (k : string) :
  unspaced k -> all_chars (fun c => negb (Ascii.eqb c " ")) k = true.
Proof.
  unfold unspaced. induction k as [|c k IH]; simpl; [reflexivity|].
  intros H. apply andb_true_iff in H. destruct H as [Hc Hk].
  rewrite (IH Hk), andb_true_r.
  destruct (Ascii.eqb_spec c " ") as [->|]; [discriminate Hc|reflexivity].
Qed.

Lemma toLowerCase_nonempty (s : string) : s <> "" -> toLowerCase s <> "".
Proof. destruct s; [congruence|discriminate]. Qed.

Lemma Forall2_filter {A B} (R : A -> B -> Prop) (p : A -> bool)
    (q : B -> bool) (l : list A) (l' : list B) :
  (forall a b, R a b -> p a = q b) ->
  Forall2 R l l' -> Forall2 R (filter p l) (filter q l').
Proof.
  intros Hpq. induction 1 as [|a b l l' Hab _ IH]; simpl; [constructor|].
  rewrite (Hpq a b Hab). destruct (q b); [constructor|]; assumption.
Qed.

Lemma existsb_mapped {A B} (f : A -> B) (p : B -> bool) (l : list A) :
  existsb p (map f l) = existsb (fun x => p (f x)) l.
Proof. induction l as [|x l IH]; simpl; [reflexivity|]. rewrite IH. reflexivity. Qed.

Lemma four_records_correspond :
  Forall2 corresponds (by_createdAt_desc (memories Sample.four_notes))
          (MemoryStore.sortedItems Sample.four_items).
Proof. vm_compute. repeat constructor. Qed.

(** On one-word goals the two matching rules agree on corresponding
    records. *)
Lemma matching_rules_agree (goal : string) (m : Memory.t)
    (item : MemoryStore.MemoryItem) :
  goal <> "" -> unspaced goal -> corresponds m item ->
  FocusModeScreen.matches (split_spaces (toLowerCase goal)) m
  = (includes (toLowerCase (MemoryStore.title item)) (toLowerCase goal)
     || match MemoryStore.tags item with
        | Some ts =>
            existsb (fun tag => includes (toLowerCase tag) (toLowerCase goal))
                    ts
        | None => false
        end).
Proof.
  intros Hne Hu (Hc & _ & Ht).
  assert (Hu' : unspaced (toLowerCase goal)).
  { unfold unspaced. rewrite (proj2 (all_chars_toLowerCase goal)). exact Hu. }
  rewrite (split_spaces_unspaced _ Hu').
  unfold FocusModeScreen.matches. cbn [existsb]. rewrite orb_false_r.
  rewrite Hc, Ht. f_equal.
  destruct (MemoryStore.tags item) as [ts|]; simpl.
  - rewrite toLowerCase_join_space.
    rewrite (includes_join " " (toLowerCase goal));
      [|apply toLowerCase_nonempty; exact Hne
       |apply unspaced_no_space; exact Hu'].
    rewrite existsb_mapped. reflexivity.
  - destruct (toLowerCase goal) eqn:E; [|reflexivity].
    exfalso. revert E. apply toLowerCase_nonempty. exact Hne.
Qed.

(** C9, refuted as stated: on the same four records, held by both
    stores, the goal "work travel" selects the tagged record in the
    relational store and nothing in the file store; and at 13:00 the
    relational store suggests all four records, the file store three. *)
Lemma stores_select_different_records :
  let at_1300 := Sample.jan1_0800 + Sample.hours 5 in
  Forall2 corresponds (by_createdAt_desc (memories Sample.four_notes))
          (MemoryStore.sortedItems Sample.four_items)
  /\ (exists kept,
        outcome (FocusModeScreen.filterMemories "work travel")
                Sample.four_notes = Fulfilled kept
        /\ map Memory.content kept = ["Book flights"])
  /\ HomeScreen.filteredItems (Some "work travel")
       (MemoryStore.sortedItems Sample.four_items) = []
  /\ (exists suggested goals,
        outcome (DiscoverScreen.loadData 0 0 at_1300) Sample.four_notes
        = Fulfilled (suggested, goals)
        /\ List.length suggested = 4%nat)
  /\ List.length
       (MemoryStore.getSmartSuggestions 0 at_1300
          (MemoryStore.sortedItems Sample.four_items)) = 3%nat.
Proof.
  cbv zeta. split; [|split; [|split; [|split]]].
  - exact four_records_correspond.
  - eexists. split; [apply filterMemories_eq|]. reflexivity.
  - reflexivity.
  - eexists. eexists. split; [vm_compute; reflexivity|]. reflexivity.
  - reflexivity.
Qed.

(** C9, as the code has it.  The two stores apply different selection
    rules.  Their focus filters select corresponding records whenever the
    goal name contains no whitespace: the file store matches the whole
    lower-cased goal against the title and each tag, the relational store
    matches each keyword against the content and the tag text, and with a
    single keyword (or none, for the empty goal, when both keep
    everything) the two coincide on records that correspond. *)
Theorem focus_filters_agree_on_single_words
    (goal : string) (s : Store) (state : MemoryStore.MemoryState) :
  unspaced goal ->
  Forall2 corresponds (by_createdAt_desc (memories s))
          (MemoryStore.sortedItems state) ->
  exists kept,
    outcome (FocusModeScreen.filterMemories goal) s = Fulfilled kept
    /\ Forall2 corresponds kept
         (HomeScreen.filteredItems (Some goal)
            (MemoryStore.sortedItems state)).
Proof.
  intros Hu Hall. eexists. split; [apply filterMemories_eq|].
  unfold HomeScreen.filteredItems.
  destruct goal as [|c goal].
  - cbn [truthy negb].
    change (split_spaces (toLowerCase "")) with [""].
    rewrite filter_all; [exact Hall|].
    intros m _. unfold FocusModeScreen.matches. cbn [existsb].
    rewrite includes_empty. reflexivity.
  - cbn [truthy negb].
    apply Forall2_filter; [|exact Hall].
    intros m item Hc. apply matching_rules_agree; [discriminate|exact Hu|exact Hc].
Qed.

Lemma focus_filters_agree_on_single_words_witness :
  exists kept,
    outcome (FocusModeScreen.filterMemories "Travel") Sample.four_notes
    = Fulfilled kept
    /\ Forall2 corresponds kept
         (HomeScreen.filteredItems (Some "Travel")
            (MemoryStore.sortedItems Sample.four_items)).
Proof.
  apply (focus_filters_agree_on_single_words "Travel").
  - reflexivity.
  - exact four_records_correspond.
Defined.

End TwoStores.

(** ** Dates *)

Section DateFacts.
Import JSDate Spec.

(** The calendar date of a day number determines the day number. *)
Lemma civil_from_days_inverse (z : Z) :
  let '(y, m, d) := civil_from_days z in
  days_from_civil y m d = z /\ 1 <= m <= 12 /\ 1 <= d <= 31.
Proof.
  unfold civil_from_days, days_from_civil.
  set (z' := z + 719468).
  set (era := z' / 146097).
  set (doe := z' mod 146097).
  set (yoe := (doe - doe / 1460 + doe / 36524 - doe / 146096) / 365).
  set (doy := doe - (365 * yoe + yoe / 4 - yoe / 100)).
  set (mp := (5 * doy + 2) / 153).
  assert (Hdoe : 0 <= doe < 146097) by (apply Z.mod_pos_bound; lia).
  assert (Hz : z' = 146097 * era + doe) by (apply Z.div_mod; lia).
  assert (Hyoe : 0 <= yoe <= 399 /\ 0 <= doy <= 365).
  { subst doy yoe. Z.div_mod_to_equations. lia. }
  assert (Hmp : 0 <= mp <= 11) by (subst mp; Z.div_mod_to_equations; lia).
  assert (Hd : 1 <= doy - (153 * mp + 2) / 5 + 1 <= 31).
  { subst mp. Z.div_mod_to_equations. lia. }
  destruct (Z.ltb_spec mp 10) as [Hlt|Hge].
  - replace (mp + 3 <=? 2) with false by (symmetry; apply Z.leb_gt; lia).
    replace (2 <? mp + 3) with true by (symmetry; apply Z.ltb_lt; lia).
    replace (mp + 3 - 3) with mp by lia.
    split; [|lia].
    replace ((yoe + era * 400) / 400) with era by (Z.div_mod_to_equations; lia).
    replace ((yoe + era * 400) mod 400) with yoe by (Z.div_mod_to_equations; lia).
    subst doy. lia.
  - replace (mp - 9 <=? 2) with true by (symmetry; apply Z.leb_le; lia).
    replace (2 <? mp - 9) with false by (symmetry; apply Z.ltb_ge; lia).
    replace (mp - 9 + 9) with mp by lia.
    replace (yoe + era * 400 + 1 - 1) with (yoe + era * 400) by lia.
    split; [|lia].
    replace ((yoe + era * 400) / 400) with era by (Z.div_mod_to_equations; lia).
    replace ((yoe + era * 400) mod 400) with yoe by (Z.div_mod_to_equations; lia).
    subst doy. lia.
Qed.

Lemma civil_from_days_year (z : Z) :
  -719468 <= z <= 2932896 ->
  let '(y, _, _) := civil_from_days z in 0 <= y <= 9999.
Proof.
  intros H. unfold civil_from_days.
  set (z' := z + 719468).
  set (era := z' / 146097).
  set (doe := z' mod 146097).
  set (yoe := (doe - doe / 1460 + doe / 36524 - doe / 146096) / 365).
  set (doy := doe - (365 * yoe + yoe / 4 - yoe / 100)).
  set (mp := (5 * doy + 2) / 153).
  assert (Hdoe : 0 <= doe < 146097) by (apply Z.mod_pos_bound; lia).
  assert (Hz : z' = 146097 * era + doe) by (apply Z.div_mod; lia).
  assert (Hera : 0 <= era <= 24) by (subst era z'; Z.div_mod_to_equations; lia).
  assert (Hyoe : 0 <= yoe <= 399 /\ 0 <= doy <= 365).
  { subst doy yoe. Z.div_mod_to_equations. lia. }
  assert (Hmp : 0 <= mp <= 11) by (subst mp; Z.div_mod_to_equations; lia).
  destruct (Z.ltb_spec mp 10) as [Hlt|Hge].
  - replace (mp + 3 <=? 2) with false by (symmetry; apply Z.leb_gt; lia). lia.
  - replace (mp - 9 <=? 2) with true by (symmetry; apply Z.leb_le; lia).
    assert (era = 24 -> yoe = 399 -> doy < 306).
    { intros E E'. unfold doy. rewrite E'. unfold z' in Hz.
      Z.div_mod_to_equations. lia. }
    assert (306 <= doy) by (subst mp; Z.div_mod_to_equations; lia).
    lia.
Qed.

Lemma digit_value_digit (n : Z) : digit_value (digit n) = Some (n mod 10).
Proof.
  assert (H : 0 <= n mod 10 < 10) by (apply Z.mod_pos_bound; lia).
  unfold digit. generalize dependent (n mod 10). intros r H.
  assert (E : r = 0 \/ r = 1 \/ r = 2 \/ r = 3 \/ r = 4 \/ r = 5
              \/ r = 6 \/ r = 7 \/ r = 8 \/ r = 9) by lia.
  repeat (destruct E as [->|E]; [reflexivity|]). subst r. reflexivity.
Qed.

Lemma digits_value_app (acc : Z) (a b : string) :
  digits_value acc (a ++ b)%string =
  match digits_value acc a with
  | Some v => digits_value v b
  | None => None
  end.
Proof.
  revert acc. induction a as [|c a IH]; intros acc; simpl; [reflexivity|].
  destruct (digit_value c); [apply IH|reflexivity].
Qed.

Lemma digits_value_pad (k : nat) (acc n : Z) :
  digits_value acc (pad k n)
  = Some (acc * 10 ^ Z.of_nat k + n mod 10 ^ Z.of_nat k).
Proof.
  revert n. induction k as [|k IH]; intros n.
  - simpl. rewrite Z.mod_1_r. f_equal. lia.
  - cbn [pad]. rewrite digits_value_app, IH. cbn [digits_value].
    rewrite digit_value_digit. f_equal.
    rewrite Nat2Z.inj_succ, Z.pow_succ_r by lia.
    assert (Hp : 0 < 10 ^ Z.of_nat k) by (apply Z.pow_pos_nonneg; lia).
    rewrite (Z.rem_mul_r n 10 (10 ^ Z.of_nat k)) by lia. lia.
Qed.

Lemma length_pad (k : nat) (n : Z) : String.length (pad k n) = k.
Proof.
  revert n. induction k as [|k IH]; intros n; [reflexivity|].
  cbn [pad]. 
  assert (L : forall a b, String.length (a ++ b)%string
                          = (String.length a + String.length b)%nat).
  { induction a; simpl; intros; [reflexivity|]. rewrite IHa. reflexivity. }
  rewrite L, IH. simpl. lia.
Qed.

Lemma substring_0_0 (s : string) : substring 0 0 s = "".
Proof. destruct s; reflexivity. Qed.

Lemma read_date_of_fields (Y M D rest : string) (y m d : Z) :
  String.length Y = 4%nat -> String.length M = 2%nat ->
  String.length D = 2%nat ->
  digits_value 0 Y = Some y -> digits_value 0 M = Some m ->
  digits_value 0 D = Some d ->
  1 <= m <= 12 -> 1 <= d <= 31 ->
  read_date (Y ++ "-" ++ M ++ "-" ++ D ++ rest)%string = Some (y, m, d).
Proof.
  destruct Y as [|y1 [|y2 [|y3 [|y4 [|? ?]]]]]; try discriminate.
  destruct M as [|m1 [|m2 [|? ?]]]; try discriminate.
  destruct D as [|d1 [|d2 [|? ?]]]; try discriminate.
  intros _ _ _ Hy Hm Hd Rm Rd.
  unfold read_date, number_at, char_at.
  cbn -[digits_value Z.leb].
  rewrite ?substring_0_0. cbn -[digits_value Z.leb].
  rewrite Hy, Hm, Hd. unfold in_range.
  replace (1 <=? m) with true by (symmetry; apply Z.leb_le; lia).
  replace (m <=? 12) with true by (symmetry; apply Z.leb_le; lia).
  replace (1 <=? d) with true by (symmetry; apply Z.leb_le; lia).
  replace (d <=? 31) with true by (symmetry; apply Z.leb_le; lia).
  reflexivity.
Qed.

Lemma read_time_of_fields (date H MI S MS : string) (h mi sec ms : Z) :
  String.length date = 10%nat ->
  String.length H = 2%nat -> String.length MI = 2%nat ->
  String.length S = 2%nat -> String.length MS = 3%nat ->
  digits_value 0 H = Some h -> digits_value 0 MI = Some mi ->
  digits_value 0 S = Some sec -> digits_value 0 MS = Some ms ->
  0 <= h <= 23 -> 0 <= mi <= 59 -> 0 <= sec <= 59 ->
  let s := (date ++ "T" ++ H ++ ":" ++ MI ++ ":" ++ S ++ "." ++ MS
             ++ "Z")%string in
  String.length s = 24%nat /\
  read_time s = Some (h * msPerHour + mi * msPerMinute + sec * 1000 + ms).
Proof.
  destruct date
    as [|c0 [|c1 [|c2 [|c3 [|c4 [|c5 [|c6 [|c7 [|c8 [|c9 [|? ?]]]]]]]]]]];
    try discriminate.
  destruct H as [|h1 [|h2 [|? ?]]]; try discriminate.
  destruct MI as [|i1 [|i2 [|? ?]]]; try discriminate.
  destruct S as [|s1 [|s2 [|? ?]]]; try discriminate.
  destruct MS as [|x1 [|x2 [|x3 [|? ?]]]]; try discriminate.
  intros _ _ _ _ _ Hh Hmi Hs Hms Rh Rmi Rs. cbv zeta.
  split; [reflexivity|].
  unfold read_time, number_at, char_at.
  cbn -[digits_value Z.leb Z.mul Z.add].
  rewrite Hh, Hmi, Hs, Hms. unfold in_range.
  replace (0 <=? h) with true by (symmetry; apply Z.leb_le; lia).
  replace (h <=? 23) with true by (symmetry; apply Z.leb_le; lia).
  replace (0 <=? mi) with true by (symmetry; apply Z.leb_le; lia).
  replace (mi <=? 59) with true by (symmetry; apply Z.leb_le; lia).
  replace (0 <=? sec) with true by (symmetry; apply Z.leb_le; lia).
  replace (sec <=? 59) with true by (symmetry; apply Z.leb_le; lia).
  reflexivity.
Qed.

Lemma pad_value (k : nat) (n : Z) :
  0 <= n < 10 ^ Z.of_nat k -> digits_value 0 (pad k n) = Some n.
Proof.
  intros H. rewrite digits_value_pad. f_equal.
  rewrite Z.mod_small by exact H. lia.
Qed.

Lemma append_assoc (a b c : string) : ((a ++ b) ++ c = a ++ (b ++ c))%string.
Proof. induction a as [|x a IH]; simpl; [reflexivity|]. rewrite IH. reflexivity. Qed.

Lemma append_empty_r (a : string) : (a ++ "")%string = a.
Proof. induction a as [|x a IH]; simpl; [reflexivity|]. rewrite IH. reflexivity. Qed.

Lemma length_append (a b : string) :
  String.length (a ++ b)%string = (String.length a + String.length b)%nat.
Proof. induction a as [|x a IH]; simpl; [reflexivity|]. rewrite IH. reflexivity. Qed.

Lemma iso_year_four_digits (y : Z) : 0 <= y <= 9999 -> iso_year y = pad 4 y.
Proof.
  intros H. unfold iso_year.
  replace (0 <=? y) with true by (symmetry; apply Z.leb_le; lia).
  replace (y <=? 9999) with true by (symmetry; apply Z.leb_le; lia).
  reflexivity.
Qed.

Lemma year_string_four_digits (y : Z) :
  0 <= y <= 9999 -> year_string y = pad 4 y.
Proof.
  intros H. unfold year_string.
  replace (y <? 0) with false by (symmetry; apply Z.ltb_ge; lia).
  replace (Z.abs y) with y by lia.
  replace (y <? 10000) with true by (symmetry; apply Z.ltb_lt; lia).
  reflexivity.
Qed.

Lemma read_date_iso (y m d : Z) (rest : string) :
  0 <= y <= 9999 -> 1 <= m <= 12 -> 1 <= d <= 31 ->
  read_date (iso_date_of_civil (y, m, d) ++ rest)%string = Some (y, m, d).
Proof.
  intros Hy Hm Hd. unfold iso_date_of_civil.
  rewrite (iso_year_four_digits y Hy).
  rewrite !append_assoc.
  apply read_date_of_fields; try apply length_pad; try assumption;
    apply pad_value; simpl; lia.
Qed.

Lemma length_iso_date (y m d : Z) :
  0 <= y <= 9999 -> String.length (iso_date_of_civil (y, m, d)) = 10%nat.
Proof.
  intros Hy. unfold iso_date_of_civil. rewrite (iso_year_four_digits y Hy).
  rewrite !length_append, !length_pad. reflexivity.
Qed.

Lemma read_iso_date_of_day (n : Z) :
  in_calendar n ->
  read_iso (date_of_day n) =
  Some (let '(y, m, d) := civil_from_days n in (y, m, d, 0)).
Proof.
  intros Hn. unfold date_of_day.
  pose proof (civil_from_days_inverse n) as Hinv.
  pose proof (civil_from_days_year n Hn) as Hyear.
  destruct (civil_from_days n) as [[y m] d].
  destruct Hinv as (_ & Hm & Hd).
  unfold read_iso.
  rewrite <- (append_empty_r (iso_date_of_civil (y, m, d))) at 1.
  rewrite read_date_iso by assumption.
  rewrite length_iso_date by assumption. reflexivity.
Qed.

Lemma parse_date_of_day (n : Z) :
  in_calendar n -> parse (date_of_day n) = Some (n * msPerDay).
Proof.
  intros Hn. unfold parse. rewrite (read_iso_date_of_day n Hn).
  pose proof (civil_from_days_inverse n) as Hinv.
  destruct (civil_from_days n) as [[y m] d].
  destruct Hinv as (E & _). rewrite E. f_equal. lia.
Qed.

Lemma date_of_day_inj (a b : Z) :
  in_calendar a -> in_calendar b -> date_of_day a = date_of_day b -> a = b.
Proof.
  intros Ha Hb E.
  pose proof (parse_date_of_day a Ha) as Pa.
  pose proof (parse_date_of_day b Hb) as Pb.
  rewrite E, Pb in Pa. injection Pa. unfold msPerDay. lia.
Qed.

Lemma read_iso_toISOString (t : Z) :
  in_calendar (Day t) ->
  read_iso (toISOString t) =
  Some (let '(y, m, d) := civil_from_days (Day t) in
        (y, m, d, TimeWithinDay t)).
Proof.
  intros Hn. unfold toISOString, iso_date.
  pose proof (civil_from_days_inverse (Day t)) as Hinv.
  pose proof (civil_from_days_year (Day t) Hn) as Hyear.
  destruct (civil_from_days (Day t)) as [[y m] d].
  destruct Hinv as (_ & Hm & Hd).
  unfold read_iso. rewrite read_date_iso by assumption.
  assert (Hr : 0 <= TimeWithinDay t < msPerDay)
    by (apply Z.mod_pos_bound; reflexivity).
  unfold iso_time. set (r := TimeWithinDay t) in *.
  unfold msPerDay, msPerHour, msPerMinute in *.
  destruct (read_time_of_fields (iso_date_of_civil (y, m, d))
              (pad 2 (r / 3600000)) (pad 2 (r / 60000 mod 60))
              (pad 2 (r / 1000 mod 60)) (pad 3 (r mod 1000))
              (r / 3600000) (r / 60000 mod 60) (r / 1000 mod 60) (r mod 1000))
    as [Hlen Hread];
    try apply length_pad; try (apply length_iso_date; assumption);
    try (apply pad_value; simpl; Z.div_mod_to_equations; lia);
    try (Z.div_mod_to_equations; lia).
  rewrite !append_assoc in *. cbn [append] in *.
  rewrite Hlen, Hread. cbn [Nat.eqb]. do 2 f_equal.
  unfold msPerHour, msPerMinute. Z.div_mod_to_equations. lia.
Qed.

Lemma date_toISOString (t : Z) :
  in_calendar (Day t) -> Database.date (toISOString t) = Some (iso_date t).
Proof.
  intros Hn. unfold Database.date. rewrite (read_iso_toISOString t Hn).
  unfold iso_date.
  pose proof (civil_from_days_inverse (Day t)) as Hinv.
  destruct (civil_from_days (Day t)) as [[y m] d] eqn:E.
  destruct Hinv as (Hd & _). rewrite Hd, E. reflexivity.
Qed.

Lemma parse_toISOString (t : Z) :
  in_calendar (Day t) -> parse (toISOString t) = Some t.
Proof.
  intros Hn. unfold parse. rewrite (read_iso_toISOString t Hn).
  pose proof (civil_from_days_inverse (Day t)) as Hinv.
  destruct (civil_from_days (Day t)) as [[y m] d].
  destruct Hinv as (Hd & _). rewrite Hd. f_equal.
  unfold Day, TimeWithinDay, msPerDay. Z.div_mod_to_equations. lia.
Qed.

Lemma all_chars_app (p : ascii -> bool) (a b : string) :
  all_chars p (a ++ b)%string = all_chars p a && all_chars p b.
Proof.
  induction a as [|c a IH]; simpl; [reflexivity|].
  rewrite IH, andb_assoc. reflexivity.
Qed.

Lemma digit_not_T (n : Z) : Ascii.eqb (digit n) "T" = false.
Proof.
  assert (H : 0 <= n mod 10 < 10) by (apply Z.mod_pos_bound; lia).
  unfold digit. generalize dependent (n mod 10). intros r H.
  assert (E : r = 0 \/ r = 1 \/ r = 2 \/ r = 3 \/ r = 4 \/ r = 5
              \/ r = 6 \/ r = 7 \/ r = 8 \/ r = 9) by lia.
  repeat (destruct E as [->|E]; [reflexivity|]). subst r. reflexivity.
Qed.

Lemma pad_no_T (k : nat) (n : Z) :
  all_chars (fun c => negb (Ascii.eqb c "T")) (pad k n) = true.
Proof.
  revert n. induction k as [|k IH]; intros n; [reflexivity|].
  cbn [pad]. rewrite all_chars_app, IH. simpl.
  rewrite digit_not_T. reflexivity.
Qed.

Lemma iso_date_no_T (ymd : Z * Z * Z) :
  all_chars (fun c => negb (Ascii.eqb c "T")) (iso_date_of_civil ymd) = true.
Proof.
  destruct ymd as [[y m] d]. unfold iso_date_of_civil, iso_year.
  destruct ((0 <=? y) && (y <=? 9999)); [|destruct (y <? 0)];
    rewrite ?all_chars_app, ?pad_no_T; reflexivity.
Qed.

Lemma split_head_app (sep : ascii) (a b : string) :
  all_chars (fun c => negb (Ascii.eqb c sep)) a = true ->
  JSString.split_head sep (a ++ String sep b)%string = a.
Proof.
  induction a as [|c a IH]; simpl; intros H.
  - rewrite Ascii.eqb_refl. reflexivity.
  - apply andb_true_iff in H. destruct H as [Hc Ha].
    apply negb_true_iff in Hc. rewrite Hc, (IH Ha). reflexivity.
Qed.

Lemma split_head_toISOString (t : Z) :
  JSString.split_head "T" (toISOString t) = iso_date t.
Proof.
  unfold toISOString. apply split_head_app. apply iso_date_no_T.
Qed.

Lemma append_inj (a a' b b' : string) :
  String.length a = String.length a' ->
  (a ++ b = a' ++ b')%string -> a = a' /\ b = b'.
Proof.
  revert a'. induction a as [|x a IH]; intros [|x' a']; simpl;
    try discriminate; intros L E; [auto|].
  injection L as L. injection E as -> E.
  destruct (IH a' L E) as [-> ->]. auto.
Qed.

Lemma length_weekday_short (w : Z) : String.length (weekday_short w) = 3%nat.
Proof.
  destruct w as [|p|p]; try reflexivity.
  do 3 (destruct p as [p|p|]; try reflexivity).
Qed.

Lemma length_month_short (m : Z) : String.length (month_short m) = 3%nat.
Proof.
  destruct m as [|p|p]; try reflexivity.
  do 4 (destruct p as [p|p|]; try reflexivity).
Qed.

Lemma month_short_inj (m m' : Z) :
  1 <= m <= 12 -> 1 <= m' <= 12 -> month_short m = month_short m' -> m = m'.
Proof.
  intros H H'.
  assert (E : m = 1 \/ m = 2 \/ m = 3 \/ m = 4 \/ m = 5 \/ m = 6 \/ m = 7
              \/ m = 8 \/ m = 9 \/ m = 10 \/ m = 11 \/ m = 12) by lia.
  assert (E' : m' = 1 \/ m' = 2 \/ m' = 3 \/ m' = 4 \/ m' = 5 \/ m' = 6
               \/ m' = 7 \/ m' = 8 \/ m' = 9 \/ m' = 10 \/ m' = 11 \/ m' = 12)
    by lia.
  clear H H'.
  repeat (destruct E as [->|E]);
    repeat (destruct E' as [->|E']); subst;
    simpl; intros X; try reflexivity; discriminate X.
Qed.

Lemma pad_inj (k : nat) (n n' : Z) :
  0 <= n < 10 ^ Z.of_nat k -> 0 <= n' < 10 ^ Z.of_nat k ->
  pad k n = pad k n' -> n = n'.
Proof.
  intros H H' E. pose proof (pad_value k n H) as P.
  rewrite E, (pad_value k n' H') in P. congruence.
Qed.

Lemma space_inj (a b : string) : (" " ++ a = " " ++ b)%string -> a = b.
Proof. intros H. injection H. auto. Qed.

Lemma date_string_of_day_inj (a b : Z) :
  in_calendar a -> in_calendar b ->
  date_string_of_day a = date_string_of_day b -> a = b.
Proof.
  intros Ha Hb. unfold date_string_of_day.
  pose proof (civil_from_days_inverse a) as Ia.
  pose proof (civil_from_days_inverse b) as Ib.
  pose proof (civil_from_days_year a Ha) as Ya.
  pose proof (civil_from_days_year b Hb) as Yb.
  destruct (civil_from_days a) as [[y m] d].
  destruct (civil_from_days b) as [[y' m'] d'].
  destruct Ia as (Ea & Hm & Hd). destruct Ib as (Eb & Hm' & Hd').
  rewrite (year_string_four_digits y Ya), (year_string_four_digits y' Yb).
  intros E.
  apply append_inj in E; [|rewrite !length_weekday_short; reflexivity].
  destruct E as [_ E]. apply space_inj in E.
  apply append_inj in E; [|rewrite !length_month_short; reflexivity].
  destruct E as [Em E]. apply space_inj in E.
  apply append_inj in E; [|rewrite !length_pad; reflexivity].
  destruct E as [Ed E]. apply space_inj in E.
  apply month_short_inj in Em; [|assumption..].
  apply pad_inj in Ed; [|simpl; lia..].
  apply pad_inj in E; [|simpl; lia..].
  subst. reflexivity.
Qed.

End DateFacts.

(** ** Sorting *)

Section SortFacts.
Context {A : Type} (before : A -> A -> comparison).

Local Abbreviation may_precede := (Spec.may_precede before).

Hypothesis before_asym : forall a b, before a b = Lt -> before b a <> Lt.
Hypothesis may_precede_trans :
  forall a b c, may_precede a b -> may_precede b c -> may_precede a c.

Lemma insert_sorted (x : A) (l : list A) :
  Sorted may_precede l -> Sorted may_precede (Stable.insert before x l).
Proof.
  induction l as [|y l IH]; simpl; intros H.
  - constructor; constructor.
  - inversion H as [|? ? Hl Hy]; subst.
    destruct (before y x) eqn:E;
      try (constructor; [exact H|constructor; unfold Spec.may_precede; congruence]).
    constructor; [apply IH; exact Hl|].
    destruct l as [|z l]; simpl.
    + constructor. apply before_asym. exact E.
    + destruct (before z x) eqn:E'.
      * constructor. apply before_asym. exact E.
      * inversion Hy; subst. constructor. assumption.
      * constructor. apply before_asym. exact E.
Qed.

Lemma sort_sorted (l : list A) :
  StronglySorted may_precede (Stable.sort before l).
Proof.
  apply Sorted_StronglySorted.
  - intros a b c. apply may_precede_trans.
  - induction l as [|x l IH]; simpl; [constructor|].
    apply insert_sorted. exact IH.
Qed.
End SortFacts.

Section CompareFacts.

Lemma ascii_compare_lt_trans (a b c : ascii) :
  Ascii.compare a b = Lt -> Ascii.compare b c = Lt -> Ascii.compare a c = Lt.
Proof.
  unfold Ascii.compare. rewrite !N.compare_lt_iff. lia.
Qed.

Lemma string_compare_lt_trans (a b c : string) :
  String.compare a b = Lt -> String.compare b c = Lt ->
  String.compare a c = Lt.
Proof.
  revert b c. induction a as [|x a IH]; intros [|y b] [|z c]; simpl;
    try discriminate; try reflexivity.
  destruct (Ascii.compare x y) eqn:Exy; try discriminate;
    destruct (Ascii.compare y z) eqn:Eyz; try discriminate; intros H1 H2.
  - apply Ascii.compare_eq_iff in Exy, Eyz. subst.
    assert (E : Ascii.compare z z = Eq)
      by (unfold Ascii.compare; apply N.compare_refl).
    rewrite E. eapply IH; eassumption.
  - apply Ascii.compare_eq_iff in Exy. subst. rewrite Eyz. reflexivity.
  - apply Ascii.compare_eq_iff in Eyz. subst. rewrite Exy. reflexivity.
  - rewrite (ascii_compare_lt_trans x y z Exy Eyz). reflexivity.
Qed.

Lemma string_compare_gt_lt (a b : string) :
  String.compare a b = Gt <-> String.compare b a = Lt.
Proof.
  rewrite (String.compare_antisym b a).
  destruct (String.compare a b); simpl; split; congruence.
Qed.

Lemma string_not_lt_trans (a b c : string) :
  String.compare a b <> Lt -> String.compare b c <> Lt ->
  String.compare a c <> Lt.
Proof.
  intros H1 H2.
  destruct (String.compare a b) eqn:Eab; [| congruence |].
  - apply String.compare_eq_iff in Eab. subst. exact H2.
  - destruct (String.compare b c) eqn:Ebc; [| congruence |].
    + apply String.compare_eq_iff in Ebc. subst. congruence.
    + apply string_compare_gt_lt in Eab, Ebc.
      pose proof (string_compare_lt_trans _ _ _ Ebc Eab) as H.
      apply string_compare_gt_lt in H. congruence.
Qed.

Lemma string_lt_asym (a b : string) :
  String.compare a b = Lt -> String.compare b a <> Lt.
Proof.
  intros H. rewrite (String.compare_antisym b a), H. discriminate.
Qed.

End CompareFacts.

Section OrderByFacts.
Import Database Spec.

Lemma by_createdAt_desc_sorted (rows : list Memory.t) :
  newest_first (by_createdAt_desc rows).
Proof.
  unfold newest_first, by_createdAt_desc, order_by_desc.
  apply (sort_sorted
           (fun a b => String.compare (Memory.createdAt b) (Memory.createdAt a))).
  - intros a b. apply string_lt_asym.
  - intros a b c. unfold Spec.may_precede. apply string_not_lt_trans.
Qed.

Lemma by_viewCount_desc_sorted (rows : list Memory.t) :
  most_viewed_first (order_by_desc Z.compare Memory.viewCount rows).
Proof.
  unfold most_viewed_first, order_by_desc.
  eapply StronglySorted_ind with
    (P := fun l => StronglySorted
                     (fun a b => Memory.viewCount b <= Memory.viewCount a) l).
  3: { apply (sort_sorted
           (fun a b => Z.compare (Memory.viewCount b) (Memory.viewCount a))).
       - intros a b. rewrite !Z.compare_lt_iff. lia.
       - intros a b c. unfold Spec.may_precede.
         rewrite !Z.compare_lt_iff. lia. }
  - constructor.
  - intros a l _ IH Hall. constructor; [exact IH|].
    eapply Forall_impl; [|exact Hall].
    intros b. unfold Spec.may_precede. rewrite Z.compare_lt_iff. lia.
Qed.

End OrderByFacts.

(** ** Counting and suggesting by date *)

Section DateViews.
Import Database JSDate Spec.

Lemma iso_date_is_date_of_day (t : Z) : iso_date t = date_of_day (Day t).
Proof. reflexivity. Qed.

(** A timestamp the application wrote is dated the day it was written,
    in UTC. *)
Lemma date_is_same_day (day t : Z) :
  in_calendar day -> in_calendar (Day t) ->
  date_is (date_of_day day) (toISOString t) = (Day t =? day).
Proof.
  intros Hd Ht. unfold date_is. rewrite (date_toISOString t Ht).
  rewrite iso_date_is_date_of_day.
  destruct (Z.eqb_spec (Day t) day) as [->|Hne].
  - apply String.eqb_refl.
  - apply String.eqb_neq. intros E. apply Hne.
    apply date_of_day_inj; assumption.
Qed.

Lemma getTodayMemoryCount_eq (now : Z) (s : Store) :
  outcome (getTodayMemoryCount now) s =
  Fulfilled
    (Z.of_nat
       (List.length
          (filter (fun m => date_is (date_of_day (Day now))
                                    (Memory.createdAt m))
                  (memories s)))).
Proof.
  unfold outcome, getTodayMemoryCount. rewrite await_getDatabase.
  destruct (getDatabase_tables s) as (_ & Hm & _).
  unfold query. simpl. rewrite Hm, split_head_toISOString. reflexivity.
Qed.

(** C6, refuted as stated: in a zone three hours east of UTC, at 01:00
    local time on 2 January, the note taken at 11:00 local time on
    1 January does not fall on the current local date, yet it is
    counted. *)
Lemma today_count_ignores_the_zone :
  let tz := 180 in
  let now := Sample.jan1_0800 + Sample.hours 14 in
  date_of_day (local_day tz now) = "2024-01-02"
  /\ map (fun m => option_map (fun t => date_of_day (local_day tz t))
                              (parse (Memory.createdAt m)))
         (memories Sample.buy_milk) = [Some "2024-01-01"]
  /\ local_today_count tz now Sample.buy_milk = 0
  /\ outcome (getTodayMemoryCount now) Sample.buy_milk = Fulfilled 1.
Proof. cbv zeta. repeat split; vm_compute; reflexivity. Qed.

(** C6, as the code has it.  [getTodayMemoryCount] returns the number of
    records whose [createdAt] falls on the current UTC calendar date: a
    record stamped with [toISOString] of an instant is counted iff that
    instant and the current one have the same UTC day.  After adding
    "Buy milk" at 2024-01-01T08:00:00Z the count is 1 on 2024-01-01 and 0
    on 2024-01-02. *)
Theorem today_count_by_utc_date :
  (forall (now : Z) (s : Store),
      outcome (getTodayMemoryCount now) s =
      Fulfilled
        (Z.of_nat
           (List.length
              (filter (fun m => date_is (date_of_day (Day now))
                                        (Memory.createdAt m))
                      (memories s)))))
  /\ (forall now t : Z,
      in_calendar (Day now) -> in_calendar (Day t) ->
      date_is (date_of_day (Day now)) (toISOString t) = (Day t =? Day now))
  /\ toISOString Sample.jan1_0800 = "2024-01-01T08:00:00.000Z"
  /\ (forall now,
      Day now = Day Sample.jan1_0800 ->
      outcome (getTodayMemoryCount now) Sample.buy_milk = Fulfilled 1)
  /\ (forall now,
      Day now = Day Sample.jan1_0800 + 1 ->
      outcome (getTodayMemoryCount now) Sample.buy_milk = Fulfilled 0).
Proof.
  split; [exact getTodayMemoryCount_eq|].
  split; [intros now t Hn Ht; apply date_is_same_day; assumption|].
  split; [reflexivity|].
  split; intros now E; rewrite getTodayMemoryCount_eq, E; reflexivity.
Qed.

Lemma today_count_by_utc_date_witness :
  outcome (getTodayMemoryCount (Sample.jan1_0800 + Sample.hours 15))
          Sample.buy_milk = Fulfilled 1
  /\ outcome (getTodayMemoryCount (Sample.jan1_0800 + Sample.hours 16))
             Sample.buy_milk = Fulfilled 0.
Proof.
  destruct today_count_by_utc_date as (_ & _ & _ & H1 & H2).
  split; [apply H1|apply H2]; reflexivity.
Defined.

End DateViews.

Section Suggestions.
Import Database JSDate Spec.

Lemma Day_previousDay (tz tz' t : Z) :
  Day (previousDay tz tz' t) = Day (t + (tz - tz') * msPerMinute) - 1.
Proof.
  unfold previousDay, UTC, LocalTime, Day.
  replace (t + tz * msPerMinute - msPerDay - tz' * msPerMinute)
    with (t + (tz - tz') * msPerMinute + -1 * msPerDay) by lia.
  rewrite Z.div_add by discriminate. lia.
Qed.

(** When the clocks went forward an hour since yesterday, the same
    wall-clock time the day before is 23 hours ago: half an hour before
    UTC midnight its UTC date is still today's. *)
Lemma previousDay_across_a_switch :
  let now := Sample.jan1_0800 + Sample.hours 15 + 30 * msPerMinute in
  toISOString now = "2024-01-01T23:30:00.000Z"
  /\ previousDay 120 60 now = now - 23 * msPerHour
  /\ Day (previousDay 120 60 now) = Day now
  /\ Day (previousDay 120 120 now) = Day now - 1.
Proof. cbv zeta. repeat split. Qed.

Lemma initDatabase_eq (s : Store) :
  exists s0,
    initDatabase s = (Fulfilled tt, s0)
    /\ db s0 = true /\ memories s0 = memories s
    /\ focus_goals s0 = focus_goals s.
Proof. eexists. split; [reflexivity|]. simpl. auto. Qed.

Lemma query_eq {A} (f : Store -> A) (s : Store) :
  db s = true ->
  (_ <- getDatabase ;; query f) s = (Fulfilled (f s), s).
Proof.
  intros E. unfold await. rewrite (getDatabase_open s E). reflexivity.
Qed.

(** C4, refuted as stated: "yesterday" is not the local date.  Eleven
    hours east of UTC, at 09:00 on 3 January, the store holds two
    records of 2 January and one of 1 January, local dates; the one of
    two days ago is suggested, the two of yesterday are not. *)
Lemma morning_suggestions_ignore_the_zone :
  let tz := 660 in
  let now := Sample.jan1_0800 + Sample.hours 38 in
  getHours tz now = 9
  /\ map (local_day_of tz) (memories Sample.east_notes)
     = [Some (local_day tz now - 2); Some (local_day tz now - 1);
        Some (local_day tz now - 1)]
  /\ exists suggested goals,
       outcome (DiscoverScreen.loadData tz tz now) Sample.east_notes
       = Fulfilled (suggested, goals)
       /\ map Memory.content suggested = ["Two days ago"].
Proof.
  cbv zeta. split; [reflexivity|]. split; [vm_compute; reflexivity|].
  eexists. eexists. split; [vm_compute; reflexivity|]. reflexivity.
Qed.

(** C4, as the code has it.  The contextual suggestions are chosen by
    the current local hour [h]: before noon, the records dated
    yesterday, most recent first and capped at 5, or the 5 most recent
    records when there is none; from noon to before 17, the 5 most recent
    records; from 17 on, the records with a positive [viewCount], most
    viewed first and capped at 5, or the 5 most recent records when there
    is none.  A record is "dated yesterday" when the UTC date of its
    timestamp is the UTC date of the instant that has the current
    wall-clock time on the previous local day: the day before the UTC
    date of [now], moved by the change [tz - tz'] of the zone's offset
    since then; where the offset has not changed, the day before the
    current UTC date.  The local date of the records plays no part. *)
Theorem contextual_suggestions (tz tz' now : Z) (s : Store) :
  let h := getHours tz now in
  let rows := memories s in
  let day_before := Day (now + (tz - tz') * msPerMinute) - 1 in
  let recent := firstn 5 (by_createdAt_desc rows) in
  let yesterday :=
    firstn 5 (by_createdAt_desc (filter (dated day_before) rows)) in
  let viewed :=
    firstn 5 (order_by_desc Z.compare Memory.viewCount
                (filter (fun m => 0 <? Memory.viewCount m) rows)) in
  exists suggested goals,
    outcome (DiscoverScreen.loadData tz tz' now) s
    = Fulfilled (suggested, goals)
    /\ (h < 12 -> suggested = or_else yesterday recent)
    /\ (12 <= h < 17 -> suggested = recent)
    /\ (17 <= h -> suggested = or_else viewed recent)
    /\ (tz' = tz -> day_before = Day now - 1)
    /\ newest_first (by_createdAt_desc rows)
    /\ newest_first (by_createdAt_desc (filter (dated day_before) rows))
    /\ most_viewed_first
         (order_by_desc Z.compare Memory.viewCount
            (filter (fun m => 0 <? Memory.viewCount m) rows)).
Proof.
  cbv zeta.
  destruct (initDatabase_eq s) as (s0 & E0 & Hdb & Hm & Hg).
  set (day_before := Day (now + (tz - tz') * msPerMinute) - 1).
  set (recent := firstn 5 (by_createdAt_desc (memories s))).
  set (yesterday := firstn 5 (by_createdAt_desc
                                (filter (dated day_before) (memories s)))).
  set (viewed := firstn 5 (order_by_desc Z.compare Memory.viewCount
                   (filter (fun m => 0 <? Memory.viewCount m) (memories s)))).
  assert (Hrecent : getRecentMemories 5 s0 = (Fulfilled recent, s0)).
  { unfold getRecentMemories. rewrite (query_eq _ s0 Hdb).
    unfold recent, limit. rewrite Hm. reflexivity. }
  assert (Hmorning : getMorningMemories tz tz' now s0
                     = (Fulfilled yesterday, s0)).
  { unfold getMorningMemories. rewrite (query_eq _ s0 Hdb).
    unfold yesterday, limit, dated, day_before.
    rewrite Hm, split_head_toISOString, iso_date_is_date_of_day,
      Day_previousDay. reflexivity. }
  assert (Hviewed : getFrequentlyViewedMemories s0 = (Fulfilled viewed, s0)).
  { unfold getFrequentlyViewedMemories. rewrite (query_eq _ s0 Hdb).
    unfold viewed, limit. rewrite Hm. reflexivity. }
  assert (Hgoals : exists goals, getFocusGoals s0 = (Fulfilled goals, s0)).
  { eexists. unfold getFocusGoals. rewrite (query_eq _ s0 Hdb). reflexivity. }
  destruct Hgoals as [goals Hgoals].
  assert (Hfallback : forall l,
             (if (List.length l =? 0)%nat then getRecentMemories 5
              else resolve l) s0 = (Fulfilled (or_else l recent), s0)).
  { intros [|x l]; simpl; [exact Hrecent|reflexivity]. }
  assert (Hload : outcome (DiscoverScreen.loadData tz tz' now) s =
                  Fulfilled
                    (or_else
                       (if getHours tz now <? 12 then yesterday
                        else if getHours tz now <? 17 then recent
                        else viewed) recent, goals)).
  { unfold outcome, DiscoverScreen.loadData, await. rewrite E0.
    destruct (getHours tz now <? 12);
      [rewrite Hmorning
      |destruct (getHours tz now <? 17); [rewrite Hrecent|rewrite Hviewed]];
      rewrite Hfallback, Hgoals; reflexivity. }
  eexists. exists goals. split; [exact Hload|].
  split; [|split; [|split; [|split; [|split; [|split]]]]].
  - intros H. apply Z.ltb_lt in H. rewrite H. reflexivity.
  - intros [H1 H2]. apply Z.ltb_ge in H1. apply Z.ltb_lt in H2.
    rewrite H1, H2. unfold or_else. destruct recent; reflexivity.
  - intros H. assert (H1 : 12 <= getHours tz now) by lia.
    apply Z.ltb_ge in H, H1. rewrite H, H1. reflexivity.
  - intros ->. unfold day_before. f_equal. f_equal. lia.
  - apply by_createdAt_desc_sorted.
  - apply by_createdAt_desc_sorted.
  - apply by_viewCount_desc_sorted.
Qed.

(** At UTC, at 09:00 with two records dated yesterday and one dated two
    days ago, exactly the two of yesterday are suggested. *)
Lemma contextual_suggestions_witness :
  let now := Sample.jan1_0800 + Sample.hours 49 in
  getHours 0 now = 9
  /\ map (fun m => Database.date (Memory.createdAt m))
         (memories Sample.three_notes)
     = [Some "2024-01-01"; Some "2024-01-02"; Some "2024-01-02"]
  /\ date_of_day (Day now) = "2024-01-03"
  /\ exists suggested goals,
       outcome (DiscoverScreen.loadData 0 0 now) Sample.three_notes
       = Fulfilled (suggested, goals)
       /\ map Memory.content suggested = ["Book flights"; "Call the bank"].
Proof.
  cbv zeta. split; [reflexivity|]. split; [reflexivity|].
  split; [reflexivity|].
  destruct (contextual_suggestions 0 0 (Sample.jan1_0800 + Sample.hours 49)
              Sample.three_notes)
    as (suggested & goals & Hload & Hmorning & _).
  exists suggested, goals. split; [exact Hload|].
  rewrite Hmorning by (vm_compute; reflexivity).
  reflexivity.
Defined.

End Suggestions.

(** ** Timeline grouping *)

Section TimelineFacts.
Import Database JSDate Spec TimelineScreen.

Lemma push_keys (k : string) (m : Memory.t)
    (groups : list (string * list Memory.t)) :
  (In k (map fst groups) -> map fst (push k m groups) = map fst groups)
  /\ (~ In k (map fst groups) ->
      map fst (push k m groups) = map fst groups ++ [k]).
Proof.
  induction groups as [|[k0 v0] groups [IH1 IH2]]; simpl.
  - split; [tauto|reflexivity].
  - destruct (String.eqb_spec k0 k) as [->|Hne]; simpl.
    + split; [reflexivity|tauto].
    + split; intros H; f_equal; [apply IH1|apply IH2]; tauto.
Qed.

Lemma push_entries (k : string) (m : Memory.t)
    (groups : list (string * list Memory.t)) (k' : string)
    (v' : list Memory.t) :
  NoDup (map fst groups) ->
  In (k', v') (push k m groups) ->
  (k' <> k /\ In (k', v') groups)
  \/ (k' = k /\ exists v, In (k, v) groups /\ v' = v ++ [m])
  \/ (k' = k /\ ~ In k (map fst groups) /\ v' = [m]).
Proof.
  induction groups as [|[k0 v0] groups IH]; simpl; intros ND H.
  - destruct H as [H|[]]. injection H as <- <-. right. right. tauto.
  - inversion ND as [|? ? Hnotin ND']; subst.
    destruct (String.eqb_spec k0 k) as [->|Hne].
    + destruct H as [H|H].
      * injection H as <- <-. right. left. split; [reflexivity|].
        exists v0. auto.
      * left. split; [|auto]. intros ->. apply Hnotin.
        apply (in_map fst) in H. exact H.
    + destruct H as [H|H].
      * injection H as <- <-. left. auto.
      * destruct (IH ND' H) as [[H1 H2]|[[H1 (v & H2 & H3)]|(H1 & H2 & H3)]].
        -- left. auto.
        -- right. left. split; [exact H1|]. exists v. auto.
        -- right. right. split; [exact H1|]. split; [|exact H3].
           intros [E|E]; [congruence|tauto].
Qed.

Lemma filter_snoc {A} (p : A -> bool) (l : list A) (x : A) :
  filter p (l ++ [x]) = filter p l ++ (if p x then [x] else []).
Proof. rewrite filter_app. reflexivity. Qed.

Lemma filter_none {A} (p : A -> bool) (l : list A) :
  (forall x, In x l -> p x = false) -> filter p l = [].
Proof.
  induction l as [|x l IH]; simpl; intros H; [reflexivity|].
  rewrite (H x (or_introl eq_refl)). apply IH. auto.
Qed.

Lemma grouped_push (done : list Memory.t) (m : Memory.t)
    (groups : list (string * list Memory.t)) :
  grouped done groups ->
  grouped (done ++ [m]) (push (date_key m) m groups).
Proof.
  intros (ND & Hval & Hcov).
  destruct (push_keys (date_key m) m groups) as [Kin Kout].
  destruct (in_dec string_dec (date_key m) (map fst groups)) as [Hin|Hout].
  - split; [rewrite (Kin Hin); exact ND|]. split.
    + intros k v H.
      destruct (push_entries _ _ _ _ _ ND H)
        as [[H1 H2]|[[H1 (v0 & H2 & H3)]|(H1 & H2 & H3)]].
      * destruct (Hval k v H2) as [E Hne]. split; [|exact Hne].
        rewrite filter_snoc. unfold on_date at 2.
        destruct (String.eqb_spec (date_key m) k); [congruence|].
        rewrite app_nil_r. exact E.
      * subst k v. destruct (Hval _ _ H2) as [E _]. split.
        -- rewrite filter_snoc. unfold on_date at 2.
           rewrite String.eqb_refl. rewrite E. reflexivity.
        -- destruct v0; discriminate.
      * tauto.
    + intros m' H. rewrite (Kin Hin). apply in_app_or in H.
      destruct H as [H|[<-|[]]]; [apply Hcov; exact H|exact Hin].
  - split.
    { rewrite (Kout Hout). apply NoDup_rev in ND.
      rewrite <- (rev_involutive (_ ++ _)). apply NoDup_rev.
      rewrite rev_app_distr. simpl. constructor; [|exact ND].
      rewrite <- in_rev. exact Hout. }
    split.
    + intros k v H.
      destruct (push_entries _ _ _ _ _ ND H)
        as [[H1 H2]|[[H1 (v0 & H2 & H3)]|(H1 & H2 & H3)]].
      * destruct (Hval k v H2) as [E Hne]. split; [|exact Hne].
        rewrite filter_snoc. unfold on_date at 2.
        destruct (String.eqb_spec (date_key m) k); [congruence|].
        rewrite app_nil_r. exact E.
      * exfalso. apply Hout. apply (in_map fst) in H2. exact H2.
      * subst k v. split; [|discriminate].
        rewrite filter_snoc. unfold on_date at 2.
        rewrite String.eqb_refl.
        replace (filter (on_date (date_key m)) done) with (@nil Memory.t);
          [reflexivity|].
        symmetry. apply filter_none.
        intros m' Hm'. unfold on_date.
        destruct (String.eqb_spec (date_key m') (date_key m)) as [E|];
          [|reflexivity].
        exfalso. apply Hout. rewrite <- E. apply Hcov. exact Hm'.
    + intros m' H. rewrite (Kout Hout). apply in_or_app.
      apply in_app_or in H.
      destruct H as [H|[<-|[]]]; [left; apply Hcov; exact H|right; left; reflexivity].
Qed.

Lemma grouped_collect (memories : list Memory.t) :
  grouped memories (collect memories).
Proof.
  unfold collect.
  assert (G : forall l done groups,
             grouped done groups ->
             grouped (done ++ l)
               (fold_left (fun groups memory =>
                             push (date_key memory) memory groups) l groups)).
  { induction l as [|m l IH]; intros done groups H; simpl.
    - rewrite app_nil_r. exact H.
    - replace (done ++ m :: l) with ((done ++ [m]) ++ l)
        by (rewrite <- app_assoc; reflexivity).
      apply IH. apply grouped_push. exact H. }
  apply (G memories [] []).
  split; [constructor|]. split; [intros k v []|intros m []].
Qed.

(** The local day on which the UTC midnight that starts day [n] falls. *)
Lemma local_day_of_midnight_east (tz n : Z) :
  0 <= tz < 1440 -> local_day tz (n * msPerDay) = n.
Proof.
  intros H. unfold local_day, Day, LocalTime, msPerDay, msPerMinute.
  Z.div_mod_to_equations. lia.
Qed.

Lemma local_day_of_midnight_west (tz n : Z) :
  -1440 <= tz < 0 -> local_day tz (n * msPerDay) = n - 1.
Proof.
  intros H. unfold local_day, Day, LocalTime, msPerDay, msPerMinute.
  Z.div_mod_to_equations. lia.
Qed.

Lemma local_day_previousDay (tz tz' t : Z) :
  local_day tz' (previousDay tz tz' t) = local_day tz t - 1.
Proof.
  unfold local_day, previousDay, UTC, LocalTime, Day.
  replace (t + tz * msPerMinute - msPerDay - tz' * msPerMinute
           + tz' * msPerMinute)
    with (t + tz * msPerMinute + -1 * msPerDay) by lia.
  rewrite Z.div_add by discriminate. lia.
Qed.

(** [yesterday.toDateString()] does not depend on the offset in force
    the day before. *)
Lemma toDateString_previousDay (tz tz' t : Z) :
  toDateString tz' (previousDay tz tz' t)
  = toDateString tz (previousDay tz tz t).
Proof.
  unfold toDateString.
  fold (local_day tz' (previousDay tz tz' t)).
  fold (local_day tz (previousDay tz tz t)).
  rewrite !local_day_previousDay. reflexivity.
Qed.

Lemma date_string_eqb (a b : Z) :
  in_calendar a -> in_calendar b ->
  String.eqb (date_string_of_day a) (date_string_of_day b) = (a =? b).
Proof.
  intros Ha Hb. destruct (Z.eqb_spec a b) as [->|Hne].
  - apply String.eqb_refl.
  - apply String.eqb_neq. intros E. apply Hne.
    apply date_string_of_day_inj; assumption.
Qed.

(** The label of the group of day [n], in terms of the local day [shown]
    on which that day's UTC midnight falls. *)
Lemma formatDate_label (tz now n : Z) :
  let shown := local_day tz (n * msPerDay) in
  let today := local_day tz now in
  in_calendar n -> in_calendar shown ->
  in_calendar today -> in_calendar (today - 1) ->
  formatDate tz now (date_of_day n) =
  if shown =? today then "Today"
  else if shown =? today - 1 then "Yesterday"
  else locale_date_string_of_day shown.
Proof.
  cbv zeta. intros Hn Hs Ht Hy. unfold formatDate.
  rewrite (parse_date_of_day n Hn). unfold toDateString, toLocaleDateString.
  fold (local_day tz (n * msPerDay)). fold (local_day tz now).
  fold (local_day tz (previousDay tz tz now)).
  rewrite local_day_previousDay.
  rewrite !date_string_eqb by assumption. reflexivity.
Qed.

Lemma sorted_entries (memories : list Memory.t) :
  let entries := Stable.sort newest_date_first (collect memories) in
  Permutation entries (collect memories)
  /\ StronglySorted (fun a b => String.compare b a = Lt) (map fst entries).
Proof.
  cbv zeta. set (entries := Stable.sort _ _).
  assert (P : Permutation entries (collect memories))
    by apply sort_permutation.
  split; [exact P|].
  assert (ND : NoDup (map fst entries)).
  { apply (Permutation_NoDup (l := map fst (collect memories))).
    - apply Permutation_map. symmetry. exact P.
    - apply (grouped_collect memories). }
  assert (S : StronglySorted (Spec.may_precede newest_date_first) entries).
  { apply sort_sorted.
    - intros a b. apply string_lt_asym.
    - intros a b c. unfold may_precede, newest_date_first.
      apply string_not_lt_trans. }
  clearbody entries. clear P.
  induction S as [|a l S IH Hall]; simpl; [constructor|].
  inversion ND as [|? ? Hnotin ND']; subst.
  constructor; [apply IH; exact ND'|].
  apply Forall_forall. intros k Hk. apply in_map_iff in Hk.
  destruct Hk as (b & <- & Hb).
  rewrite Forall_forall in Hall. specialize (Hall b Hb).
  unfold may_precede, newest_date_first, JSString.localeCompare in Hall.
  destruct (String.compare (fst a) (fst b)) eqn:E; [| congruence |].
  - apply String.compare_eq_iff in E. exfalso. apply Hnotin.
    rewrite E. apply in_map. exact Hb.
  - apply string_compare_gt_lt. exact E.
Qed.

Lemma groups_are_entries (tz now : Z) (memories : list Memory.t)
    (g : GroupedMemories) :
  In g (groupMemoriesByDate tz now memories) <->
  exists k v, In (k, v) (collect memories)
    /\ g = {| date := k; formattedDate := formatDate tz now k; data := v |}.
Proof.
  unfold groupMemoriesByDate. rewrite in_map_iff. split.
  - intros ([k v] & <- & H). exists k, v. split; [|reflexivity].
    eapply Permutation_in; [apply sort_permutation|exact H].
  - intros (k & v & H & ->). exists (k, v). split; [reflexivity|].
    eapply Permutation_in; [symmetry; apply sort_permutation|exact H].
Qed.

End TimelineFacts.

Section TimelineClaims.
Import Database JSDate Spec TimelineScreen.




(** West of UTC the label is computed from the day before the group's
    date: five hours west, at noon local time on 3 January, a note taken
    that very minute is labelled "Yesterday". *)
Lemma label_west_of_utc :
  let tz := -300 in
  let now := Sample.jan1_0800 + Sample.hours 57 in
  let row := new_row 1 (Sample.note "Noon" (toISOString now) None) in
  date_of_day (local_day tz now) = "2024-01-03"
  /\ map (fun g => (date g, formattedDate g))
         (groupMemoriesByDate tz now [row])
     = [("2024-01-03", "Yesterday")].
Proof. cbv zeta. split; vm_compute; reflexivity. Qed.

End TimelineClaims.

(** * Further properties of the code *)

(** ** Row ids and listings *)

Section RowIds.
Import Database Spec Invariant Behaviour.

Lemma update_where_id_same (rowid : Z) (rows : list Memory.t) :
  update_where_id rowid (fun m => m) rows = rows.
Proof.
  unfold update_where_id. induction rows as [|m rows IH]; simpl; [reflexivity|].
  rewrite IH. destruct (Memory.id m =? rowid); reflexivity.
Qed.

Lemma memories_after_update (rowid : Z) (updates : list MemoryEntry) (s : Store) :
  exists f,
    memories (store_after (updateMemory rowid updates) s)
    = update_where_id rowid f (memories s)
    /\ (forall m, Memory.id (f m) = Memory.id m)
    /\ memories_seq (store_after (updateMemory rowid updates) s) = memories_seq s.
Proof.
  unfold store_after, updateMemory. rewrite await_getDatabase.
  destruct (getDatabase_tables s) as (_ & Hm & Hq & _).
  destruct (0 <? List.length _)%nat; simpl.
  - eexists. rewrite Hm, Hq. split; [reflexivity|]. split; [|reflexivity].
    intros m. generalize (filter (fun e => negb (is_id_entry e)) updates).
    intros l. revert m. induction l as [|e l IH]; intros m; simpl; [reflexivity|].
    rewrite IH. apply assign_id.
  - exists (fun m => m). rewrite Hm, Hq. split; [|auto].
    symmetry. apply update_where_id_same.
Qed.

Lemma map_id_update_where_id (rowid : Z) (f : Memory.t -> Memory.t)
    (rows : list Memory.t) :
  (forall m, Memory.id (f m) = Memory.id m) ->
  map Memory.id (update_where_id rowid f rows) = map Memory.id rows.
Proof.
  intros Hf. unfold update_where_id. rewrite map_map. apply map_ext.
  intros m. destruct (Memory.id m =? rowid); [apply Hf|reflexivity].
Qed.

Lemma memories_after_view (now rowid : Z) (s : Store) :
  memories (store_after (incrementViewCount now rowid) s)
  = update_where_id rowid (viewed (JSDate.toISOString now)) (memories s)
  /\ memories_seq (store_after (incrementViewCount now rowid) s) = memories_seq s.
Proof.
  unfold store_after, incrementViewCount. rewrite await_getDatabase.
  destruct (getDatabase_tables s) as (_ & Hm & Hq & _).
  simpl. rewrite Hm, Hq. auto.
Qed.

Lemma memories_after_delete (rowid : Z) (s : Store) :
  memories (store_after (deleteMemory rowid) s)
  = filter (fun m => negb (Memory.id m =? rowid)) (memories s)
  /\ memories_seq (store_after (deleteMemory rowid) s) = memories_seq s.
Proof.
  unfold store_after, deleteMemory. rewrite await_getDatabase.
  destruct (getDatabase_tables s) as (_ & Hm & Hq & _).
  simpl. rewrite Hm, Hq. auto.
Qed.

Lemma memories_after_add (memory : NewMemory.t) (s : Store) :
  let rowid := next_rowid (memories_seq s) (map Memory.id (memories s)) in
  outcome (addMemory memory) s = Fulfilled rowid
  /\ memories (store_after (addMemory memory) s)
     = memories s ++ [new_row rowid memory]
  /\ memories_seq (store_after (addMemory memory) s) = rowid.
Proof.
  unfold outcome, store_after, addMemory. rewrite await_getDatabase.
  destruct (getDatabase_tables s) as (_ & Hm & Hq & _).
  simpl. rewrite Hm, Hq. auto.
Qed.

Lemma viewed_id (at_ : string) (m : Memory.t) :
  Memory.id (viewed at_ m) = Memory.id m.
Proof. destruct m; reflexivity. Qed.

Lemma NoDup_snoc {A} (l : list A) (x : A) :
  NoDup l -> ~ In x l -> NoDup (l ++ [x]).
Proof.
  intros ND Hx. apply NoDup_rev in ND.
  rewrite <- (rev_involutive (l ++ [x])). apply NoDup_rev.
  rewrite rev_app_distr. simpl. constructor; [|exact ND].
  rewrite <- in_rev. exact Hx.
Qed.

Lemma rowids_sound_step (op : MemoryOp) (s : Store) :
  rowids_sound s ->
  rowids_sound (apply_op op s)
  /\ memories_seq s <= memories_seq (apply_op op s).
Proof.
  intros [ND Hb]. unfold rowids_sound.
  destruct op as [memory|rowid updates|rowid|now rowid]; simpl.
  - destruct (memories_after_add memory s) as (_ & Hm & Hq).
    rewrite Hm, Hq, map_app. simpl.
    set (ids := map Memory.id (memories s)) in *.
    assert (Hmax : 0 <= max_rowid ids).
    { clear. induction ids; simpl; lia. }
    unfold next_rowid. split; [split|lia].
    + apply NoDup_snoc; [exact ND|]. apply next_rowid_fresh.
    + intros i Hi. apply in_app_or in Hi. destruct Hi as [Hi|[<-|[]]].
      * specialize (Hb i Hi). lia.
      * lia.
  - destruct (memories_after_update rowid updates s) as (f & Hm & Hf & Hq).
    rewrite Hm, Hq, (map_id_update_where_id rowid f _ Hf).
    split; [split; assumption|lia].
  - destruct (memories_after_delete rowid s) as (Hm & Hq).
    rewrite Hm, Hq. split; [split|lia].
    + apply unique_keys_after_delete. exact ND.
    + intros i Hi. apply Hb. apply in_map_iff in Hi.
      destruct Hi as (m & <- & Hin). apply filter_In in Hin.
      apply in_map. tauto.
  - destruct (memories_after_view now rowid s) as (Hm & Hq).
    rewrite Hm, Hq, (map_id_update_where_id rowid _ _ (viewed_id _)).
    split; [split; assumption|lia].
Qed.

Lemma rowids_sound_run (ops : list MemoryOp) (s : Store) :
  rowids_sound s ->
  rowids_sound (run ops s) /\ memories_seq s <= memories_seq (run ops s).
Proof.
  revert s. induction ops as [|op ops IH]; intros s H; simpl.
  - split; [exact H|lia].
  - destruct (rowids_sound_step op s H) as [H1 H2].
    destruct (IH _ H1) as [H3 H4]. split; [exact H3|lia].
Qed.

(** X1.  Row ids are a key and are never reused.  Whatever sequence of
    [addMemory], [updateMemory], [deleteMemory] and [incrementViewCount]
    calls is made on a store whose ids are distinct and bounded by the
    table's sequence, the ids stay distinct, and the id the next
    [addMemory] returns is larger than every id the table holds or held
    at the start, deleted rows included. *)
Theorem memory_ids_never_reused (ops : list MemoryOp) (memory : NewMemory.t)
    (s : Store) :
  rowids_sound s ->
  let s' := run ops s in
  NoDup (map Memory.id (memories s'))
  /\ exists rowid,
       outcome (addMemory memory) s' = Fulfilled rowid
       /\ (forall i, In i (map Memory.id (memories s)) -> i < rowid)
       /\ (forall i, In i (map Memory.id (memories s')) -> i < rowid).
Proof.
  intros H. cbv zeta.
  destruct (rowids_sound_run ops s H) as [[ND Hb] Hmono].
  split; [exact ND|].
  destruct (memories_after_add memory (run ops s)) as (Ho & _).
  eexists. split; [exact Ho|].
  unfold next_rowid. destruct H as [_ Hb0].
  split; intros i Hi; [specialize (Hb0 i Hi)|specialize (Hb i Hi)]; lia.
Qed.

Lemma rowids_sound_empty : rowids_sound empty.
Proof. split; [constructor|intros i []]. Qed.

(** Three notes are added to an empty database and the last is deleted:
    the next note gets id 4, not the freed 3. *)
Lemma memory_ids_never_reused_witness :
  let ops := [Op_add (Sample.note "a" "2024-01-01T08:00:00.000Z" None);
              Op_add (Sample.note "b" "2024-01-01T09:00:00.000Z" None);
              Op_add (Sample.note "c" "2024-01-01T10:00:00.000Z" None);
              Op_delete 3] in
  map Memory.id (memories (run ops empty)) = [1; 2]
  /\ exists rowid,
       outcome (addMemory (Sample.note "d" "2024-01-01T11:00:00.000Z" None))
               (run ops empty) = Fulfilled rowid
       /\ rowid = 4.
Proof.
  cbv zeta. split; [reflexivity|].
  destruct (memory_ids_never_reused
              [Op_add (Sample.note "a" "2024-01-01T08:00:00.000Z" None);
               Op_add (Sample.note "b" "2024-01-01T09:00:00.000Z" None);
               Op_add (Sample.note "c" "2024-01-01T10:00:00.000Z" None);
               Op_delete 3]
              (Sample.note "d" "2024-01-01T11:00:00.000Z" None)
              empty rowids_sound_empty) as (_ & rowid & Ho & _).
  exists rowid. split; [exact Ho|].
  vm_compute in Ho. injection Ho as <-. reflexivity.
Defined.

Lemma deleteMemory_eq (rowid : Z) (s : Store) :
  deleteMemory rowid s =
  (Fulfilled tt, store_after (deleteMemory rowid) s).
Proof.
  unfold store_after, deleteMemory. rewrite await_getDatabase. reflexivity.
Qed.

Lemma addMemory_eta (memory : NewMemory.t) (s : Store) :
  addMemory memory s =
  (Fulfilled (next_rowid (memories_seq s) (map Memory.id (memories s))),
   store_after (addMemory memory) s).
Proof.
  pose proof (memories_after_add memory s) as (Ho & _).
  unfold outcome, store_after in *.
  destruct (addMemory memory s) as [r s']. simpl in *. rewrite Ho. reflexivity.
Qed.

Lemma getAllMemories_eta (s : Store) :
  exists s', getAllMemories s = (Fulfilled (by_createdAt_desc (memories s)), s')
             /\ memories s' = memories s.
Proof.
  unfold getAllMemories. rewrite await_getDatabase.
  destruct (getDatabase_tables s) as (_ & Hm & _).
  eexists. unfold query. rewrite Hm. split; [reflexivity|exact Hm].
Qed.

(** X2.  Deleting the row [addMemory] has just inserted, by the id it
    returned, restores the table, and [getAllMemories] then answers as
    it did before the insertion. *)
Theorem add_then_delete_restores (memory : NewMemory.t) (s : Store) :
  exists rowid,
    outcome (addMemory memory) s = Fulfilled rowid
    /\ memories (store_after (deleteMemory rowid)
                   (store_after (addMemory memory) s)) = memories s
    /\ outcome (_ <- addMemory memory ;; _ <- deleteMemory rowid ;;
                getAllMemories) s = outcome getAllMemories s.
Proof.
  destruct (memories_after_add memory s) as (Ho & Hm & _).
  eexists. split; [exact Ho|].
  set (rowid := next_rowid _ _) in *.
  assert (E : memories (store_after (deleteMemory rowid)
                          (store_after (addMemory memory) s)) = memories s).
  { rewrite (proj1 (memories_after_delete _ _)), Hm, filter_app. simpl.
    rewrite Z.eqb_refl. simpl. rewrite app_nil_r.
    apply filter_all. intros m Hin.
    destruct (Z.eqb_spec (Memory.id m) rowid) as [E|]; [|reflexivity].
    exfalso. apply (next_rowid_fresh (memories_seq s)
                      (map Memory.id (memories s))).
    fold rowid. rewrite <- E. apply in_map. exact Hin. }
  split; [exact E|].
  rewrite getAllMemories_eq.
  unfold outcome, await. rewrite addMemory_eta, deleteMemory_eq.
  fold rowid.
  destruct (getAllMemories_eta
              (store_after (deleteMemory rowid)
                 (store_after (addMemory memory) s))) as (s' & G & _).
  rewrite G, E. reflexivity.
Qed.

(** X3.  After [addMemory], [getAllMemories] lists what it listed
    before and the new row, once, still newest first; [getMemoryCount]
    has grown by one; the new row carries the submitted content and type,
    a view count of 0 and an id no listed row had. *)
Theorem added_memory_is_listed_once (memory : NewMemory.t) (s : Store) :
  exists before after row,
    outcome getAllMemories s = Fulfilled before
    /\ outcome (_ <- addMemory memory ;; getAllMemories) s = Fulfilled after
    /\ Permutation after (row :: before)
    /\ newest_first after
    /\ outcome (_ <- addMemory memory ;; getMemoryCount) s
       = Fulfilled (Z.of_nat (List.length before) + 1)
    /\ Memory.content row = NewMemory.content memory
    /\ Memory.contentType row = NewMemory.contentType memory
    /\ Memory.viewCount row = 0
    /\ ~ In (Memory.id row) (map Memory.id before).
Proof.
  destruct (memories_after_add memory s) as (Ho & Hm & _).
  set (rowid := next_rowid _ _) in *.
  exists (by_createdAt_desc (memories s)).
  exists (by_createdAt_desc (memories s ++ [new_row rowid memory])).
  exists (new_row rowid memory).
  split; [apply getAllMemories_eq|].
  split; [|split; [|split; [|split]]].
  - unfold outcome, await. rewrite addMemory_eta.
    destruct (getAllMemories_eta (store_after (addMemory memory) s))
      as (s' & G & _).
    rewrite G, Hm. reflexivity.
  - unfold by_createdAt_desc, order_by_desc.
    rewrite sort_permutation. rewrite Permutation_app_comm. simpl.
    constructor. symmetry. apply sort_permutation.
  - apply by_createdAt_desc_sorted.
  - unfold outcome, await. rewrite addMemory_eta.
    unfold getMemoryCount. rewrite await_getDatabase.
    destruct (getDatabase_tables (store_after (addMemory memory) s))
      as (_ & Hm' & _).
    unfold query. simpl. rewrite Hm', Hm. f_equal.
    rewrite length_app. simpl.
    unfold by_createdAt_desc, order_by_desc.
    rewrite (Permutation_length (sort_permutation _ (memories s))). lia.
  - repeat split.
    intros Hin. apply (next_rowid_fresh (memories_seq s)
                         (map Memory.id (memories s))).
    fold rowid. simpl in Hin.
    eapply Permutation_in; [|exact Hin].
    apply Permutation_map. apply sort_permutation.
Qed.
End RowIds.

(** ** Selections *)

Section SortFilter.
Import Database Spec Invariant Behaviour.
Context {A : Type} (before : A -> A -> comparison).
Hypothesis before_asym : forall a b, before a b = Lt -> before b a <> Lt.
Hypothesis may_precede_trans :
  forall a b c, may_precede before a b -> may_precede before b c ->
                may_precede before a c.

Lemma insert_first (x : A) (l : list A) :
  Forall (may_precede before x) l -> Stable.insert before x l = x :: l.
Proof.
  intros H. destruct l as [|y l]; [reflexivity|]. simpl.
  inversion H as [|? ? Hy _]; subst. unfold may_precede in Hy.
  destruct (before y x); congruence.
Qed.

Lemma filter_insert (keep : A -> bool) (x : A) (l : list A) :
  StronglySorted (may_precede before) l ->
  filter keep (Stable.insert before x l) =
  if keep x then Stable.insert before x (filter keep l) else filter keep l.
Proof.
  induction 1 as [|y l Hl IH Hy]; simpl.
  - destruct (keep x); reflexivity.
  - destruct (before y x) eqn:E.
    + simpl. destruct (keep x) eqn:Kx; [|reflexivity].
      symmetry. apply insert_first.
      assert (Hxy : may_precede before x y)
        by (unfold may_precede; congruence).
      destruct (keep y); [constructor; [exact Hxy|]|];
        apply Forall_forall; intros z Hz; apply filter_In in Hz;
        rewrite Forall_forall in Hy;
        apply (may_precede_trans x y z Hxy); apply Hy; tauto.
    + simpl. rewrite IH. destruct (keep y), (keep x); simpl;
        rewrite ?E; reflexivity.
    + simpl. destruct (keep x) eqn:Kx; [|reflexivity].
      symmetry. apply insert_first.
      assert (Hxy : may_precede before x y)
        by (unfold may_precede; congruence).
      destruct (keep y); [constructor; [exact Hxy|]|];
        apply Forall_forall; intros z Hz; apply filter_In in Hz;
        rewrite Forall_forall in Hy;
        apply (may_precede_trans x y z Hxy); apply Hy; tauto.
Qed.

(** Selecting rows and sorting them can be done in either order. *)
Lemma filter_sort (keep : A -> bool) (l : list A) :
  filter keep (Stable.sort before l) = Stable.sort before (filter keep l).
Proof.
  induction l as [|x l IH]; simpl; [reflexivity|].
  rewrite filter_insert by (apply sort_sorted; assumption).
  rewrite IH. destruct (keep x); reflexivity.
Qed.
End SortFilter.

Section Listings.
Import Database Spec Invariant Behaviour.

Lemma filter_by_createdAt_desc (keep : Memory.t -> bool) (rows : list Memory.t) :
  filter keep (by_createdAt_desc rows) = by_createdAt_desc (filter keep rows).
Proof.
  unfold by_createdAt_desc, order_by_desc. apply filter_sort.
  - intros a b. apply string_lt_asym.
  - intros a b c. unfold may_precede. apply string_not_lt_trans.
Qed.

Lemma getMemoriesByType_eq (type : ContentType) (s : Store) :
  outcome (getMemoriesByType type) s =
  Fulfilled (by_createdAt_desc
               (filter (fun m => ContentType_eqb (Memory.contentType m) type)
                       (memories s))).
Proof.
  unfold outcome, getMemoriesByType. rewrite await_getDatabase.
  destruct (getDatabase_tables s) as (_ & Hm & _).
  unfold query. simpl. rewrite Hm. reflexivity.
Qed.

Lemma ContentType_eqb_eq (a b : ContentType) :
  ContentType_eqb a b = true <-> a = b.
Proof. destruct a, b; simpl; split; congruence. Qed.

(** X4.  [getMemoriesByType] answers with the rows of [getAllMemories]
    that have the type, in the order [getAllMemories] gives them: the
    selection and the sorting commute. *)
Theorem memories_by_type_are_the_listed_ones (type : ContentType) (s : Store) :
  exists all selected,
    outcome getAllMemories s = Fulfilled all
    /\ outcome (getMemoriesByType type) s = Fulfilled selected
    /\ selected
       = filter (fun m => ContentType_eqb (Memory.contentType m) type) all
    /\ (forall m, In m selected <->
                  In m (memories s) /\ Memory.contentType m = type)
    /\ newest_first selected.
Proof.
  eexists. eexists. split; [apply getAllMemories_eq|].
  split; [apply getMemoriesByType_eq|].
  split; [symmetry; apply filter_by_createdAt_desc|]. split.
  - intros m. unfold by_createdAt_desc, order_by_desc. split.
    + intros H. eapply Permutation_in in H; [|apply sort_permutation].
      apply filter_In in H. rewrite ContentType_eqb_eq in H. exact H.
    + intros H. eapply Permutation_in; [symmetry; apply sort_permutation|].
      apply filter_In. rewrite ContentType_eqb_eq. exact H.
  - apply by_createdAt_desc_sorted.
Qed.

Lemma getRecentMemories_eq (n : nat) (s : Store) :
  outcome (getRecentMemories n) s =
  Fulfilled (firstn n (by_createdAt_desc (memories s))).
Proof.
  unfold outcome, getRecentMemories. rewrite await_getDatabase.
  destruct (getDatabase_tables s) as (_ & Hm & _).
  unfold query, limit. simpl. rewrite Hm. reflexivity.
Qed.

Lemma getMemoryCount_eq (s : Store) :
  outcome getMemoryCount s = Fulfilled (Z.of_nat (List.length (memories s))).
Proof.
  unfold outcome, getMemoryCount. rewrite await_getDatabase.
  destruct (getDatabase_tables s) as (_ & Hm & _).
  unfold query. simpl. rewrite Hm. reflexivity.
Qed.

Lemma length_by_createdAt_desc (rows : list Memory.t) :
  List.length (by_createdAt_desc rows) = List.length rows.
Proof. apply Permutation_length. apply sort_permutation. Qed.

(** X5.  [getRecentMemories(n)] answers with the first [n] rows of
    [getAllMemories], all of them when the table holds no more than
    [n]; its length is the smaller of [n] and [getMemoryCount]. *)
Theorem recent_memories_are_a_prefix (n : nat) (s : Store) :
  exists all recent rest count,
    outcome getAllMemories s = Fulfilled all
    /\ outcome (getRecentMemories n) s = Fulfilled recent
    /\ outcome getMemoryCount s = Fulfilled count
    /\ all = recent ++ rest
    /\ Z.of_nat (List.length recent) = Z.min (Z.of_nat n) count
    /\ (count <= Z.of_nat n -> recent = all).
Proof.
  exists (by_createdAt_desc (memories s)).
  exists (firstn n (by_createdAt_desc (memories s))).
  exists (skipn n (by_createdAt_desc (memories s))).
  exists (Z.of_nat (List.length (memories s))).
  split; [apply getAllMemories_eq|].
  split; [apply getRecentMemories_eq|].
  split; [apply getMemoryCount_eq|].
  split; [symmetry; apply firstn_skipn|].
  rewrite length_firstn, length_by_createdAt_desc.
  split; [lia|].
  intros H. apply firstn_all2. rewrite length_by_createdAt_desc. lia.
Qed.

Lemma getMemoriesByDateRange_eq (startDate endDate : string) (s : Store) :
  outcome (getMemoriesByDateRange startDate endDate) s =
  Fulfilled (by_createdAt_desc
               (filter (fun m => String.leb startDate (Memory.createdAt m)
                                 && String.leb (Memory.createdAt m) endDate)
                       (memories s))).
Proof.
  unfold outcome, getMemoriesByDateRange. rewrite await_getDatabase.
  destruct (getDatabase_tables s) as (_ & Hm & _).
  unfold query. simpl. rewrite Hm. reflexivity.
Qed.

Lemma string_leb_trans (a b c : string) :
  String.leb a b = true -> String.leb b c = true -> String.leb a c = true.
Proof.
  unfold String.leb. intros H1 H2.
  assert (G1 : String.compare b a <> Lt).
  { rewrite (String.compare_antisym b a).
    destruct (String.compare a b); simpl; congruence. }
  assert (G2 : String.compare c b <> Lt).
  { rewrite (String.compare_antisym c b).
    destruct (String.compare b c); simpl; congruence. }
  pose proof (string_not_lt_trans c b a G2 G1) as G.
  rewrite (String.compare_antisym c a) in G.
  destruct (String.compare a c); simpl in *; congruence.
Qed.

(** X6.  [getMemoriesByDateRange] answers with exactly the rows whose
    [createdAt] lies between the two bounds in the order of strings,
    bounds included, newest first; with the bounds the wrong way round
    it answers with no row. *)
Theorem memories_by_date_range (startDate endDate : string) (s : Store) :
  exists selected,
    outcome (getMemoriesByDateRange startDate endDate) s = Fulfilled selected
    /\ (forall m, In m selected <->
                  In m (memories s)
                  /\ String.leb startDate (Memory.createdAt m) = true
                  /\ String.leb (Memory.createdAt m) endDate = true)
    /\ newest_first selected
    /\ (String.leb startDate endDate = false -> selected = []).
Proof.
  eexists. split; [apply getMemoriesByDateRange_eq|].
  split; [|split; [apply by_createdAt_desc_sorted|]].
  - intros m. unfold by_createdAt_desc, order_by_desc. split.
    + intros H. eapply Permutation_in in H; [|apply sort_permutation].
      apply filter_In in H. rewrite andb_true_iff in H. tauto.
    + intros H. eapply Permutation_in; [symmetry; apply sort_permutation|].
      apply filter_In. rewrite andb_true_iff. tauto.
  - intros H. rewrite filter_none; [reflexivity|].
    intros m _. apply not_true_is_false. intros E.
    apply andb_true_iff in E. destruct E as [E1 E2].
    rewrite (string_leb_trans _ _ _ E1 E2) in H. discriminate.
Qed.
End Listings.

(** ** Views, updates and preferences *)

Section RowUpdates.
Import Database Spec Invariant Behaviour.

Lemma viewed_same_but_views (at_ : string) (m : Memory.t) :
  same_but_views m (viewed at_ m)
  /\ Memory.viewCount (viewed at_ m) = Memory.viewCount m + 1
  /\ Memory.lastViewedAt (viewed at_ m) = Some at_.
Proof. destruct m. unfold same_but_views. simpl. repeat split. Qed.

Lemma same_but_views_refl (m : Memory.t) : same_but_views m m.
Proof. unfold same_but_views. repeat split. Qed.

Lemma same_but_views_trans (a b c : Memory.t) :
  same_but_views a b -> same_but_views b c -> same_but_views a c.
Proof.
  unfold same_but_views. intros H1 H2.
  repeat match goal with H : _ /\ _ |- _ => destruct H end.
  repeat split; congruence.
Qed.

Lemma last_view_snoc (times : list Z) (now : Z) (previous : option string) :
  last_view (times ++ [now]) previous = Some (JSDate.toISOString now).
Proof. unfold last_view. rewrite fold_left_app. reflexivity. Qed.

Lemma views_snoc (times : list Z) (now rowid : Z) (s : Store) :
  views (times ++ [now]) rowid s
  = store_after (incrementViewCount now rowid) (views times rowid s).
Proof. unfold views. rewrite fold_left_app. reflexivity. Qed.

(** X7.  [incrementViewCount], which the detail screen calls each time
    a record is opened, counts the views: after the record [rowid] was
    opened at each of [times], its [viewCount] has grown by their number
    and its [lastViewedAt] is the time of the last one; nothing else
    of it has changed, and every other row is as it was. *)
Theorem view_count_counts_views (times : list Z) (rowid : Z) (s : Store) :
  Forall2
    (fun old new =>
       same_but_views old new
       /\ if Memory.id old =? rowid
          then Memory.viewCount new
               = Memory.viewCount old + Z.of_nat (List.length times)
               /\ Memory.lastViewedAt new
                  = last_view times (Memory.lastViewedAt old)
          else new = old)
    (memories s) (memories (views times rowid s)).
Proof.
  induction times as [|now times IH] using rev_ind.
  - simpl. induction (memories s) as [|m l IHl]; constructor; [|exact IHl].
    split; [apply same_but_views_refl|].
    destruct (Memory.id m =? rowid); [|reflexivity].
    split; [lia|reflexivity].
  - rewrite views_snoc, (proj1 (memories_after_view _ _ _)).
    unfold update_where_id.
    induction IH as [|old mid l l' [Hs Hv] _ IHl]; simpl; constructor;
      [|exact IHl].
    assert (Eid : Memory.id mid = Memory.id old)
      by (destruct Hs as [E _]; congruence).
    rewrite Eid. destruct (Memory.id old =? rowid).
    + destruct (viewed_same_but_views (JSDate.toISOString now) mid)
        as (Hs' & Hc & Hl).
      split; [eapply same_but_views_trans; eassumption|].
      destruct Hv as [Hv1 Hv2]. rewrite Hc, Hv1, Hl, last_view_snoc.
      rewrite length_app. simpl. split; [lia|reflexivity].
    + subst mid. split; [exact Hs|reflexivity].
Qed.

Lemma fold_assign_last_content (fields : list MemoryEntry) (c : string)
    (m : Memory.t) :
  Memory.content
    (fold_left (fun m e => assign e m) (fields ++ [E_content c]) m) = c.
Proof.
  rewrite fold_left_app. simpl.
  destruct (fold_left _ fields m). reflexivity.
Qed.

Lemma updateMemory_rows (rowid : Z) (updates : list MemoryEntry) (s : Store) :
  memories (store_after (updateMemory rowid updates) s)
  = update_where_id rowid
      (fun m => fold_left (fun m e => assign e m)
                  (filter (fun e => negb (is_id_entry e)) updates) m)
      (memories s).
Proof.
  unfold store_after, updateMemory. rewrite await_getDatabase.
  destruct (getDatabase_tables s) as (_ & Hm & _).
  destruct (filter _ updates) as [|e l] eqn:E; simpl.
  - rewrite Hm. symmetry. apply update_where_id_same.
  - rewrite Hm. reflexivity.
Qed.

(** X8.  [updateMemory] changes no id and no row other than the one
    with the given id; an [id] entry among the updates is ignored; and
    an update that ends with a [content] entry leaves the row with that
    content, whatever the entries before it. *)
Theorem updateMemory_touches_one_row (rowid : Z) (updates : list MemoryEntry)
    (s : Store) :
  let rows := memories (store_after (updateMemory rowid updates) s) in
  map Memory.id rows = map Memory.id (memories s)
  /\ Forall2 (fun old new => Memory.id old <> rowid -> new = old)
             (memories s) rows
  /\ (forall v,
      memories (store_after (updateMemory rowid (E_id v :: updates)) s) = rows)
  /\ (forall c,
      Forall2 (fun old new =>
                 Memory.id old = rowid -> Memory.content new = c)
              (memories s)
              (memories (store_after
                           (updateMemory rowid (updates ++ [E_content c])) s))).
Proof.
  cbv zeta. rewrite updateMemory_rows. split; [|split; [|split]].
  - apply map_id_update_where_id. intros m.
    generalize (filter (fun e => negb (is_id_entry e)) updates). intros l.
    revert m. induction l as [|e l IH]; intros m; simpl; [reflexivity|].
    rewrite IH. apply assign_id.
  - unfold update_where_id.
    induction (memories s) as [|m l IH]; simpl; constructor; [|exact IH].
    destruct (Z.eqb_spec (Memory.id m) rowid); [tauto|reflexivity].
  - intros v. rewrite updateMemory_rows. reflexivity.
  - intros c. rewrite updateMemory_rows, filter_app. simpl.
    unfold update_where_id.
    induction (memories s) as [|m l IH]; simpl; constructor; [|exact IH].
    intros E. rewrite E, Z.eqb_refl. apply fold_assign_last_content.
Qed.

Lemma getDatabase_preferences (s : Store) :
  preferences_of (store_after getDatabase s) = preferences_of s
  /\ (preferences_exist s -> user_preferences (store_after getDatabase s) <> None).
Proof.
  unfold store_after, getDatabase, preferences_of, preferences_exist.
  destruct (db s) eqn:E; simpl.
  - split; [reflexivity|auto].
  - destruct (user_preferences s); split; try reflexivity; discriminate.
Qed.

Lemma getUserPreferences_eq (s : Store) :
  getUserPreferences s = (Fulfilled (preferences_of s), store_after getDatabase s).
Proof.
  unfold getUserPreferences. rewrite await_getDatabase.
  unfold query. rewrite <- (proj1 (getDatabase_preferences s)). reflexivity.
Qed.

Lemma updateUserPreferences_eq (updates : list PreferenceEntry) (s : Store) :
  preferences_exist s ->
  exists s',
    updateUserPreferences updates s = (Fulfilled tt, s')
    /\ db s' = true
    /\ memories s' = memories s /\ focus_goals s' = focus_goals s
    /\ user_preferences s' =
       Some (fold_left (fun p e => assign_preference e p)
               (filter (fun e => negb (is_id_preference e)) updates)
               (preferences_of s)).
Proof.
  intros Hex. unfold updateUserPreferences. rewrite await_getDatabase.
  destruct (getDatabase_tables s) as (Hdb & Hm & _ & Hg & _).
  destruct (getDatabase_preferences s) as (Hp & Hn). specialize (Hn Hex).
  set (s0 := store_after getDatabase s) in *.
  unfold preferences_of in Hp.
  destruct (user_preferences s0) as [p|] eqn:Ep; [|congruence].
  destruct (filter _ updates) as [|e l] eqn:E; simpl.
  - exists s0. repeat split; auto. rewrite Ep. f_equal. exact Hp.
  - eexists. split; [reflexivity|]. simpl. rewrite Ep. simpl.
    repeat split; auto. rewrite Hp. reflexivity.
Qed.

Lemma assign_preference_id (e : PreferenceEntry) (p : UserPreferences.t) :
  UserPreferences.id (assign_preference e p) = UserPreferences.id p.
Proof. destruct p, e; reflexivity. Qed.

(** X9.  Preferences round trip.  Where the singleton row exists,
    [getUserPreferences] after [updateUserPreferences] yields the
    previous preferences with the updates applied in order, the [id]
    kept; an update that ends with [locationEnabled] leaves that value
    and the other columns as the earlier entries set them; the row still
    exists afterwards and the memories are untouched. *)
Theorem preferences_round_trip (updates : list PreferenceEntry) (s : Store) :
  preferences_exist s ->
  exists before after,
    outcome getUserPreferences s = Fulfilled before
    /\ outcome (_ <- updateUserPreferences updates ;; getUserPreferences) s
       = Fulfilled after
    /\ after = fold_left (fun p e => assign_preference e p)
                 (filter (fun e => negb (is_id_preference e)) updates) before
    /\ UserPreferences.id after = UserPreferences.id before
    /\ (forall b,
        exists toggled,
          outcome (_ <- updateUserPreferences (updates ++ [P_locationEnabled b]) ;;
                   getUserPreferences) s = Fulfilled toggled
          /\ UserPreferences.locationEnabled toggled = b
          /\ UserPreferences.displayName toggled = UserPreferences.displayName after
          /\ UserPreferences.avatarIndex toggled = UserPreferences.avatarIndex after
          /\ UserPreferences.themeMode toggled = UserPreferences.themeMode after)
    /\ preferences_exist (store_after (updateUserPreferences updates) s)
    /\ memories (store_after (updateUserPreferences updates) s) = memories s.
Proof.
  intros Hex.
  assert (Hget : forall ups,
            outcome (_ <- updateUserPreferences ups ;; getUserPreferences) s
            = Fulfilled (fold_left (fun p e => assign_preference e p)
                           (filter (fun e => negb (is_id_preference e)) ups)
                           (preferences_of s))).
  { intros ups. destruct (updateUserPreferences_eq ups s Hex)
      as (s' & E & _ & _ & _ & Hp).
    unfold outcome, await. rewrite E, getUserPreferences_eq. simpl.
    unfold preferences_of. rewrite Hp. reflexivity. }
  eexists. eexists. split; [unfold outcome; rewrite getUserPreferences_eq; reflexivity|].
  split; [apply Hget|]. split; [reflexivity|]. split; [|split; [|split]].
  - generalize (filter (fun e => negb (is_id_preference e)) updates).
    intros l. generalize (preferences_of s).
    induction l as [|e l IH]; intros p; simpl; [reflexivity|].
    rewrite IH. apply assign_preference_id.
  - intros b. eexists. split; [apply Hget|].
    rewrite filter_app, fold_left_app. simpl.
    destruct (fold_left _ _ (preferences_of s)). simpl. auto.
  - destruct (updateUserPreferences_eq updates s Hex)
      as (s' & E & _ & _ & _ & Hp).
    unfold store_after. rewrite E. simpl. intros _. rewrite Hp. discriminate.
  - destruct (updateUserPreferences_eq updates s Hex)
      as (s' & E & _ & Hm & _).
    unfold store_after. rewrite E. exact Hm.
Qed.

Lemma preferences_round_trip_witness :
  let opened := store_after initDatabase empty in
  preferences_exist opened
  /\ exists after,
       outcome (_ <- updateUserPreferences
                       [P_displayName "Sam"; P_id 7; P_avatarIndex 3] ;;
                getUserPreferences) opened = Fulfilled after
       /\ UserPreferences.id after = 1.
Proof.
  cbv zeta.
  assert (H : preferences_exist (store_after initDatabase empty))
    by (intros _; discriminate).
  split; [exact H|].
  destruct (preferences_round_trip
              [P_displayName "Sam"; P_id 7; P_avatarIndex 3]
              (store_after initDatabase empty) H)
    as (before & after & Hb & Ha & _ & Hid & _).
  exists after. split; [exact Ha|]. rewrite Hid.
  vm_compute in Hb. injection Hb as <-. reflexivity.
Defined.

(** X10.  [setActiveFocusGoal] changes nothing of a goal but its
    [isActive]; with [null], or with an id no goal has, it leaves no goal
    active; with an id, no goal with another id is active afterwards;
    and calling it twice is calling it once. *)
Theorem activation_edge_cases (s : Store) (rowid : option Z) :
  let after := focus_goals (store_after (setActiveFocusGoal rowid) s) in
  map goal_identity after = map goal_identity (focus_goals s)
  /\ (rowid = None -> active_goals after = [])
  /\ (forall i, rowid = Some i ->
                ~ In i (map FocusGoal.id (focus_goals s)) ->
                active_goals after = [])
  /\ (forall i, rowid = Some i ->
                forall g, In g (active_goals after) -> FocusGoal.id g = i)
  /\ focus_goals (store_after (setActiveFocusGoal rowid)
                    (store_after (setActiveFocusGoal rowid) s)) = after.
Proof.
  cbv zeta.
  assert (Hset : forall s0,
            focus_goals (store_after (setActiveFocusGoal rowid) s0) =
            match rowid with
            | Some i => map (activate_row i)
                            (map (set_isActive false) (focus_goals s0))
            | None => map (set_isActive false) (focus_goals s0)
            end) by (intros s0; apply setActiveFocusGoal_goals).
  rewrite !Hset. split; [|split; [|split; [|split]]].
  - destruct rowid as [i|]; rewrite !map_map; apply map_ext; intros g;
      unfold activate_row; simpl;
      try destruct (FocusGoal.id g =? i); reflexivity.
  - intros ->. apply active_goals_deactivated.
  - intros i -> H. apply active_goals_activate_absent. exact H.
  - intros i -> g Hg. unfold active_goals in Hg. apply filter_In in Hg.
    destruct Hg as [Hin Hact]. rewrite map_map in Hin.
    apply in_map_iff in Hin. destruct Hin as (g0 & <- & _).
    rewrite activate_deactivated in *. simpl in *.
    apply Z.eqb_eq. exact Hact.
  - destruct rowid as [i|]; rewrite !map_map; apply map_ext; intros g.
    + rewrite !activate_deactivated. simpl. reflexivity.
    + reflexivity.
Qed.
End RowUpdates.

(** ** Focus goals *)

Section GoalFacts.
Import Database Spec Invariant Behaviour.

Lemma goals_after_add (now : Z) (name : string) (s : Store) :
  let rowid :=
    next_rowid (focus_goals_seq s) (map FocusGoal.id (focus_goals s)) in
  outcome (addFocusGoal now name) s = Fulfilled rowid
  /\ focus_goals (store_after (addFocusGoal now name) s)
     = focus_goals s ++ [ {| FocusGoal.id := rowid;
                             FocusGoal.name := name;
                             FocusGoal.isActive := false;
                             FocusGoal.createdAt := JSDate.toISOString now |} ]
  /\ focus_goals_seq (store_after (addFocusGoal now name) s) = rowid
  /\ memories (store_after (addFocusGoal now name) s) = memories s
  /\ memories_seq (store_after (addFocusGoal now name) s) = memories_seq s
  /\ preferences_of (store_after (addFocusGoal now name) s) = preferences_of s.
Proof.
  cbv zeta. unfold outcome, store_after, addFocusGoal.
  rewrite await_getDatabase.
  destruct (getDatabase_tables s) as (_ & Hm & Hq & Hg & Hgq).
  pose proof (proj1 (getDatabase_preferences s)) as Hp.
  simpl. rewrite Hg, Hgq, Hm, Hq. repeat split; try reflexivity.
  rewrite <- Hp. reflexivity.
Qed.

Lemma goals_after_delete (rowid : Z) (s : Store) :
  focus_goals (store_after (deleteFocusGoal rowid) s)
  = filter (fun g => negb (FocusGoal.id g =? rowid)) (focus_goals s)
  /\ focus_goals_seq (store_after (deleteFocusGoal rowid) s) = focus_goals_seq s
  /\ memories (store_after (deleteFocusGoal rowid) s) = memories s
  /\ memories_seq (store_after (deleteFocusGoal rowid) s) = memories_seq s
  /\ preferences_of (store_after (deleteFocusGoal rowid) s) = preferences_of s.
Proof.
  unfold store_after, deleteFocusGoal. rewrite await_getDatabase.
  destruct (getDatabase_tables s) as (_ & Hm & Hq & Hg & Hgq).
  pose proof (proj1 (getDatabase_preferences s)) as Hp.
  simpl. rewrite Hg, Hgq, Hm, Hq. repeat split; try reflexivity.
  rewrite <- Hp. reflexivity.
Qed.

Lemma goals_after_activate (rowid : option Z) (s : Store) :
  focus_goals_seq (store_after (setActiveFocusGoal rowid) s) = focus_goals_seq s
  /\ memories (store_after (setActiveFocusGoal rowid) s) = memories s
  /\ memories_seq (store_after (setActiveFocusGoal rowid) s) = memories_seq s
  /\ preferences_of (store_after (setActiveFocusGoal rowid) s) = preferences_of s.
Proof.
  unfold store_after, setActiveFocusGoal. rewrite await_getDatabase.
  destruct (getDatabase_tables s) as (_ & Hm & Hq & Hg & Hgq).
  pose proof (proj1 (getDatabase_preferences s)) as Hp.
  destruct rowid; simpl; rewrite Hgq, Hm, Hq; repeat split; try reflexivity;
    rewrite <- Hp; reflexivity.
Qed.

Lemma single_active_after_activate (rowid : option Z)
    (goals : list FocusGoal.t) :
  NoDup (map FocusGoal.id goals) ->
  single_active
    match rowid with
    | Some i => map (activate_row i) (map (set_isActive false) goals)
    | None => map (set_isActive false) goals
    end.
Proof.
  intros ND. unfold single_active. destruct rowid as [i|].
  - destruct (in_dec Z.eq_dec i (map FocusGoal.id goals)) as [Hin|Hout].
    + destruct (active_goals_activate_present i _ ND Hin) as (g & _ & _ & E).
      rewrite E. simpl. lia.
    + rewrite active_goals_activate_absent by exact Hout. simpl. lia.
  - rewrite active_goals_deactivated. simpl. lia.
Qed.

Lemma max_rowid_nonneg (ids : list Z) : 0 <= max_rowid ids.
Proof. induction ids; simpl; lia. Qed.

Lemma goals_sound_step (op : GoalOp) (s : Store) :
  goals_sound s -> goals_sound (apply_goal_op op s).
Proof.
  intros (ND & Hb & H1). unfold goals_sound.
  destruct op as [now name|rowid|rowid]; simpl.
  - split; [apply goal_ids_unique_addFocusGoal; exact ND|].
    destruct (goals_after_add now name s) as (_ & Hg & Hq & _).
    rewrite Hg, Hq. split.
    + intros i Hi. rewrite map_app in Hi. apply in_app_or in Hi.
      pose proof (max_rowid_nonneg (map FocusGoal.id (focus_goals s))).
      unfold next_rowid. destruct Hi as [Hi|[<-|[]]].
      * specialize (Hb i Hi). lia.
      * simpl. unfold next_rowid. lia.
    + unfold single_active, active_goals in *. rewrite filter_app. simpl.
      rewrite app_nil_r. exact H1.
  - split; [apply goal_ids_unique_setActiveFocusGoal; exact ND|].
    destruct (goals_after_activate rowid s) as (Hq & _).
    rewrite Hq, (proj2 (setActiveFocusGoal_goals rowid s)). split.
    + intros i Hi. apply Hb.
      destruct rowid; rewrite ?map_id_activate_row, map_id_set_isActive in Hi;
        exact Hi.
    + apply single_active_after_activate. exact ND.
  - split; [apply goal_ids_unique_deleteFocusGoal; exact ND|].
    destruct (goals_after_delete rowid s) as (Hg & Hq & _).
    rewrite Hg, Hq. split.
    + intros i Hi. apply Hb. apply in_map_iff in Hi.
      destruct Hi as (g & <- & Hin). apply filter_In in Hin.
      apply in_map. tauto.
    + unfold single_active, active_goals in *.
      pose proof (filter_filter_length FocusGoal.isActive
                    (fun g => negb (FocusGoal.id g =? rowid)) (focus_goals s)).
      lia.
Qed.

Lemma goals_sound_empty : goals_sound empty.
Proof.
  split; [apply goal_ids_unique_empty|]. split; [intros i []|].
  unfold single_active. simpl. lia.
Qed.

(** X11.  The goal table stays well kept under every sequence of
    [addFocusGoal], [setActiveFocusGoal] and [deleteFocusGoal] calls:
    ids stay distinct and bounded by the table's sequence, and at most
    one goal is active.  (C2 assumes the first of these.) *)
Theorem focus_goals_stay_sound (ops : list GoalOp) (s : Store) :
  goals_sound s -> goals_sound (run_goals ops s).
Proof.
  revert s. induction ops as [|op ops IH]; intros s H; simpl; [exact H|].
  apply IH. apply goals_sound_step. exact H.
Qed.

Lemma focus_goals_stay_sound_witness :
  goals_sound empty
  /\ goals_sound
       (run_goals [Op_addGoal Sample.jan1_0800 "work";
                   Op_addGoal Sample.jan1_0800 "study";
                   Op_activate (Some 1); Op_activate (Some 2);
                   Op_deleteGoal 1; Op_addGoal Sample.jan1_0800 "rest"]
                  empty).
Proof.
  split; [apply goals_sound_empty|].
  apply focus_goals_stay_sound. apply goals_sound_empty.
Defined.

(** X12.  The three tables are independent: no call on the memories
    changes the goals or the preferences, no call on the goals changes
    the memories or the preferences, and [updateUserPreferences] changes
    neither table. *)
Theorem tables_are_independent (ops : list MemoryOp) (gops : list GoalOp)
    (updates : list PreferenceEntry) (s : Store) :
  (focus_goals (run ops s) = focus_goals s
   /\ focus_goals_seq (run ops s) = focus_goals_seq s
   /\ preferences_of (run ops s) = preferences_of s)
  /\ (memories (run_goals gops s) = memories s
      /\ memories_seq (run_goals gops s) = memories_seq s
      /\ preferences_of (run_goals gops s) = preferences_of s)
  /\ (memories (store_after (updateUserPreferences updates) s) = memories s
      /\ memories_seq (store_after (updateUserPreferences updates) s)
         = memories_seq s
      /\ focus_goals (store_after (updateUserPreferences updates) s)
         = focus_goals s
      /\ focus_goals_seq (store_after (updateUserPreferences updates) s)
         = focus_goals_seq s).
Proof.
  split; [|split].
  - revert s. induction ops as [|op ops IH]; intros s; simpl; [auto|].
    destruct (IH (apply_op op s)) as (H1 & H2 & H3).
    rewrite H1, H2, H3. clear.
    pose proof (proj1 (getDatabase_preferences s)) as Hp.
    destruct (getDatabase_tables s) as (_ & _ & _ & Hg & Hgq).
    destruct op as [memory|rowid updates|rowid|now rowid]; simpl;
      unfold store_after, addMemory, updateMemory, deleteMemory,
        incrementViewCount; rewrite await_getDatabase;
      try destruct (0 <? List.length _)%nat; simpl;
      rewrite ?Hg, ?Hgq; repeat split; try reflexivity;
      rewrite <- Hp; reflexivity.
  - revert s. induction gops as [|op gops IH]; intros s; simpl; [auto|].
    destruct (IH (apply_goal_op op s)) as (H1 & H2 & H3).
    rewrite H1, H2, H3. clear.
    destruct op as [now name|rowid|rowid]; simpl.
    + destruct (goals_after_add now name s) as (_ & _ & _ & Hm & Hq & Hp). auto.
    + destruct (goals_after_activate rowid s) as (_ & Hm & Hq & Hp). auto.
    + destruct (goals_after_delete rowid s) as (_ & _ & Hm & Hq & Hp). auto.
  - unfold store_after, updateUserPreferences. rewrite await_getDatabase.
    destruct (getDatabase_tables s) as (_ & Hm & Hq & Hg & Hgq).
    destruct (0 <? List.length _)%nat; simpl; auto.
Qed.

Lemma getFocusGoals_eq (s : Store) :
  outcome getFocusGoals s
  = Fulfilled (order_by_desc String.compare FocusGoal.createdAt (focus_goals s)).
Proof.
  unfold outcome, getFocusGoals. rewrite await_getDatabase.
  destruct (getDatabase_tables s) as (_ & _ & _ & Hg & _).
  unfold query. simpl. rewrite Hg. reflexivity.
Qed.

Lemma addFocusGoal_eta (now : Z) (name : string) (s : Store) :
  addFocusGoal now name s
  = (Fulfilled (next_rowid (focus_goals_seq s)
                           (map FocusGoal.id (focus_goals s))),
     store_after (addFocusGoal now name) s).
Proof.
  destruct (goals_after_add now name s) as (Ho & _).
  unfold outcome, store_after in *.
  destruct (addFocusGoal now name s) as [r s']. simpl in *. subst r.
  reflexivity.
Qed.

(** X13.  After [addFocusGoal], [getFocusGoals] lists what it listed
    before and the new goal, which has the given name, the current time
    and an id no listed goal had, and is not active; the active goals are
    the same as before; and deleting the new goal by the returned id
    restores the table. *)
Theorem new_goal_is_listed_inactive (now : Z) (name : string) (s : Store) :
  exists rowid before after,
    outcome (addFocusGoal now name) s = Fulfilled rowid
    /\ outcome getFocusGoals s = Fulfilled before
    /\ outcome (_ <- addFocusGoal now name ;; getFocusGoals) s
       = Fulfilled after
    /\ ~ In rowid (map FocusGoal.id before)
    /\ Permutation after
         ({| FocusGoal.id := rowid; FocusGoal.name := name;
             FocusGoal.isActive := false;
             FocusGoal.createdAt := JSDate.toISOString now |} :: before)
    /\ active_goals (focus_goals (store_after (addFocusGoal now name) s))
       = active_goals (focus_goals s)
    /\ focus_goals (store_after (deleteFocusGoal rowid)
                      (store_after (addFocusGoal now name) s))
       = focus_goals s.
Proof.
  destruct (goals_after_add now name s) as (Ho & Hg & _).
  set (rowid := next_rowid (focus_goals_seq s)
                           (map FocusGoal.id (focus_goals s))) in *.
  exists rowid. eexists. eexists.
  split; [exact Ho|]. split; [apply getFocusGoals_eq|].
  split; [|split; [|split; [|split]]].
  - unfold outcome, await. rewrite addFocusGoal_eta.
    fold (outcome getFocusGoals (store_after (addFocusGoal now name) s)).
    apply getFocusGoals_eq.
  - intros Hin.
    apply (next_rowid_fresh (focus_goals_seq s)
             (map FocusGoal.id (focus_goals s))).
    eapply Permutation_in; [|exact Hin].
    apply Permutation_map. apply sort_permutation.
  - rewrite Hg. unfold order_by_desc.
    etransitivity; [apply sort_permutation|].
    etransitivity; [apply Permutation_app_comm|]. simpl.
    constructor. symmetry. apply sort_permutation.
  - rewrite Hg. unfold active_goals. rewrite filter_app. simpl.
    apply app_nil_r.
  - rewrite (proj1 (goals_after_delete _ _)), Hg, filter_app. simpl.
    rewrite Z.eqb_refl. simpl. rewrite app_nil_r.
    apply filter_all. intros g Hin.
    destruct (Z.eqb_spec (FocusGoal.id g) rowid) as [E|]; [|reflexivity].
    exfalso.
    apply (next_rowid_fresh (focus_goals_seq s)
             (map FocusGoal.id (focus_goals s))).
    fold rowid. rewrite <- E. apply in_map. exact Hin.
Qed.

Lemma active_goals_after_delete (rowid : Z) (s : Store) :
  single_active (focus_goals s) ->
  let after := focus_goals (store_after (deleteFocusGoal rowid) s) in
  ~ In rowid (map FocusGoal.id after)
  /\ (forall g, In g (focus_goals s) -> FocusGoal.id g <> rowid -> In g after)
  /\ (forall g, In g (focus_goals s) -> FocusGoal.isActive g = true ->
                FocusGoal.id g = rowid -> active_goals after = [])
  /\ (forall g, In g (focus_goals s) -> FocusGoal.isActive g = true ->
                FocusGoal.id g <> rowid -> active_goals after = [g]).
Proof.
  intros H1. cbv zeta. rewrite (proj1 (goals_after_delete rowid s)).
  assert (Hone : forall g, In g (focus_goals s) -> FocusGoal.isActive g = true ->
                           active_goals (focus_goals s) = [g]).
  { intros g Hin Hact. unfold single_active in H1.
    assert (Hg : In g (active_goals (focus_goals s)))
      by (apply filter_In; auto).
    destruct (active_goals (focus_goals s)) as [|a [|b l]]; simpl in *.
    - tauto.
    - destruct Hg as [->|[]]. reflexivity.
    - lia. }
  assert (Hcomm : forall l,
            active_goals (filter (fun g => negb (FocusGoal.id g =? rowid)) l)
            = filter (fun g => negb (FocusGoal.id g =? rowid)) (active_goals l)).
  { intros l. unfold active_goals. induction l as [|a l IH]; simpl; [reflexivity|].
    destruct (FocusGoal.id a =? rowid) eqn:Ei, (FocusGoal.isActive a) eqn:E;
      simpl; rewrite ?E, ?Ei; simpl; rewrite IH; reflexivity. }
  split; [|split; [|split]].
  - intros Hin. apply in_map_iff in Hin. destruct Hin as (g & E & Hin).
    apply filter_In in Hin. destruct Hin as [_ Hin].
    rewrite E, Z.eqb_refl in Hin. discriminate.
  - intros g Hin Hne. apply filter_In. split; [exact Hin|].
    apply Z.eqb_neq in Hne. rewrite Hne. reflexivity.
  - intros g Hin Hact E. rewrite Hcomm, (Hone g Hin Hact). simpl.
    rewrite E, Z.eqb_refl. reflexivity.
  - intros g Hin Hact Hne. rewrite Hcomm, (Hone g Hin Hact). simpl.
    apply Z.eqb_neq in Hne. rewrite Hne. reflexivity.
Qed.

End GoalFacts.

(** ** Aggregates, profile and suggestions *)

Section ViewFacts.
Import Database Spec Invariant Behaviour.

Lemma sorted_prefix_dominates {A} (R : A -> A -> Prop) (n : nat) (l : list A) :
  StronglySorted R l ->
  forall x y, In x (firstn n l) -> In y (skipn n l) -> R x y.
Proof.
  intros H. revert n. induction H as [|a l Hs IH Ha]; intros n x y Hx Hy.
  - rewrite firstn_nil in Hx. destruct Hx.
  - destruct n as [|n]; simpl in *; [destruct Hx|].
    destruct Hx as [<-|Hx].
    + rewrite Forall_forall in Ha. apply Ha.
      rewrite <- (firstn_skipn n l). apply in_or_app. right. exact Hy.
    + apply (IH n); assumption.
Qed.

Lemma getFrequentlyViewedMemories_eq (s : Store) :
  outcome getFrequentlyViewedMemories s
  = Fulfilled
      (firstn 5 (order_by_desc Z.compare Memory.viewCount
                   (filter (fun m => 0 <? Memory.viewCount m) (memories s)))).
Proof.
  unfold outcome, getFrequentlyViewedMemories. rewrite await_getDatabase.
  destruct (getDatabase_tables s) as (_ & Hm & _).
  unfold query, limit. simpl. rewrite Hm. reflexivity.
Qed.

Lemma in_firstn {A} (n : nat) (l : list A) (x : A) :
  In x (firstn n l) -> In x l.
Proof.
  intros H. rewrite <- (firstn_skipn n l). apply in_or_app. left. exact H.
Qed.

(** X14.  [getFrequentlyViewedMemories] answers with at most five
    rows, each of the table and viewed at least once, most viewed first;
    no row left out has been viewed more often than a row returned; and
    when fewer than five are returned, every viewed row is among
    them. *)
Theorem frequently_viewed_are_the_most_viewed (s : Store) :
  exists rows,
    outcome getFrequentlyViewedMemories s = Fulfilled rows
    /\ (List.length rows <= 5)%nat
    /\ most_viewed_first rows
    /\ (forall m, In m rows -> In m (memories s) /\ 0 < Memory.viewCount m)
    /\ (forall m other,
          In m rows -> In other (memories s) -> ~ In other rows ->
          Memory.viewCount other <= Memory.viewCount m)
    /\ ((List.length rows < 5)%nat ->
        forall m, In m (memories s) -> 0 < Memory.viewCount m -> In m rows).
Proof.
  eexists. split; [apply getFrequentlyViewedMemories_eq|].
  set (viewed := filter (fun m => 0 <? Memory.viewCount m) (memories s)).
  set (sorted := order_by_desc Z.compare Memory.viewCount viewed).
  assert (Hperm : Permutation sorted viewed) by apply sort_permutation.
  assert (Hsorted : most_viewed_first sorted) by apply by_viewCount_desc_sorted.
  assert (Hin : forall m, In m sorted <->
                          In m (memories s) /\ 0 < Memory.viewCount m).
  { intros m. split.
    - intros H. apply (Permutation_in _ Hperm) in H. apply filter_In in H.
      destruct H as [H1 H2]. apply Z.ltb_lt in H2. auto.
    - intros [H1 H2]. apply (Permutation_in _ (Permutation_sym Hperm)).
      apply filter_In. split; [exact H1|]. apply Z.ltb_lt. exact H2. }
  split; [apply firstn_le_length|]. split; [|split; [|split]].
  - unfold most_viewed_first in *. rewrite <- (firstn_skipn 5 sorted) in Hsorted.
    revert Hsorted. generalize (firstn 5 sorted) (skipn 5 sorted).
    intros l1 l2. induction l1 as [|a l1 IH]; simpl; intros H; [constructor|].
    inversion H as [|? ? Hs Ha]; subst. constructor; [apply IH; exact Hs|].
    rewrite Forall_forall in *. intros x Hx. apply Ha. apply in_or_app. auto.
  - intros m Hm. apply Hin. eapply in_firstn. exact Hm.
  - intros m other Hm Ho Hno.
    assert (Hpos : 0 < Memory.viewCount m)
      by (apply Hin; eapply in_firstn; exact Hm).
    destruct (Z.ltb_spec 0 (Memory.viewCount other)) as [Hv|Hv]; [|lia].
    assert (Hos : In other sorted) by (apply Hin; auto).
    rewrite <- (firstn_skipn 5 sorted) in Hos. apply in_app_or in Hos.
    destruct Hos as [Hos|Hos]; [contradiction|].
    apply (sorted_prefix_dominates _ 5 sorted Hsorted m other Hm Hos).
  - intros Hlen m H1 H2.
    assert (Hall : firstn 5 sorted = sorted).
    { apply firstn_all2. rewrite length_firstn in Hlen. lia. }
    rewrite Hall. apply Hin. auto.
Qed.

End ViewFacts.

Section ProfileFacts.
Import Database Spec Invariant Behaviour.
Import ProfileScreen.

Lemma initDatabase_preferences (s : Store) :
  exists s0,
    initDatabase s = (Fulfilled tt, s0)
    /\ db s0 = true /\ memories s0 = memories s
    /\ focus_goals s0 = focus_goals s
    /\ user_preferences s0 = Some (preferences_of s).
Proof.
  eexists. split; [reflexivity|]. simpl. repeat split.
  unfold preferences_of. destruct (user_preferences s); reflexivity.
Qed.

(** X15.  What the profile screen shows after [loadData]: the stored
    preferences (the defaults on a fresh database, which the load also
    writes), the number of rows as the total, and a count for today
    between 0 and the total; the load leaves the memories alone. *)
Theorem profile_counters (now : Z) (s : Store) :
  exists st,
    outcome (loadData now) s = Fulfilled st
    /\ preferences st = Some (preferences_of s)
    /\ user_preferences (store_after (loadData now) s) = preferences st
    /\ totalMemories st = Z.of_nat (List.length (memories s))
    /\ 0 <= todayMemories st <= totalMemories st
    /\ memories (store_after (loadData now) s) = memories s.
Proof.
  destruct (initDatabase_preferences s) as (s0 & E0 & Hdb & Hm & _ & Hp).
  assert (Hload : loadData now s =
            (Fulfilled
               {| preferences := Some (preferences_of s);
                  totalMemories := Z.of_nat (List.length (memories s));
                  todayMemories :=
                    Z.of_nat
                      (List.length
                         (filter (fun m =>
                                    date_is (JSString.split_head "T"
                                               (JSDate.toISOString now))
                                            (Memory.createdAt m))
                                 (memories s))) |}, s0)).
  { unfold loadData, await. rewrite E0.
    unfold getUserPreferences, getMemoryCount, getTodayMemoryCount.
    rewrite !(query_eq _ s0 Hdb). unfold resolve.
    rewrite Hp, Hm. reflexivity. }
  eexists. unfold outcome, store_after. rewrite Hload. simpl.
  split; [reflexivity|]. split; [reflexivity|]. split; [exact Hp|].
  split; [reflexivity|]. split; [|exact Hm].
  split; [apply Nat2Z.is_nonneg|]. apply Nat2Z.inj_le. apply filter_length_le.
Qed.

Lemma updateUserPreferences_one (e : PreferenceEntry) (p : UserPreferences.t)
    (s : Store) :
  user_preferences s = Some p ->
  is_id_preference e = false ->
  exists s',
    updateUserPreferences [e] s = (Fulfilled tt, s')
    /\ user_preferences s' = Some (assign_preference e p)
    /\ memories s' = memories s /\ focus_goals s' = focus_goals s.
Proof.
  intros Hp He.
  assert (Hex : preferences_exist s) by (intros _; congruence).
  destruct (updateUserPreferences_eq [e] s Hex) as (s' & E & _ & Hm & Hg & Hp').
  exists s'. split; [exact E|]. split; [|auto].
  rewrite Hp'. simpl. rewrite He. simpl. unfold preferences_of. rewrite Hp.
  reflexivity.
Qed.

Lemma handleLocationToggle_eq (st : State) (s : Store)
    (p : UserPreferences.t) :
  preferences st = Some p ->
  user_preferences s = Some p ->
  let q := assign_preference
             (P_locationEnabled (negb (UserPreferences.locationEnabled p))) p in
  exists s',
    handleLocationToggle st s = (Fulfilled (with_preferences q st), s')
    /\ user_preferences s' = Some q.
Proof.
  intros Hst Hs q.
  destruct (updateUserPreferences_one
              (P_locationEnabled (negb (UserPreferences.locationEnabled p)))
              p s Hs eq_refl) as (s' & E & Hp' & _).
  exists s'. split; [|exact Hp'].
  unfold handleLocationToggle. rewrite Hst. unfold await. rewrite E.
  reflexivity.
Qed.

(** X16.  The profile's handlers keep the screen and the store in
    step.  When the screen shows the stored preferences,
    [handleAvatarChange] and [handleLocationToggle] leave it showing the
    stored preferences again, with the avatar set, respectively the
    location switch flipped, and nothing else changed; toggling twice
    restores both the screen and the store. *)
Theorem profile_stays_in_step (index : Z) (st : State) (s : Store)
    (p : UserPreferences.t) :
  preferences st = Some p ->
  user_preferences s = Some p ->
  (exists st' ,
     outcome (handleAvatarChange index st) s = Fulfilled st'
     /\ user_preferences (store_after (handleAvatarChange index st) s)
        = preferences st'
     /\ (exists p', preferences st' = Some p'
                    /\ UserPreferences.avatarIndex p' = index
                    /\ UserPreferences.locationEnabled p'
                       = UserPreferences.locationEnabled p
                    /\ UserPreferences.displayName p'
                       = UserPreferences.displayName p))
  /\ (exists st',
        outcome (handleLocationToggle st) s = Fulfilled st'
        /\ user_preferences (store_after (handleLocationToggle st) s)
           = preferences st'
        /\ (exists p', preferences st' = Some p'
                       /\ UserPreferences.locationEnabled p'
                          = negb (UserPreferences.locationEnabled p)
                       /\ UserPreferences.avatarIndex p'
                          = UserPreferences.avatarIndex p)
        /\ outcome (handleLocationToggle st')
             (store_after (handleLocationToggle st) s) = Fulfilled st
        /\ user_preferences
             (store_after (handleLocationToggle st')
                (store_after (handleLocationToggle st) s)) = Some p).
Proof.
  intros Hst Hs. split.
  - destruct (updateUserPreferences_one (P_avatarIndex index) p s Hs eq_refl)
      as (s' & E & Hp' & _).
    eexists. unfold outcome, store_after, handleAvatarChange.
    rewrite Hst. unfold await. rewrite E. simpl.
    split; [reflexivity|]. split; [exact Hp'|].
    eexists. split; [reflexivity|]. destruct p. simpl. auto.
  - destruct (handleLocationToggle_eq st s p Hst Hs) as (s' & E & Hp').
    set (q := assign_preference
                (P_locationEnabled (negb (UserPreferences.locationEnabled p))) p)
      in *.
    destruct (handleLocationToggle_eq (with_preferences q st) s' q eq_refl Hp')
      as (s'' & E' & Hp'').
    assert (Hq : assign_preference
                   (P_locationEnabled (negb (UserPreferences.locationEnabled q)))
                   q = p).
    { unfold q. destruct p as [i n a t l]. simpl. rewrite negb_involutive.
      reflexivity. }
    rewrite Hq in E', Hp''.
    exists (with_preferences q st). unfold outcome, store_after.
    rewrite E. simpl fst. simpl snd. rewrite E'. simpl fst. simpl snd.
    split; [reflexivity|]. split; [exact Hp'|].
    split; [exists q; split; [reflexivity|]; unfold q; destruct p; simpl; auto|].
    split; [|exact Hp''].
    f_equal. unfold with_preferences. destruct st. simpl in *. rewrite Hst.
    reflexivity.
Qed.

Lemma profile_stays_in_step_witness :
  let opened := store_after initDatabase empty in
  let st := {| preferences := Some default_preferences;
               totalMemories := 0; todayMemories := 0 |} in
  exists st',
    outcome (handleLocationToggle st) opened = Fulfilled st'
    /\ option_map UserPreferences.locationEnabled (preferences st') = Some true.
Proof.
  cbv zeta.
  destruct (profile_stays_in_step 0
              {| preferences := Some default_preferences;
                 totalMemories := 0; todayMemories := 0 |}
              (store_after initDatabase empty)
              default_preferences eq_refl eq_refl)
    as (_ & st' & Ho & _ & (p' & Hp' & Hl & _) & _).
  exists st'. split; [exact Ho|].
  rewrite Hp'. simpl. rewrite Hl. reflexivity.
Defined.

End ProfileFacts.

Section DiscoverFacts.
Import Database Spec Invariant Behaviour.

Lemma DiscoverScreen_loadData_eq (tz tz' now : Z) (s : Store) :
    outcome (DiscoverScreen.loadData tz tz' now) s
    = Fulfilled
        (or_else
           (if JSDate.getHours tz now <? 12 then
              firstn 5 (by_createdAt_desc
                          (filter (fun m =>
                                     date_is
                                       (JSString.split_head "T"
                                          (JSDate.toISOString
                                             (JSDate.previousDay tz tz' now)))
                                       (Memory.createdAt m))
                                  (memories s)))
            else if JSDate.getHours tz now <? 17 then
              firstn 5 (by_createdAt_desc (memories s))
            else
              firstn 5 (order_by_desc Z.compare Memory.viewCount
                          (filter (fun m => 0 <? Memory.viewCount m)
                                  (memories s))))
           (firstn 5 (by_createdAt_desc (memories s))),
         order_by_desc String.compare FocusGoal.createdAt (focus_goals s)).
Proof.
  destruct (initDatabase_eq s) as (s0 & E0 & Hdb & Hm & Hg).
  set (recent := firstn 5 (by_createdAt_desc (memories s))).
  assert (Hrecent : getRecentMemories 5 s0 = (Fulfilled recent, s0)).
  { unfold getRecentMemories. rewrite (query_eq _ s0 Hdb).
    unfold recent, limit. rewrite Hm. reflexivity. }
  assert (Hfallback : forall l,
             (if (List.length l =? 0)%nat then getRecentMemories 5
              else resolve l) s0 = (Fulfilled (or_else l recent), s0)).
  { intros [|x l]; simpl; [exact Hrecent|reflexivity]. }
  assert (Hquery : forall A (f : Store -> A),
            (_ <- getDatabase ;; query f) s0 = (Fulfilled (f s0), s0))
    by (intros A f; apply query_eq; exact Hdb).
  unfold outcome, DiscoverScreen.loadData, await at 1. rewrite E0.
  unfold getMorningMemories, getFrequentlyViewedMemories, getFocusGoals.
  unfold await at 1.
  destruct (JSDate.getHours tz now <? 12);
    [|destruct (JSDate.getHours tz now <? 17)];
    rewrite ?Hrecent, ?Hquery; unfold await at 1; rewrite Hfallback;
    unfold await at 1; rewrite Hquery; unfold limit, resolve; rewrite ?Hm, Hg;
    reflexivity.
Qed.

(** X17.  The suggestions of the discover screen are at most five,
    are rows of the table, and are missing only when the table is empty;
    the goals shown are the goals of the table. *)
Theorem suggestions_come_from_the_store (tz tz' now : Z) (s : Store) :
  exists suggested goals,
    outcome (DiscoverScreen.loadData tz tz' now) s
    = Fulfilled (suggested, goals)
    /\ (List.length suggested <= 5)%nat
    /\ (forall m, In m suggested -> In m (memories s))
    /\ (suggested = [] <-> memories s = [])
    /\ Permutation goals (focus_goals s).
Proof.
  eexists. eexists. split; [apply DiscoverScreen_loadData_eq|].
  set (recent := firstn 5 (by_createdAt_desc (memories s))) in *.
  assert (Hrecent_in : forall m, In m recent -> In m (memories s)).
  { intros m H. apply in_firstn in H.
    eapply Permutation_in; [apply sort_permutation|exact H]. }
  assert (Hrecent_nil : recent = [] <-> memories s = []).
  { unfold recent. split; intros H.
    - apply length_zero_iff_nil.
      rewrite <- (length_by_createdAt_desc (memories s)).
      destruct (by_createdAt_desc (memories s)); [reflexivity|discriminate H].
    - rewrite H. reflexivity. }
  assert (Hor : forall l,
            (List.length l <= 5)%nat ->
            (forall m, In m l -> In m (memories s)) ->
            (List.length (or_else l recent) <= 5)%nat
            /\ (forall m, In m (or_else l recent) -> In m (memories s))
            /\ (or_else l recent = [] <-> memories s = [])).
  { intros [|x l] Hl Hin; simpl.
    - split; [apply firstn_le_length|]. split; assumption.
    - split; [exact Hl|]. split; [exact Hin|]. split; [discriminate|].
      intros H. specialize (Hin x (or_introl eq_refl)). rewrite H in Hin.
      destruct Hin. }
  assert (Hsel : forall keep (sorted : list Memory.t -> list Memory.t),
            (forall l, Permutation (sorted l) l) ->
            forall m, In m (firstn 5 (sorted (filter keep (memories s)))) ->
                      In m (memories s)).
  { intros keep sorted Hp m H. apply in_firstn in H.
    apply (Permutation_in _ (Hp _)) in H. apply filter_In in H. tauto. }
  assert (Hall : forall l,
            (List.length l <= 5)%nat ->
            (forall m, In m l -> In m (memories s)) ->
            (List.length (or_else l recent) <= 5)%nat
            /\ (forall m, In m (or_else l recent) -> In m (memories s))
            /\ (or_else l recent = [] <-> memories s = [])
            /\ Permutation
                 (order_by_desc String.compare FocusGoal.createdAt
                    (focus_goals s))
                 (focus_goals s)).
  { intros l H1 H2. destruct (Hor l H1 H2) as (G1 & G2 & G3).
    repeat split; try assumption; try apply G3. apply sort_permutation. }
  apply Hall.
  - destruct (JSDate.getHours tz now <? 12);
      [|destruct (JSDate.getHours tz now <? 17)]; apply firstn_le_length.
  - destruct (JSDate.getHours tz now <? 12);
      [|destruct (JSDate.getHours tz now <? 17)].
    + apply (Hsel _ by_createdAt_desc). intros l. apply sort_permutation.
    + exact Hrecent_in.
    + apply (Hsel _ (order_by_desc Z.compare Memory.viewCount)).
      intros l. apply sort_permutation.
Qed.

End DiscoverFacts.

(** ** Capture screens *)

Section TrimFacts.
Import Database Spec Invariant Behaviour.
Import JSString.

Lemma trimStart_spec (s : string) :
  exists pre,
    s = (pre ++ trimStart s)%string /\ blank pre
    /\ forall c, first_char (trimStart s) = Some c -> is_white_space c = false.
Proof.
  induction s as [|c s (pre & E & Hb & Hf)]; simpl.
  - exists "". repeat split. intros c H. discriminate H.
  - destruct (is_white_space c) eqn:Ec.
    + exists (String c pre). simpl. split; [f_equal; exact E|].
      split; [|exact Hf]. unfold blank in *. simpl. rewrite Ec. exact Hb.
    + exists "". simpl. repeat split. intros x H. injection H as <-. exact Ec.
Qed.

Lemma trimEnd_spec (s : string) :
  exists post,
    s = (trimEnd s ++ post)%string /\ blank post
    /\ forall c, last_char (trimEnd s) = Some c -> is_white_space c = false.
Proof.
  induction s as [|c s (post & E & Hb & Hl)]; simpl.
  - exists "". repeat split. intros c H. discriminate H.
  - destruct (trimEnd s) as [|d r] eqn:Et.
    + destruct (is_white_space c) eqn:Ec.
      * exists (String c post). simpl in *. split; [f_equal; exact E|].
        split; [|intros x H; discriminate H].
        unfold blank in *. simpl. rewrite Ec. exact Hb.
      * exists post. simpl in *. split; [f_equal; exact E|].
        split; [exact Hb|]. intros x H. injection H as <-. exact Ec.
    + exists post. simpl in *. split; [f_equal; exact E|].
      split; [exact Hb|]. exact Hl.
Qed.

Lemma trimEnd_blank (s : string) : blank s -> trimEnd s = "".
Proof.
  unfold blank. induction s as [|c s IH]; simpl; [reflexivity|].
  intros H. apply andb_true_iff in H. destruct H as [Hc Hs].
  rewrite (IH Hs), Hc. reflexivity.
Qed.

Lemma last_char_app (a b : string) :
  b <> "" -> last_char (a ++ b)%string = last_char b.
Proof.
  intros Hb. induction a as [|c a IH]; simpl; [reflexivity|].
  rewrite IH. destruct (a ++ b)%string eqn:E; [|reflexivity].
  destruct a; simpl in E; [contradiction|discriminate E].
Qed.

Lemma blank_app (a b : string) : blank a -> blank b -> blank (a ++ b)%string.
Proof.
  unfold blank. intros Ha Hb. rewrite all_chars_app, Ha, Hb. reflexivity.
Qed.

Lemma trim_spec (s : string) :
  (exists pre post,
      s = (pre ++ trim s ++ post)%string /\ blank pre /\ blank post)
  /\ trimmed (trim s)
  /\ (trim s = "" <-> blank s).
Proof.
  unfold trim.
  destruct (trimEnd_spec s) as (post & Es & Hpost & Hlast).
  destruct (trimStart_spec (trimEnd s)) as (pre & Et & Hpre & Hfirst).
  split; [|split].
  - exists pre, post. split; [|auto].
    rewrite <- append_assoc, <- Et. exact Es.
  - intros c [H|H]; [apply Hfirst; exact H|].
    apply Hlast. rewrite Et. rewrite last_char_app; [exact H|].
    intros E. rewrite E in H. discriminate H.
  - split; intros H.
    + rewrite H, append_empty_r in Et. rewrite Es, Et.
      apply blank_app; assumption.
    + rewrite (trimEnd_blank s H). reflexivity.
Qed.

Lemma length_trimStart (s : string) :
  (String.length (trimStart s) <= String.length s)%nat.
Proof.
  induction s as [|c s IH]; simpl; [lia|].
  destruct (is_white_space c); simpl; lia.
Qed.

Lemma length_trimEnd (s : string) :
  (String.length (trimEnd s) <= String.length s)%nat.
Proof.
  induction s as [|c s IH]; simpl; [lia|].
  destruct (trimEnd s); [destruct (is_white_space c)|]; simpl in *; lia.
Qed.

Lemma length_trim (s : string) :
  (String.length (trim s) <= String.length s)%nat.
Proof.
  unfold trim. pose proof (length_trimStart (trimEnd s)).
  pose proof (length_trimEnd s). lia.
Qed.

Lemma truthy_nonempty (s : string) : truthy s = true <-> s <> "".
Proof. destruct s; simpl; split; congruence. Qed.

Lemma substring_to_spec (n : nat) (s : string) :
  (n <= String.length s)%nat ->
  exists rest,
    s = (substring_to n s ++ rest)%string
    /\ String.length (substring_to n s) = n.
Proof.
  unfold substring_to. revert s. induction n as [|n IH]; intros s H.
  - exists s. rewrite substring_0_0. auto.
  - destruct s as [|c s]; simpl in H; [lia|].
    destruct (IH s) as (rest & E & Hl); [lia|].
    exists rest. simpl. split; [f_equal; exact E|]. rewrite Hl. reflexivity.
Qed.

End TrimFacts.

Section CaptureFacts.
Import Database Spec Invariant Behaviour.

(** X18.  A note that is not blank is saved, and saved trimmed:
    [handleSave] sends the user back and appends one row, with a fresh
    id, of type text, stamped with the current time, whose content is the
    text without the whitespace around it: non-empty, with no whitespace
    at either end, and followed and preceded in the text by whitespace
    only. *)
Theorem text_note_is_saved_trimmed (now : Z) (text : string)
    (location : option (REAL * REAL)) (s : Store) :
  ~ blank text ->
  exists s' row pre post,
    TextInputScreen.handleSave now text location s
    = (TextInputScreen.GoBack, s')
    /\ memories s' = memories s ++ [row]
    /\ ~ In (Memory.id row) (map Memory.id (memories s))
    /\ text = (pre ++ Memory.content row ++ post)%string
    /\ blank pre /\ blank post
    /\ trimmed (Memory.content row)
    /\ Memory.content row <> ""
    /\ Memory.contentType row = Database.text
    /\ Memory.createdAt row = JSDate.toISOString now.
Proof.
  intros Hnb.
  destruct (trim_spec text) as ((pre & post & E & Hpre & Hpost) & Ht & Hb).
  assert (Hne : JSString.trim text <> "") by (rewrite Hb; exact Hnb).
  unfold TextInputScreen.handleSave.
  rewrite (proj2 (truthy_nonempty _) Hne). simpl negb. cbv iota.
  match goal with |- context [addMemory ?m s] => set (new := m) end.
  rewrite addMemory_eta.
  destruct (memories_after_add new s) as (_ & Hm & _).
  eexists. exists (new_row (next_rowid (memories_seq s)
                              (map Memory.id (memories s))) new), pre, post.
  split; [reflexivity|]. split; [exact Hm|].
  split; [simpl; apply next_rowid_fresh|].
  simpl. repeat split; assumption.
Qed.

Lemma text_note_is_saved_trimmed_witness :
  ~ blank "  Buy milk  "
  /\ exists s',
       TextInputScreen.handleSave Sample.jan1_0800 "  Buy milk  " None empty
       = (TextInputScreen.GoBack, s')
       /\ map Memory.content (memories s') = ["Buy milk"].
Proof.
  assert (H : ~ blank "  Buy milk  ") by (vm_compute; discriminate).
  split; [exact H|].
  destruct (text_note_is_saved_trimmed Sample.jan1_0800 "  Buy milk  " None
              empty H) as (s' & row & pre & post & E & _).
  exists s'. split; [exact E|].
  vm_compute in E. injection E as <-. reflexivity.
Defined.

Lemma save_goes_through (memory : NewMemory.t) (s : Store) (ok : Memory.t -> Prop)
    (condition : Prop) (failure : TextInputScreen.Feedback) :
  condition ->
  ok (new_row (next_rowid (memories_seq s) (map Memory.id (memories s)))
              memory) ->
  saved_or_refused
    match addMemory memory s with
    | (Fulfilled _, s') => (TextInputScreen.GoBack, s')
    | (Rejected _, s') => (failure, s')
    end s condition ok.
Proof.
  intros Hc Hok. left. rewrite addMemory_eta. simpl.
  split; [exact Hc|]. split; [reflexivity|].
  destruct (memories_after_add memory s) as (_ & Hm & _).
  eexists. split; [exact Hm|exact Hok].
Qed.

Lemma missing_spec (uri : option string) :
  VoiceInputScreen.missing uri = false <-> present uri.
Proof.
  unfold VoiceInputScreen.missing, present. destruct uri as [[|c u]|]; simpl;
    split; try discriminate; try reflexivity.
  - intros (u & E & Hu). injection E as <-. contradiction.
  - intros _. eexists. split; [reflexivity|discriminate].
  - intros (u & E & _). discriminate E.
Qed.

(** X19.  What the capture screens save is well formed.  The text
    screen saves exactly when the text is not blank, the voice screen
    exactly when there is a recording, the photo screen exactly when
    there is a photo; a save appends one row that has content, has
    never been viewed and carries the media its type calls for and no
    other (a photo without caption has the content "Photo"); a refusal
    raises an alert and leaves the store as it was. *)
Theorem captures_are_well_formed (now : Z) (location : option (REAL * REAL))
    (s : Store) :
  (forall text,
      saved_or_refused (TextInputScreen.handleSave now text location s) s
        (~ blank text) well_formed)
  /\ (forall audioUri recordingTime,
      saved_or_refused
        (VoiceInputScreen.handleSave now audioUri recordingTime location s) s
        (present audioUri)
        (fun row => well_formed row /\ Memory.audioUri row = audioUri))
  /\ (forall imageUri caption,
      saved_or_refused
        (PhotoInputScreen.handleSave now imageUri caption location s) s
        (present imageUri)
        (fun row => well_formed row /\ Memory.imageUri row = imageUri
                    /\ (blank caption -> Memory.content row = "Photo"))).
Proof.
  split; [|split].
  - intros text. unfold TextInputScreen.handleSave.
    destruct (trim_spec text) as (_ & _ & Hb).
    destruct (JSString.truthy (JSString.trim text)) eqn:E; simpl negb; cbv iota.
    + apply truthy_nonempty in E.
      apply save_goes_through; [rewrite <- Hb; exact E|].
      unfold well_formed. simpl. auto.
    + right. simpl. split; [|split; [reflexivity|eauto]].
      intros Hnb. apply Hnb. apply Hb.
      destruct (JSString.trim text); [reflexivity|discriminate E].
  - intros audioUri recordingTime. unfold VoiceInputScreen.handleSave.
    pose proof (missing_spec audioUri) as Hmiss.
    destruct audioUri as [uri|].
    + destruct (VoiceInputScreen.missing (Some uri)) eqn:E.
      * right. simpl. split; [|split; [reflexivity|eauto]].
        intros H. apply Hmiss in H. discriminate H.
      * apply save_goes_through; [apply Hmiss; reflexivity|].
        unfold well_formed. simpl. repeat split; try discriminate.
        apply Hmiss. reflexivity.
    + right. simpl. split; [|split; [reflexivity|eauto]].
      intros (u & E & _). discriminate E.
  - intros imageUri caption. unfold PhotoInputScreen.handleSave.
    pose proof (missing_spec imageUri) as Hmiss.
    destruct imageUri as [uri|].
    + destruct (VoiceInputScreen.missing (Some uri)) eqn:E.
      * right. simpl. split; [|split; [reflexivity|eauto]].
        intros H. apply Hmiss in H. discriminate H.
      * apply save_goes_through; [apply Hmiss; reflexivity|].
        unfold well_formed. simpl.
        destruct (trim_spec caption) as (_ & _ & Hb).
        split; [|split; [reflexivity|]].
        { split; [|split; [reflexivity|split; [reflexivity|]]].
          - unfold JSString.or_default.
            destruct (JSString.trim caption); simpl; discriminate.
          - split; [apply Hmiss; reflexivity|reflexivity]. }
        intros Hc. apply Hb in Hc. rewrite Hc. reflexivity.
    + right. simpl. split; [|split; [reflexivity|eauto]].
      intros (u & E & _). discriminate E.
Qed.

End CaptureFacts.

Section NumberFacts.
Import Database Spec Invariant Behaviour.
Import JSDate.

Lemma decimal_pad (fuel : nat) (n : Z) :
  0 <= n < 10 ^ Z.of_nat (S fuel) ->
  exists k,
    JSNumber.decimal (S fuel) n = pad (S k) n
    /\ n < 10 ^ Z.of_nat (S k)
    /\ (k = O \/ 10 ^ Z.of_nat k <= n).
Proof.
  revert n. induction fuel as [|fuel IH]; intros n H;
    change (JSNumber.decimal (S ?f) n)
      with (if n <? 10 then String (digit n) EmptyString
            else (JSNumber.decimal f (n / 10)
                  ++ String (digit n) EmptyString)%string);
    destruct (Z.ltb_spec n 10) as [Hlt|Hge];
    try (exists O; split; [reflexivity|];
         split; [change (10 ^ Z.of_nat 1) with 10; lia|auto]; fail).
  assert (Hdiv : 0 <= n / 10 < 10 ^ Z.of_nat (S fuel)).
  { rewrite (Nat2Z.inj_succ (S fuel)), Z.pow_succ_r in H by lia.
    split; [apply Z.div_pos; lia|].
    apply Z.div_lt_upper_bound; lia. }
  destruct (IH _ Hdiv) as (k & E & Hk & Hlow).
  exists (S k). split; [rewrite E; reflexivity|].
  split.
  - rewrite (Nat2Z.inj_succ (S k)), Z.pow_succ_r by lia.
    assert (n / 10 + 1 <= 10 ^ Z.of_nat (S k)) by lia.
    Z.div_mod_to_equations. nia.
  - right. rewrite Nat2Z.inj_succ, Z.pow_succ_r by lia.
    destruct Hlow as [->|Hlow]; [simpl; lia|].
    assert (10 * (n / 10) <= n) by (Z.div_mod_to_equations; lia).
    nia.
Qed.

Lemma toString_pad (n : Z) :
  0 <= n ->
  exists k,
    JSNumber.toString n = pad (S k) n
    /\ n < 10 ^ Z.of_nat (S k)
    /\ (k = O \/ 10 ^ Z.of_nat k <= n).
Proof.
  intros H. unfold JSNumber.toString. apply decimal_pad. split; [exact H|].
  destruct (Z.eq_dec n 0) as [->|Hn]; [simpl; lia|].
  assert (Hpos : 0 < n) by lia.
  destruct (Z.log2_spec n Hpos) as [_ Hup].
  pose proof (Z.log2_nonneg n) as Hl.
  rewrite Nat2Z.inj_succ, Z2Nat.id by exact Hl.
  eapply Z.lt_le_trans; [exact Hup|].
  apply Z.pow_le_mono_l. lia.
Qed.

Lemma padStart_pad (k : nat) (n : Z) :
  0 <= n < 10 ^ Z.of_nat (S k) ->
  JSString.padStart 2 "0" (pad (S k) n) = pad (Nat.max 2 (S k)) n.
Proof.
  intros H. unfold JSString.padStart. rewrite length_pad.
  destruct k as [|k].
  - simpl in H. simpl.
    assert (E : n / 10 = 0) by (Z.div_mod_to_equations; lia).
    rewrite E. reflexivity.
  - replace (2 - S (S k))%nat with O by lia.
    replace (Nat.max 2 (S (S k))) with (S (S k)) by lia. reflexivity.
Qed.

(** X20.  [formatTime] writes a number of seconds as minutes, a colon
    and seconds: the part before the colon reads as the whole minutes, in
    at least two digits, and the part after it as the remaining seconds,
    in exactly two.  Below 100 minutes the result is [mm:ss]; from
    there on the minutes take three or more digits. *)
Theorem formatTime_reads_back (seconds : Z) :
  0 <= seconds ->
  exists mm ss,
    VoiceInputScreen.formatTime seconds = (mm ++ ":" ++ ss)%string
    /\ digits_value 0 mm = Some (seconds / 60)
    /\ digits_value 0 ss = Some (seconds mod 60)
    /\ String.length ss = 2%nat
    /\ (2 <= String.length mm)%nat
    /\ JSString.split_head ":" (VoiceInputScreen.formatTime seconds) = mm
    /\ (seconds < 6000 ->
        VoiceInputScreen.formatTime seconds
        = (pad 2 (seconds / 60) ++ ":" ++ pad 2 (seconds mod 60))%string).
Proof.
  intros H. unfold VoiceInputScreen.formatTime.
  assert (Hm : 0 <= seconds / 60) by (apply Z.div_pos; lia).
  assert (Hs : 0 <= seconds mod 60 < 60) by (apply Z.mod_pos_bound; lia).
  destruct (toString_pad _ Hm) as (km & Em & Hkm & Hlow).
  destruct (toString_pad (seconds mod 60) (proj1 Hs)) as (ks & Es & Hks & Hlows).
  rewrite Em, Es, !padStart_pad by lia.
  assert (Hks2 : Nat.max 2 (S ks) = 2%nat).
  { destruct Hlows as [->|Hl]; [reflexivity|].
    destruct ks as [|[|ks]]; try reflexivity.
    exfalso. rewrite !Nat2Z.inj_succ, !Z.pow_succ_r in Hl by lia.
    assert (0 < 10 ^ Z.of_nat ks) by (apply Z.pow_pos_nonneg; lia). lia. }
  rewrite Hks2.
  assert (Hbig : seconds / 60 < 10 ^ Z.of_nat (Nat.max 2 (S km))).
  { destruct km as [|km]; [simpl in *; lia|].
    replace (Nat.max 2 (S (S km))) with (S (S km)) by lia. exact Hkm. }
  exists (pad (Nat.max 2 (S km)) (seconds / 60)), (pad 2 (seconds mod 60)).
  split; [reflexivity|].
  split; [apply pad_value; lia|].
  split; [apply pad_value; simpl; lia|].
  split; [apply length_pad|].
  split; [rewrite length_pad; lia|].
  split.
  - change (":" ++ pad 2 (seconds mod 60))%string
      with (String ":" (pad 2 (seconds mod 60))).
    apply split_head_app.
    generalize (Nat.max 2 (S km)) (seconds / 60). clear.
    intros k. induction k as [|k IH]; intros n; simpl; [reflexivity|].
    rewrite all_chars_app, IH. simpl.
    unfold digit.
    assert (Hd : 0 <= n mod 10 < 10) by (apply Z.mod_pos_bound; lia).
    destruct (n mod 10) as [|p|p]; try lia.
    + reflexivity.
    + do 4 (destruct p as [p|p|]; try lia; try reflexivity).
  - intros Hlt.
    assert (Hkm2 : Nat.max 2 (S km) = 2%nat).
    { destruct Hlow as [->|Hl]; [reflexivity|].
      destruct km as [|[|km]]; try reflexivity.
      exfalso. rewrite !Nat2Z.inj_succ, !Z.pow_succ_r in Hl by lia.
      assert (0 < 10 ^ Z.of_nat km) by (apply Z.pow_pos_nonneg; lia).
      assert (seconds / 60 < 100) by (Z.div_mod_to_equations; lia). lia. }
    rewrite Hkm2. reflexivity.
Qed.

Lemma formatTime_reads_back_witness :
  VoiceInputScreen.formatTime 75 = "01:15"
  /\ VoiceInputScreen.formatTime 6000 = "100:00"
  /\ exists mm ss,
       VoiceInputScreen.formatTime 6000 = (mm ++ ":" ++ ss)%string
       /\ digits_value 0 mm = Some 100.
Proof.
  split; [reflexivity|]. split; [reflexivity|].
  destruct (formatTime_reads_back 6000 ltac:(lia))
    as (mm & ss & E & Hm & _).
  exists mm, ss. split; [exact E|exact Hm].
Defined.

End NumberFacts.

Section CardFacts.
Import Database Spec Invariant Behaviour.

(** X21.  [truncateText] returns a text of at most [maxLength]
    characters as it is; of a longer one it keeps the first [maxLength]
    characters, trims them and appends three dots, so the result never
    exceeds [maxLength + 3] characters. *)
Theorem truncateText_bounds (text : string) (maxLength : nat) :
  ((String.length text <= maxLength)%nat ->
   MemoryCard.truncateText text maxLength = text)
  /\ ((maxLength < String.length text)%nat ->
      exists kept pre post rest,
        MemoryCard.truncateText text maxLength = (kept ++ "...")%string
        /\ text = ((pre ++ kept ++ post) ++ rest)%string
        /\ String.length (pre ++ kept ++ post)%string = maxLength
        /\ blank pre /\ blank post /\ trimmed kept)
  /\ (String.length (MemoryCard.truncateText text maxLength)
      <= maxLength + 3)%nat.
Proof.
  unfold MemoryCard.truncateText.
  destruct (Nat.leb_spec (String.length text) maxLength) as [Hle|Hgt].
  - split; [reflexivity|]. split; [lia|lia].
  - destruct (substring_to_spec maxLength text) as (rest & E & Hl); [lia|].
    destruct (trim_spec (JSString.substring_to maxLength text))
      as ((pre & post & Et & Hpre & Hpost) & Ht & _).
    split; [lia|]. split.
    + intros _. exists (JSString.trim (JSString.substring_to maxLength text)).
      exists pre, post, rest. split; [reflexivity|].
      rewrite <- Et. auto.
    + rewrite length_append. simpl.
      pose proof (length_trim (JSString.substring_to maxLength text)). lia.
Qed.

End CardFacts.

(** ** The timeline's filter *)

Section FilteredTimeline.
Import Database Spec Invariant Behaviour.
Import TimelineScreen.

Lemma StronglySorted_map {A B} (R : B -> B -> Prop) (f : A -> B) (l : list A) :
  StronglySorted R (map f l) <-> StronglySorted (fun a b => R (f a) (f b)) l.
Proof.
  induction l as [|x l IH]; simpl; split; intros H; try constructor;
    inversion H as [|? ? Hs Hx]; subst.
  - apply IH. exact Hs.
  - rewrite Forall_forall in *. intros y Hy. apply Hx. apply in_map. exact Hy.
  - apply IH. exact Hs.
  - rewrite Forall_forall in *. intros y Hy. apply in_map_iff in Hy.
    destruct Hy as (z & <- & Hz). apply Hx. exact Hz.
Qed.

Lemma StronglySorted_filter {A} (R : A -> A -> Prop) (keep : A -> bool)
    (l : list A) :
  StronglySorted R l -> StronglySorted R (filter keep l).
Proof.
  induction 1 as [|x l Hs IH Hx]; simpl; [constructor|].
  destruct (keep x); [|exact IH]. constructor; [exact IH|].
  rewrite Forall_forall in *. intros y Hy. apply filter_In in Hy.
  apply Hx. tauto.
Qed.

(** Two lists in strictly descending order of their keys, with the same
    members, are the same list. *)
Lemma descending_unique {A} (key : A -> string) (l1 l2 : list A) :
  StronglySorted (fun a b => String.compare (key b) (key a) = Lt) l1 ->
  StronglySorted (fun a b => String.compare (key b) (key a) = Lt) l2 ->
  (forall x, In x l1 <-> In x l2) ->
  l1 = l2.
Proof.
  intros H1. revert l2. induction H1 as [|x1 l1 Hs1 IH Hx1]; intros l2 H2 Hin.
  - destruct l2 as [|x2 l2]; [reflexivity|].
    destruct (proj2 (Hin x2) (or_introl eq_refl)).
  - destruct H2 as [|x2 l2 Hs2 Hx2].
    + destruct (proj1 (Hin x1) (or_introl eq_refl)).
    + rewrite Forall_forall in Hx1, Hx2.
      assert (Hirr : forall a, String.compare (key a) (key a) <> Lt).
      { intros a H. apply (string_lt_asym _ _ H). exact H. }
      assert (E : x1 = x2).
      { destruct (proj1 (Hin x1) (or_introl eq_refl)) as [E|H12]; [auto|].
        destruct (proj2 (Hin x2) (or_introl eq_refl)) as [E|H21]; [auto|].
        exfalso. apply (string_lt_asym _ _ (Hx2 _ H12)). apply Hx1. exact H21. }
      subst x2. f_equal. apply IH; [exact Hs2|].
      intros y. split; intros Hy.
      * destruct (proj1 (Hin y) (or_intror Hy)) as [E|H]; [|exact H].
        subst y. exfalso. apply (Hirr x1). apply Hx1. exact Hy.
      * destruct (proj2 (Hin y) (or_intror Hy)) as [E|H]; [|exact H].
        subst y. exfalso. apply (Hirr x1). apply Hx2. exact Hy.
Qed.

Lemma groups_descend (tz now : Z) (memories : list Memory.t) :
  StronglySorted (fun a b => String.compare (date b) (date a) = Lt)
                 (groupMemoriesByDate tz now memories).
Proof.
  destruct (sorted_entries memories) as [_ H].
  unfold groupMemoriesByDate.
  apply StronglySorted_map. simpl.
  apply (proj1 (StronglySorted_map
                  (fun a b => String.compare b a = Lt) fst _)).
  exact H.
Qed.

Lemma collect_entry (memories : list Memory.t) (k : string)
    (v : list Memory.t) :
  In (k, v) (collect memories) <->
  v = filter (on_date k) memories /\ v <> [].
Proof.
  destruct (grouped_collect memories) as (ND & Hval & Hkey).
  split.
  - apply Hval.
  - intros [E Hne].
    destruct v as [|m v']; [contradiction|].
    assert (Hm : In m (filter (on_date k) memories))
      by (rewrite <- E; left; reflexivity).
    apply filter_In in Hm. destruct Hm as [Hin Hk].
    unfold on_date in Hk. apply String.eqb_eq in Hk.
    specialize (Hkey m Hin). rewrite Hk in Hkey.
    apply in_map_iff in Hkey. destruct Hkey as ([k' v''] & Ek & Hentry).
    simpl in Ek. subst k'.
    destruct (Hval _ _ Hentry) as [Ev _].
    rewrite E, <- Ev. exact Hentry.
Qed.

Lemma filter_comm {A} (p q : A -> bool) (l : list A) :
  filter p (filter q l) = filter q (filter p l).
Proof.
  induction l as [|x l IH]; simpl; [reflexivity|].
  destruct (p x) eqn:Ep, (q x) eqn:Eq; simpl; rewrite ?Ep, ?Eq, IH;
    reflexivity.
Qed.

(** X22.  Filtering the timeline by type gives the timeline of the
    records of that type: [filteredGroups] applied to the groups of all
    records equals [groupMemoriesByDate] applied to the records of the
    type.  In particular no group shown is empty and every record shown
    has the type; without a filter the groups are shown as they
    are. *)
Theorem filtering_the_timeline (tz now : Z) (type : ContentType)
    (memories : list Memory.t) :
  let of_type := fun m => ContentType_eqb (Memory.contentType m) type in
  filteredGroups (Some type) (groupMemoriesByDate tz now memories)
  = groupMemoriesByDate tz now (filter of_type memories)
  /\ filteredGroups None (groupMemoriesByDate tz now memories)
     = groupMemoriesByDate tz now memories
  /\ Forall (fun group =>
               data group <> []
               /\ Forall (fun m => Memory.contentType m = type) (data group))
            (filteredGroups (Some type) (groupMemoriesByDate tz now memories)).
Proof.
  cbv zeta.
  set (of_type := fun m => ContentType_eqb (Memory.contentType m) type).
  assert (Heq : filteredGroups (Some type) (groupMemoriesByDate tz now memories)
                = groupMemoriesByDate tz now (filter of_type memories)).
  { apply (descending_unique date).
    - unfold filteredGroups. apply StronglySorted_filter.
      apply StronglySorted_map. simpl. apply groups_descend.
    - apply groups_descend.
    - intros g. unfold filteredGroups. rewrite filter_In, in_map_iff.
      rewrite groups_are_entries. split.
      + intros [(g0 & <- & Hg0) Hne]. simpl in Hne.
        apply groups_are_entries in Hg0. destruct Hg0 as (k & v & Hkv & ->).
        simpl in *. fold of_type in Hne |- *.
        apply collect_entry in Hkv. destruct Hkv as [-> _].
        exists k, (filter of_type (filter (on_date k) memories)).
        split; [|reflexivity]. apply collect_entry.
        split; [apply filter_comm|].
        intros E. rewrite E in Hne. discriminate Hne.
      + intros (k & v & Hkv & ->).
        apply collect_entry in Hkv. destruct Hkv as [Ev Hne].
        rewrite filter_comm in Ev.
        split.
        * exists {| date := k; formattedDate := formatDate tz now k;
                    data := filter (on_date k) memories |}.
          simpl. fold of_type. rewrite <- Ev. split; [reflexivity|].
          apply groups_are_entries. exists k, (filter (on_date k) memories).
          split; [|reflexivity]. apply collect_entry. split; [reflexivity|].
          intros E. rewrite E in Ev. simpl in Ev. contradiction.
        * simpl. destruct v; [contradiction|reflexivity]. }
  split; [exact Heq|]. split; [reflexivity|].
  rewrite Heq. apply Forall_forall. intros g Hg.
  apply groups_are_entries in Hg. destruct Hg as (k & v & Hkv & ->). simpl.
  apply collect_entry in Hkv. destruct Hkv as [Ev Hne].
  split; [exact Hne|]. rewrite Ev. apply Forall_forall. intros m Hm.
  apply filter_In in Hm. destruct Hm as [Hm _]. apply filter_In in Hm.
  apply ContentType_eqb_eq. apply Hm.
Qed.

End FilteredTimeline.

(** ** The focus screen *)

Section FocusScreenFacts.
Import Database Spec Invariant Behaviour.
Import FocusModeScreen.

Lemma show_goal_eq (goal : FocusGoal.t) (st : State) (s : Store) :
  db s = true ->
  show_goal goal st s
  = (Fulfilled (with_filteredMemories (brought_up (FocusGoal.name goal) s)
                  (with_activeGoal (Some goal) st)), s).
Proof.
  intros Hdb. unfold show_goal, filterMemories, getAllMemories.
  unfold await at 1 2. rewrite (query_eq _ s Hdb). reflexivity.
Qed.

Lemma loadData_eq (goalId : option Z) (st : State) (s : Store) :
  exists s0,
    db s0 = true /\ memories s0 = memories s
    /\ focus_goals s0 = focus_goals s
    /\ loadData goalId st s
       = (Fulfilled
            match
              match goalId_given goalId with
              | Some i => find (fun g => FocusGoal.id g =? i) (listed_goals s)
              | None => find FocusGoal.isActive (listed_goals s)
              end
            with
            | Some goal =>
                with_filteredMemories (brought_up (FocusGoal.name goal) s)
                  (with_activeGoal (Some goal)
                     (with_goals (listed_goals s) st))
            | None => with_goals (listed_goals s) st
            end, s0).
Proof.
  destruct (initDatabase_eq s) as (s0 & E0 & Hdb & Hm & Hg).
  exists s0. split; [exact Hdb|]. split; [exact Hm|]. split; [exact Hg|].
  unfold loadData. unfold await at 1. rewrite E0.
  unfold getFocusGoals. unfold await at 1. rewrite (query_eq _ s0 Hdb).
  fold (listed_goals s0). unfold listed_goals. rewrite Hg.
  fold (listed_goals s).
  destruct (match goalId_given goalId with
            | Some i => find (fun g => FocusGoal.id g =? i) (listed_goals s)
            | None => find FocusGoal.isActive (listed_goals s)
            end) as [goal|].
  - rewrite (show_goal_eq _ _ _ Hdb). unfold brought_up. rewrite Hm.
    reflexivity.
  - reflexivity.
Qed.

Lemma loadData_state (goalId : option Z) (st : State) (s : Store) :
  exists st' s0,
    loadData goalId st s = (Fulfilled st', s0)
    /\ memories s0 = memories s /\ focus_goals s0 = focus_goals s
    /\ goals st' = listed_goals s
    /\ newGoalName st' = newGoalName st
    /\ showNewGoalInput st' = showNewGoalInput st.
Proof.
  destruct (loadData_eq goalId st s) as (s0 & _ & Hm & Hg & E).
  eexists. exists s0. split; [exact E|]. split; [exact Hm|].
  split; [exact Hg|].
  destruct (goalId_given goalId);
    match goal with |- context [find ?p ?l] => destruct (find p l) end;
    repeat split.
Qed.

Lemma find_filter {A} (p : A -> bool) (l : list A) :
  find p l = hd_error (filter p l).
Proof.
  induction l as [|x l IH]; simpl; [reflexivity|].
  destruct (p x); [reflexivity|exact IH].
Qed.

Lemma listed_goals_permutation (s : Store) :
  Permutation (listed_goals s) (focus_goals s).
Proof. apply sort_permutation. Qed.

Lemma same_id_same_goal (goals : list FocusGoal.t) (a b : FocusGoal.t) :
  NoDup (map FocusGoal.id goals) ->
  In a goals -> In b goals -> FocusGoal.id a = FocusGoal.id b -> a = b.
Proof.
  induction goals as [|g goals IH]; simpl; intros ND Ha Hb E; [destruct Ha|].
  inversion ND as [|? ? Hg ND']; subst.
  destruct Ha as [<-|Ha], Hb as [<-|Hb]; try reflexivity.
  - exfalso. apply Hg. rewrite E. apply in_map. exact Hb.
  - exfalso. apply Hg. rewrite <- E. apply in_map. exact Ha.
  - apply IH; assumption.
Qed.

Lemma setActiveFocusGoal_eta (rowid : option Z) (s : Store) :
  setActiveFocusGoal rowid s
  = (Fulfilled tt, store_after (setActiveFocusGoal rowid) s)
  /\ db (store_after (setActiveFocusGoal rowid) s) = true.
Proof.
  destruct (setActiveFocusGoal_goals rowid s) as [Ho _].
  unfold outcome, store_after in *.
  split.
  - destruct (setActiveFocusGoal rowid s) as [[[]|e] s']; simpl in *;
      [reflexivity|discriminate Ho].
  - unfold setActiveFocusGoal. rewrite await_getDatabase.
    destruct (getDatabase_tables s) as (Hdb & _).
    destruct rowid; simpl; exact Hdb.
Qed.

(** X23.  A selected goal is found again.  [handleSelectGoal] on a
    goal of the table shows it with the memories it brings up and makes
    it the one active goal of the store; opening the screen anew, with
    no goal id, then shows the same goal with the same memories. *)
Theorem selected_goal_is_restored (goal : FocusGoal.t) (st : State)
    (s : Store) :
  goal_ids_unique s ->
  In goal (focus_goals s) ->
  exists st1 s1 st2 s2,
    handleSelectGoal goal st s = (Fulfilled st1, s1)
    /\ activeGoal st1 = Some goal
    /\ filteredMemories st1 = brought_up (FocusGoal.name goal) s
    /\ active_goals (focus_goals s1) = [set_isActive true goal]
    /\ memories s1 = memories s
    /\ loadData None initial s1 = (Fulfilled st2, s2)
    /\ activeGoal st2 = Some (set_isActive true goal)
    /\ filteredMemories st2 = filteredMemories st1
    /\ Permutation (goals st2) (focus_goals s1).
Proof.
  intros ND Hin.
  destruct (setActiveFocusGoal_eta (Some (FocusGoal.id goal)) s) as [E1 Hdb1].
  destruct (setActiveFocusGoal_goals (Some (FocusGoal.id goal)) s) as [_ Hg1].
  destruct (goals_after_activate (Some (FocusGoal.id goal)) s)
    as (_ & Hm1 & _).
  set (s1 := store_after (setActiveFocusGoal (Some (FocusGoal.id goal))) s) in *.
  assert (Hact : active_goals (focus_goals s1) = [set_isActive true goal]).
  { rewrite Hg1.
    destruct (active_goals_activate_present (FocusGoal.id goal)
                (focus_goals s) ND (in_map _ _ _ Hin))
      as (g & Hg & Hid & E).
    rewrite E. f_equal. f_equal.
    apply (same_id_same_goal (focus_goals s)); assumption. }
  assert (Hfind : find FocusGoal.isActive (listed_goals s1)
                  = Some (set_isActive true goal)).
  { rewrite find_filter.
    assert (Hp : Permutation [set_isActive true goal]
                   (filter FocusGoal.isActive (listed_goals s1))).
    { fold (active_goals (listed_goals s1)). rewrite <- Hact.
      unfold active_goals. apply filter_permutation. symmetry.
      apply listed_goals_permutation. }
    apply Permutation_length_1_inv in Hp. rewrite Hp. reflexivity. }
  destruct (loadData_eq None initial s1) as (s2 & _ & _ & _ & E2).
  simpl goalId_given in E2. rewrite Hfind in E2.
  eexists. exists s1. eexists. exists s2.
  split.
  { unfold handleSelectGoal. unfold await at 1. rewrite E1.
    apply show_goal_eq. exact Hdb1. }
  split; [reflexivity|].
  split; [simpl; unfold brought_up; rewrite Hm1; reflexivity|].
  split; [exact Hact|]. split; [exact Hm1|].
  split; [exact E2|]. split; [reflexivity|].
  split; [reflexivity|]. simpl. apply listed_goals_permutation.
Qed.

Lemma selected_goal_is_restored_witness :
  exists st1 s1 st2 s2,
    handleSelectGoal
      {| FocusGoal.id := 2; FocusGoal.name := "travel";
         FocusGoal.isActive := false;
         FocusGoal.createdAt := JSDate.toISOString (Sample.jan1_0800 + 60000) |}
      initial Sample.two_goals = (Fulfilled st1, s1)
    /\ loadData None initial s1 = (Fulfilled st2, s2)
    /\ option_map FocusGoal.name (activeGoal st2) = Some "travel".
Proof.
  destruct (selected_goal_is_restored
              {| FocusGoal.id := 2; FocusGoal.name := "travel";
                 FocusGoal.isActive := false;
                 FocusGoal.createdAt :=
                   JSDate.toISOString (Sample.jan1_0800 + 60000) |}
              initial Sample.two_goals)
    as (st1 & s1 & st2 & s2 & E1 & _ & _ & _ & _ & E2 & Ha & _).
  - unfold goal_ids_unique. vm_compute map.
    constructor; [simpl; intros [H|[]]; discriminate H|].
    constructor; [simpl; intros []|constructor].
  - vm_compute. right. left. reflexivity.
  - exists st1, s1, st2, s2. split; [exact E1|]. split; [exact E2|].
    rewrite Ha. reflexivity.
Defined.

(** X24.  [handleExitFocus] leaves no goal active and every goal
    otherwise as it was; the screen opened anew without a goal id shows
    no active goal and no memories.  Opened with the id of a goal it
    still shows that goal, without activating it. *)
Theorem leaving_focus_clears_it (s : Store) :
  exists s1 st2 s2,
    handleExitFocus s = (Fulfilled tt, s1)
    /\ active_goals (focus_goals s1) = []
    /\ map goal_identity (focus_goals s1) = map goal_identity (focus_goals s)
    /\ loadData None initial s1 = (Fulfilled st2, s2)
    /\ activeGoal st2 = None
    /\ filteredMemories st2 = []
    /\ Permutation (goals st2) (focus_goals s1)
    /\ (forall i goal,
          i <> 0 -> In goal (focus_goals s1) -> FocusGoal.id goal = i ->
          goal_ids_unique s ->
          exists st3 s3,
            loadData (Some i) initial s1 = (Fulfilled st3, s3)
            /\ activeGoal st3 = Some goal
            /\ active_goals (focus_goals s3) = []).
Proof.
  destruct (setActiveFocusGoal_eta None s) as [E1 Hdb1].
  destruct (setActiveFocusGoal_goals None s) as [_ Hg1].
  set (s1 := store_after (setActiveFocusGoal None) s) in *.
  assert (Hact : active_goals (focus_goals s1) = []).
  { rewrite Hg1. apply active_goals_deactivated. }
  assert (Hfind : find FocusGoal.isActive (listed_goals s1) = None).
  { rewrite find_filter.
    assert (Hp : Permutation [] (filter FocusGoal.isActive (listed_goals s1))).
    { fold (active_goals (listed_goals s1)). rewrite <- Hact.
      unfold active_goals. apply filter_permutation. symmetry.
      apply listed_goals_permutation. }
    apply Permutation_nil in Hp. rewrite Hp. reflexivity. }
  destruct (loadData_eq None initial s1) as (s2 & _ & _ & _ & E2).
  simpl goalId_given in E2. rewrite Hfind in E2.
  exists s1. eexists. exists s2.
  split; [exact E1|]. split; [exact Hact|].
  split; [rewrite Hg1, map_map; apply map_ext; intros g; reflexivity|].
  split; [exact E2|]. split; [reflexivity|]. split; [reflexivity|].
  split; [simpl; apply listed_goals_permutation|].
  intros i goal Hi Hin Hid ND.
  destruct (loadData_eq (Some i) initial s1) as (s3 & _ & _ & Hg3 & E3).
  assert (Hgiven : goalId_given (Some i) = Some i).
  { simpl. apply Z.eqb_neq in Hi. rewrite Hi. reflexivity. }
  rewrite Hgiven in E3.
  assert (ND1 : NoDup (map FocusGoal.id (focus_goals s1))).
  { rewrite Hg1, map_id_set_isActive. exact ND. }
  assert (Hfound : find (fun g => FocusGoal.id g =? i) (listed_goals s1)
                   = Some goal).
  { destruct (find (fun g => FocusGoal.id g =? i) (listed_goals s1))
      as [g|] eqn:Ef.
    - apply find_some in Ef. destruct Ef as [Hgin Hgid].
      apply Z.eqb_eq in Hgid. f_equal.
      apply (same_id_same_goal (focus_goals s1)); try assumption.
      + eapply Permutation_in; [apply listed_goals_permutation|exact Hgin].
      + congruence.
    - exfalso.
      assert (Hl : In goal (listed_goals s1)).
      { eapply Permutation_in;
          [symmetry; apply listed_goals_permutation|exact Hin]. }
      apply (find_none _ _ Ef) in Hl. rewrite Hid, Z.eqb_refl in Hl.
      discriminate Hl. }
  rewrite Hfound in E3.
  eexists. exists s3. split; [exact E3|]. split; [reflexivity|].
  rewrite Hg3. exact Hact.
Qed.

(** X25.  [handleCreateGoal] stores no blank name.  On a blank name
    it raises the "Empty Name" alert and changes neither the store nor
    the screen; otherwise it appends one goal, inactive and with a fresh
    id, whose name is the input trimmed, hence non-empty and without
    whitespace at either end, clears and hides the input, and shows the
    goals of the table. *)
Theorem created_goals_are_named (now : Z) (goalId : option Z) (st : State)
    (s : Store) :
  (blank (newGoalName st) ->
   handleCreateGoal now goalId st s
   = (Fulfilled (Some ("Empty Name", "Please enter a goal name."), st), s))
  /\ (~ blank (newGoalName st) ->
      exists st' s' rowid,
        handleCreateGoal now goalId st s = (Fulfilled (None, st'), s')
        /\ newGoalName st' = "" /\ showNewGoalInput st' = false
        /\ focus_goals s'
           = focus_goals s
             ++ [ {| FocusGoal.id := rowid;
                     FocusGoal.name := JSString.trim (newGoalName st);
                     FocusGoal.isActive := false;
                     FocusGoal.createdAt := JSDate.toISOString now |} ]
        /\ ~ In rowid (map FocusGoal.id (focus_goals s))
        /\ Permutation (goals st') (focus_goals s')
        /\ JSString.trim (newGoalName st) <> ""
        /\ trimmed (JSString.trim (newGoalName st))
        /\ memories s' = memories s).
Proof.
  destruct (trim_spec (newGoalName st)) as (_ & Ht & Hb).
  unfold handleCreateGoal. split; intros H.
  - apply Hb in H. rewrite H. reflexivity.
  - assert (Hne : JSString.trim (newGoalName st) <> "")
      by (rewrite Hb; exact H).
    rewrite (proj2 (truthy_nonempty _) Hne).
    change (negb true) with false. cbv iota.
    unfold await at 1. rewrite addFocusGoal_eta.
    destruct (goals_after_add now (JSString.trim (newGoalName st)) s)
      as (_ & Hg & _ & Hm & _).
    set (s1 := store_after
                 (addFocusGoal now (JSString.trim (newGoalName st))) s) in *.
    destruct (loadData_state goalId (with_input "" false st) s1)
      as (st' & s2 & E2 & Hm2 & Hg2 & Hgoals & Hname & Hshown).
    unfold await. rewrite E2.
    exists st', s2. eexists. split; [reflexivity|].
    split; [exact Hname|]. split; [exact Hshown|].
    split; [rewrite Hg2; exact Hg|].
    split; [apply next_rowid_fresh|].
    split; [rewrite Hgoals, Hg2; apply listed_goals_permutation|].
    split; [exact Hne|]. split; [exact Ht|].
    rewrite Hm2. exact Hm.
Qed.

(** X26.  After [handleDeleteGoal] the goal is gone from the table
    and from the screen's list, and the goal the screen shows as active,
    if any, is another one; when the deleted goal was the active one of
    the store and the one shown, and the screen was opened without a
    goal id, no goal is shown as active and no memories are listed.
    The memories are untouched. *)
Theorem deleted_goal_leaves_the_screen (goalId : option Z)
    (goal : FocusGoal.t) (st : State) (s : Store) :
  exists st' s',
    handleDeleteGoal goalId goal st s = (Fulfilled st', s')
    /\ ~ In (FocusGoal.id goal) (map FocusGoal.id (focus_goals s'))
    /\ ~ In (FocusGoal.id goal) (map FocusGoal.id (goals st'))
    /\ (forall shown, activeGoal st' = Some shown ->
                      FocusGoal.id shown <> FocusGoal.id goal)
    /\ (forall active,
          activeGoal st = Some active ->
          FocusGoal.id active = FocusGoal.id goal ->
          single_active (focus_goals s) ->
          In active (focus_goals s) -> FocusGoal.isActive active = true ->
          goalId_given goalId = None ->
          activeGoal st' = None /\ filteredMemories st' = [])
    /\ memories s' = memories s.
Proof.
  unfold handleDeleteGoal. unfold await at 1. 
  assert (Hd : deleteFocusGoal (FocusGoal.id goal) s
               = (Fulfilled tt, store_after (deleteFocusGoal (FocusGoal.id goal)) s)).
  { unfold store_after, deleteFocusGoal. rewrite await_getDatabase. reflexivity. }
  rewrite Hd.
  destruct (goals_after_delete (FocusGoal.id goal) s) as (Hg & _ & Hm & _).
  set (s1 := store_after (deleteFocusGoal (FocusGoal.id goal)) s) in *.
  set (st1 := match activeGoal st with
              | Some active =>
                  if FocusGoal.id active =? FocusGoal.id goal
                  then with_filteredMemories [] (with_activeGoal None st)
                  else st
              | None => st
              end).
  destruct (loadData_eq goalId st1 s1) as (s2 & _ & Hm2 & Hg2 & E2).
  rewrite E2.
  assert (Hgone : ~ In (FocusGoal.id goal) (map FocusGoal.id (focus_goals s1))).
  { rewrite Hg. intros Hin. apply in_map_iff in Hin.
    destruct Hin as (g & E & Hin). apply filter_In in Hin.
    destruct Hin as [_ Hin]. rewrite E, Z.eqb_refl in Hin. discriminate. }
  assert (Hlisted : forall g, In g (listed_goals s1) ->
                              FocusGoal.id g <> FocusGoal.id goal).
  { intros g Hin E. apply Hgone. rewrite <- E. apply in_map.
    eapply Permutation_in; [apply listed_goals_permutation|exact Hin]. }
  assert (Hst1 : forall shown, activeGoal st1 = Some shown ->
                               FocusGoal.id shown <> FocusGoal.id goal).
  { intros shown. unfold st1. destruct (activeGoal st) as [a|] eqn:Ea.
    - destruct (Z.eqb_spec (FocusGoal.id a) (FocusGoal.id goal)); simpl.
      + discriminate.
      + rewrite Ea. intros H. injection H as <-. assumption.
    - rewrite Ea. discriminate. }
  set (found := match goalId_given goalId with
                | Some i => find (fun g => FocusGoal.id g =? i) (listed_goals s1)
                | None => find FocusGoal.isActive (listed_goals s1)
                end) in *.
  assert (Hfound : forall g, found = Some g -> In g (listed_goals s1)).
  { intros g. unfold found. destruct (goalId_given goalId); intros H;
      apply find_some in H; tauto. }
  eexists. exists s2. split; [reflexivity|].
  split; [rewrite Hg2; exact Hgone|].
  split; [|split; [|split]].
  - assert (Hgoals :
      goals match found with
            | Some g =>
                with_filteredMemories (brought_up (FocusGoal.name g) s1)
                  (with_activeGoal (Some g) (with_goals (listed_goals s1) st1))
            | None => with_goals (listed_goals s1) st1
            end = listed_goals s1)
      by (destruct found; reflexivity).
    rewrite Hgoals. intros Hin. apply in_map_iff in Hin.
    destruct Hin as (g & E & Hin). apply (Hlisted g Hin E).
  - intros shown. destruct found as [g|] eqn:Ef; simpl.
    + intros H. injection H as <-. apply Hlisted. apply Hfound. reflexivity.
    + apply Hst1.
  - intros active Ea Eid H1 Hin Hact Hgiven.
    assert (Hnone : found = None).
    { unfold found. rewrite Hgiven, find_filter.
      assert (Hp : Permutation (filter FocusGoal.isActive (listed_goals s1))
                               (active_goals (focus_goals s1))).
      { apply filter_permutation. apply listed_goals_permutation. }
      assert (Hempty : active_goals (focus_goals s1) = []).
      { pose proof (active_goals_after_delete (FocusGoal.id goal) s H1)
          as (_ & _ & Hdel & _).
        apply (Hdel active); assumption. }
      rewrite Hempty in Hp. apply Permutation_sym, Permutation_nil in Hp.
      rewrite Hp. reflexivity. }
    rewrite Hnone. unfold st1. rewrite Ea, Eid, Z.eqb_refl. simpl. auto.
  - rewrite Hm2. exact Hm.
Qed.

End FocusScreenFacts.

(** ** The file store and the home screen *)

Section HomeFacts.
Import Database Spec Invariant Behaviour.
Import MemoryStore HomeScreen.

Lemma includes_refl (s : string) : JSString.includes s s = true.
Proof.
  apply includes_spec. exists "", "". simpl. symmetry. apply append_empty_r.
Qed.

Lemma home_list_spec (state : MemoryState) (item : MemoryItem) :
  In item (home_list state) <->
  In item (items state)
  /\ match focusGoal state with
     | Some goal =>
         goal = ""
         \/ JSString.includes (JSString.toLowerCase (title item))
                              (JSString.toLowerCase goal) = true
         \/ exists ts tag,
              tags item = Some ts /\ In tag ts
              /\ JSString.includes (JSString.toLowerCase tag)
                                   (JSString.toLowerCase goal) = true
     | None => True
     end.
Proof.
  unfold home_list, filteredItems, sortedItems.
  assert (Hperm : forall x, In x (Stable.sort by_time_desc (items state))
                            <-> In x (items state)).
  { intros x. split; apply Permutation_in;
      [|symmetry]; apply sort_permutation. }
  destruct (focusGoal state) as [goal|]; [|rewrite Hperm; tauto].
  destruct goal as [|c goal]; simpl JSString.truthy; simpl negb; cbv iota.
  - rewrite Hperm. tauto.
  - rewrite filter_In, Hperm, orb_true_iff.
    split; intros [Hin H]; (split; [exact Hin|]).
    + right. destruct H as [H|H]; [left; exact H|right].
      destruct (tags item) as [ts|]; [|discriminate H].
      apply existsb_exists in H. destruct H as (tag & Htag & H).
      exists ts, tag. auto.
    + destruct H as [H|[H|(ts & tag & Ets & Htag & H)]];
        [discriminate H|left; exact H|right].
      rewrite Ets. apply existsb_exists. exists tag. auto.
Qed.

(** X27.  What is added under a focus goal stays in view.  With a
    goal set, [handleAdd] of a payload without tags tags the new item
    with the goal, so the home list, which shows the items matching the
    goal, shows the new item; the goal stays set and every item listed
    before is still listed. *)
Theorem added_under_focus_is_listed (fresh : string) (now : Z)
    (payload : Payload) (state : MemoryState) (goal : string) :
  focusGoal state = Some goal ->
  goal <> "" ->
  payload_tags payload = None ->
  let state' := handleAdd fresh now payload state in
  focusGoal state' = Some goal
  /\ (exists item,
        items state' = item :: items state
        /\ In item (home_list state')
        /\ id item = fresh
        /\ tags item = Some [goal]
        /\ title item = payload_title payload
        /\ createdAt item = JSDate.toISOString now)
  /\ (forall item, In item (home_list state) -> In item (home_list state')).
Proof.
  intros Hfocus Hgoal Htags. cbv zeta.
  unfold handleAdd, MemoryStore.addMemory. simpl reducer.
  rewrite Hfocus, Htags.
  rewrite (proj2 (truthy_nonempty goal) Hgoal).
  split; [reflexivity|]. split.
  - eexists. split; [reflexivity|]. split; [|repeat split].
    apply home_list_spec. simpl. split; [left; reflexivity|].
    right. right. exists [goal], goal. split; [reflexivity|].
    split; [left; reflexivity|]. apply includes_refl.
  - intros item H. apply home_list_spec in H. apply home_list_spec.
    simpl. rewrite Hfocus in H. destruct H as [Hin H]. split; [right; exact Hin|].
    exact H.
Qed.

Lemma added_under_focus_is_listed_witness :
  let state := setFocusGoal (Some "work") Sample.four_items in
  let payload := {| payload_type := text; payload_title := "Call the bank";
                    payload_content := ""; payload_tags := None;
                    payload_metadata := None |} in
  In "Call the bank"
     (map title
        (home_list (handleAdd "n1" Sample.jan1_0800 payload state))).
Proof.
  cbv zeta.
  destruct (added_under_focus_is_listed "n1" Sample.jan1_0800
              {| payload_type := text; payload_title := "Call the bank";
                 payload_content := ""; payload_tags := None;
                 payload_metadata := None |}
              (setFocusGoal (Some "work") Sample.four_items)
              "work" eq_refl ltac:(discriminate) eq_refl)
    as (_ & (item & _ & Hin & _ & _ & Ht & _) & _).
  change "Call the bank" with
    (payload_title {| payload_type := text; payload_title := "Call the bank";
                      payload_content := ""; payload_tags := None;
                      payload_metadata := None |}) at 1.
  rewrite <- Ht. apply in_map. exact Hin.
Defined.

End HomeFacts.

Section SmartSuggestions.
Import Database Spec Invariant Behaviour.
Import MemoryStore.

Lemma isWithinHours_spec (now hours : Z) (item : MemoryItem) :
  isWithinHours now item hours = true <-> younger_than hours now item.
Proof.
  unfold isWithinHours, younger_than, instant.
  destruct (JSDate.parse (createdAt item)) as [t|].
  - rewrite Z.ltb_lt. split.
    + intros H. exists t. split; [reflexivity|lia].
    + intros (t' & E & H). injection E as <-. lia.
  - split; [discriminate|]. intros (t & E & _). discriminate E.
Qed.

Lemma firstn_filter_prefix {A} (n : nat) (keep : A -> bool) (l : list A) :
  exists k, firstn n (filter keep l) = filter keep (firstn k l).
Proof.
  revert n. induction l as [|x l IH]; intros n.
  - exists O. simpl. rewrite firstn_nil. reflexivity.
  - destruct n as [|n]; [exists O; reflexivity|].
    simpl filter. destruct (keep x) eqn:E.
    + destruct (IH n) as (k & Hk). exists (S k). simpl. rewrite E, Hk.
      reflexivity.
    + destruct (IH (S n)) as (k & Hk). exists (S k). simpl. rewrite E.
      exact Hk.
Qed.


End SmartSuggestions.

Section ItemOrder.
Import Database Spec Invariant Behaviour.
Import MemoryStore.

Lemma Sorted_StronglySorted_on {A} (P : A -> Prop) (R : A -> A -> Prop)
    (l : list A) :
  (forall a b c, P a -> P b -> P c -> R a b -> R b c -> R a c) ->
  Forall P l -> Sorted R l -> StronglySorted R l.
Proof.
  intros Htrans HP H. induction H as [|x l Hs IH Hx]; [constructor|].
  inversion HP as [|? ? Px Pl]; subst.
  specialize (IH Pl). constructor; [exact IH|].
  destruct Hx as [|y l Hxy]; [constructor|].
  inversion IH as [|? ? _ Hy]; subst. inversion Pl as [|? ? Py Pl']; subst.
  constructor; [exact Hxy|].
  rewrite Forall_forall in *. intros z Hz.
  apply (Htrans x y z); auto.
Qed.

Lemma by_time_desc_dated (a b : MemoryItem) (ta tb : Z) :
  instant a = Some ta -> instant b = Some tb ->
  by_time_desc a b = Z.compare tb ta.
Proof.
  unfold by_time_desc, instant. intros -> ->. reflexivity.
Qed.

Lemma sortedItems_not_older (state : MemoryState) :
  Forall has_date (items state) ->
  StronglySorted not_older (sortedItems state)
  /\ Permutation (sortedItems state) (items state).
Proof.
  intros Hdated. split; [|apply sort_permutation].
  assert (Hsorted : Forall has_date (sortedItems state)).
  { rewrite Forall_forall in *. intros x Hx. apply Hdated.
    eapply Permutation_in; [apply sort_permutation|exact Hx]. }
  assert (Hloc : Sorted (may_precede by_time_desc) (sortedItems state)).
  { unfold sortedItems. clear. induction (items state) as [|x l IH]; simpl;
      [constructor|].
    apply insert_sorted; [|exact IH].
    intros a b. unfold by_time_desc.
    destruct (JSDate.parse (createdAt b)), (JSDate.parse (createdAt a));
      try discriminate.
    rewrite Z.compare_lt_iff, Z.compare_lt_iff. lia. }
  assert (Hstrong : StronglySorted (may_precede by_time_desc)
                                   (sortedItems state)).
  { apply (Sorted_StronglySorted_on has_date); [|exact Hsorted|exact Hloc].
    intros a b c Pa Pb Pc. unfold has_date, may_precede in *.
    destruct (instant a) as [ta|] eqn:Ea; [|contradiction].
    destruct (instant b) as [tb|] eqn:Eb; [|contradiction].
    destruct (instant c) as [tc|] eqn:Ec; [|contradiction].
    rewrite (by_time_desc_dated b a tb ta), (by_time_desc_dated c b tc tb),
      (by_time_desc_dated c a tc ta) by assumption.
    rewrite !Z.compare_lt_iff. lia. }
  revert Hsorted Hstrong. generalize (sortedItems state). intros l HP H.
  induction H as [|x l Hs IH Hx]; [constructor|].
  inversion HP as [|? ? Px Pl]; subst.
  constructor; [apply IH; exact Pl|].
  rewrite Forall_forall in *. intros y Hy.
  specialize (Hx y Hy). specialize (Pl y Hy). unfold has_date, may_precede in *.
  unfold not_older.
  destruct (instant x) as [tx|] eqn:Ex; [|contradiction].
  destruct (instant y) as [ty|] eqn:Ey; [|contradiction].
  exists tx, ty. split; [reflexivity|]. split; [reflexivity|].
  rewrite (by_time_desc_dated y x ty tx) in Hx by assumption.
  rewrite Z.compare_lt_iff in Hx. lia.
Qed.

Lemma written_has_date (item : MemoryItem) (now : Z) :
  in_calendar (JSDate.Day now) ->
  createdAt item = JSDate.toISOString now -> has_date item.
Proof.
  intros Hnow E. unfold has_date, instant.
  rewrite E, parse_toISOString by exact Hnow. discriminate.
Qed.

Lemma seeds_have_dates (now : Z) (seeds : list MemoryItem) :
  seeded now seeds ->
  Forall (fun t => in_calendar (JSDate.Day t)) (seed_times now) ->
  Forall has_date seeds /\ List.length seeds = 4%nat.
Proof.
  intros (_ & _ & _ & E) Hin.
  assert (Hlen : List.length seeds = 4%nat).
  { rewrite <- (length_map createdAt), E, length_map. reflexivity. }
  split; [|exact Hlen].
  revert E Hin. generalize (seed_times now). clear Hlen.
  induction seeds as [|item seeds IH]; intros [|t times] E Hin;
    try discriminate E; constructor.
  - injection E as E _. inversion Hin; subst.
    apply (written_has_date item t); assumption.
  - injection E as _ E. inversion Hin; subst. apply (IH times); assumption.
Qed.

Lemma apply_item_op_dated (op : ItemOp) (state : MemoryState) :
  op_sound op ->
  Forall has_date (items state) ->
  Forall has_date (items (apply_item_op op state)).
Proof.
  destruct op as [[payload|] seeds now|fresh now input|fresh now payload|goal|];
    simpl; intros Hop Hstate.
  - exact Hop.
  - destruct Hop as [Hs Hin]. apply (seeds_have_dates now); assumption.
  - constructor; [|exact Hstate].
    apply (written_has_date _ now); [exact Hop|reflexivity].
  - constructor; [|exact Hstate].
    apply (written_has_date _ now); [exact Hop|reflexivity].
  - exact Hstate.
  - exact Hstate.
Qed.

(** X29.  The file store lists newest first.  A run of the store is any
    sequence of these steps from the initial state: the provider's mount
    effect, which replaces the state by the stored one or, without a
    stored one, by the four seeds; [addMemory]; the home screen's
    [handleAdd]; [setFocusGoal] and [toggleFocus].  When the clock shows
    years of four digits and the stored state holds dated items, every
    item of the store carries a [createdAt] that reads as a date, so the
    comparison [sortedItems] sorts with is a genuine order on them, and
    [sortedItems] holds the items of the store, each created no earlier
    than those after it.  The state such a run ends in may in turn be
    the stored state of the next one; and a run that mounts without a
    stored state, whatever it did before, holds the four seeds and what
    was added since. *)
Theorem file_store_lists_newest_first (ops : list ItemOp) :
  Forall op_sound ops ->
  let state := run_items ops initialState in
  Forall has_date (items state)
  /\ StronglySorted not_older (sortedItems state)
  /\ Permutation (sortedItems state) (items state)
  /\ (forall seeds now, op_sound (Op_mount (Some state) seeds now))
  /\ (forall seeds now,
        op_sound (Op_mount None seeds now) ->
        let mounted := run_items (ops ++ [Op_mount None seeds now])
                                 initialState in
        items mounted = seeds /\ List.length (items mounted) = 4%nat
        /\ focusGoal mounted = None).
Proof.
  intros Hops. cbv zeta.
  assert (H : forall state,
            Forall has_date (items state) ->
            Forall has_date (items (run_items ops state))).
  { induction Hops as [|op ops Hop _ IH]; intros state Hstate; simpl.
    - exact Hstate.
    - apply IH. apply apply_item_op_dated; assumption. }
  assert (H1 : Forall has_date (items (run_items ops initialState)))
    by (apply H; constructor).
  split; [exact H1|].
  destruct (sortedItems_not_older _ H1) as [G1 G2].
  split; [exact G1|]. split; [exact G2|]. split; [intros seeds now; exact H1|].
  intros seeds now [Hs Hin]. unfold run_items. rewrite fold_left_app. simpl.
  split; [reflexivity|]. split; [|reflexivity].
  apply (seeds_have_dates now); assumption.
Qed.

(** On a device without a stored state the store mounts with the four
    seeds; a note is then added, the focus switched on and a second
    note added. *)
Lemma file_store_lists_newest_first_witness :
  let now := Sample.jan1_0800 + Sample.hours 49 in
  let seed t ty ti tg :=
    {| id := ti; type := ty; title := ti; content := ti;
       createdAt := JSDate.toISOString t; location := None;
       tags := Some tg; metadata := None |} in
  let seeds :=
    [seed (now - 1000 * 60 * 90) voice "Morning check-in" ["work"; "focus"];
     seed (now - 1000 * 60 * 60 * 5) text "Idea: local-first sync"
          ["idea"; "research"];
     seed (now - 1000 * 60 * 60 * 24) link "Article: contextual reminders"
          ["reading"];
     seed (now - 1000 * 60 * 60 * 48) photo "Whiteboard snapshot"
          ["workshop"]] in
  let ops :=
    [Op_mount None seeds now;
     Op_addItem "a" (now + Sample.hours 2)
       {| new_type := text; new_title := "Buy milk"; new_content := "";
          new_location := None; new_tags := None; new_metadata := None |};
     Op_toggleFocus;
     Op_homeAdd "b" (now + Sample.hours 1)
       {| HomeScreen.payload_type := text;
          HomeScreen.payload_title := "Book flights";
          HomeScreen.payload_content := "";
          HomeScreen.payload_tags := None;
          HomeScreen.payload_metadata := None |}] in
  map title (items (run_items ops initialState))
  = ["Book flights"; "Buy milk"; "Morning check-in";
     "Idea: local-first sync"; "Article: contextual reminders";
     "Whiteboard snapshot"]
  /\ map title (sortedItems (run_items ops initialState))
     = ["Buy milk"; "Book flights"; "Morning check-in";
        "Idea: local-first sync"; "Article: contextual reminders";
        "Whiteboard snapshot"]
  /\ StronglySorted not_older (sortedItems (run_items ops initialState)).
Proof.
  cbv zeta. split; [reflexivity|]. split; [reflexivity|].
  refine (proj1 (proj2 (file_store_lists_newest_first _ _))).
  apply Forall_cons.
  { split; [repeat split|].
    repeat (apply Forall_cons; [vm_compute; split; discriminate|]).
    apply Forall_nil. }
  apply Forall_cons; [vm_compute; split; discriminate|].
  apply Forall_cons; [exact I|].
  apply Forall_cons; [vm_compute; split; discriminate|apply Forall_nil].
Defined.

End ItemOrder.

(** ** Timestamps *)

Section IsoOrder.
Import Database Spec Invariant Behaviour.
Import JSDate.

Lemma civil_from_days_increasing (z1 z2 : Z) :
  z1 < z2 ->
  let '(y1, m1, d1) := civil_from_days z1 in
  let '(y2, m2, d2) := civil_from_days z2 in
  y1 < y2 \/ (y1 = y2 /\ (m1 < m2 \/ (m1 = m2 /\ d1 < d2))).
Proof.
  intros Hlt. unfold civil_from_days.
  set (a1 := z1 + 719468). set (a2 := z2 + 719468).
  set (era1 := a1 / 146097). set (era2 := a2 / 146097).
  set (doe1 := a1 mod 146097). set (doe2 := a2 mod 146097).
  set (yoe1 := (doe1 - doe1 / 1460 + doe1 / 36524 - doe1 / 146096) / 365).
  set (yoe2 := (doe2 - doe2 / 1460 + doe2 / 36524 - doe2 / 146096) / 365).
  set (doy1 := doe1 - (365 * yoe1 + yoe1 / 4 - yoe1 / 100)).
  set (doy2 := doe2 - (365 * yoe2 + yoe2 / 4 - yoe2 / 100)).
  set (mp1 := (5 * doy1 + 2) / 153). set (mp2 := (5 * doy2 + 2) / 153).
  assert (Hdoe1 : 0 <= doe1 < 146097) by (apply Z.mod_pos_bound; lia).
  assert (Hdoe2 : 0 <= doe2 < 146097) by (apply Z.mod_pos_bound; lia).
  assert (Ha1 : a1 = 146097 * era1 + doe1) by (apply Z.div_mod; lia).
  assert (Ha2 : a2 = 146097 * era2 + doe2) by (apply Z.div_mod; lia).
  assert (Hera : era1 < era2 \/ (era1 = era2 /\ doe1 < doe2))
    by (subst a1 a2; lia).
  assert (Hb1 : 0 <= yoe1 <= 399 /\ 0 <= doy1 <= 365).
  { subst doy1 yoe1. Z.div_mod_to_equations. lia. }
  assert (Hb2 : 0 <= yoe2 <= 399 /\ 0 <= doy2 <= 365).
  { subst doy2 yoe2. Z.div_mod_to_equations. lia. }
  assert (Hyoe : doe1 < doe2 ->
                 yoe1 < yoe2 \/ (yoe1 = yoe2 /\ doy1 < doy2)).
  { intros H.
    assert (Hle : yoe1 <= yoe2).
    { subst yoe1 yoe2. clear - H Hdoe1 Hdoe2. Z.div_mod_to_equations. lia. }
    destruct (Z.eq_dec yoe1 yoe2) as [E|]; [|lia].
    right. split; [exact E|]. unfold doy1, doy2. rewrite E. lia. }
  assert (Hm1 : 0 <= mp1 <= 11) by (subst mp1; Z.div_mod_to_equations; lia).
  assert (Hm2 : 0 <= mp2 <= 11) by (subst mp2; Z.div_mod_to_equations; lia).
  assert (Hmp : doy1 < doy2 ->
                mp1 < mp2
                \/ (mp1 = mp2
                    /\ doy1 - (153 * mp1 + 2) / 5 + 1
                       < doy2 - (153 * mp2 + 2) / 5 + 1)).
  { intros H.
    assert (Hle : mp1 <= mp2).
    { subst mp1 mp2. clear - H Hb1 Hb2. Z.div_mod_to_equations. lia. }
    destruct (Z.eq_dec mp1 mp2) as [E|]; [|lia].
    right. split; [exact E|]. rewrite E. lia. }
  assert (Hshift : yoe1 + era1 * 400 < yoe2 + era2 * 400
                   \/ (yoe1 + era1 * 400 = yoe2 + era2 * 400
                       /\ (mp1 < mp2
                           \/ (mp1 = mp2
                               /\ doy1 - (153 * mp1 + 2) / 5 + 1
                                  < doy2 - (153 * mp2 + 2) / 5 + 1)))).
  { destruct Hera as [H|[E H]]; [lia|].
    destruct (Hyoe H) as [H'|[E' H']]; [lia|].
    right. split; [lia|]. apply Hmp. exact H'. }
  clear Hmp Hyoe Hera. clearbody mp1 mp2 doy1 doy2 yoe1 yoe2 era1 era2.
  destruct (Z.ltb_spec mp1 10), (Z.ltb_spec mp2 10);
    destruct (Z.leb_spec (mp1 + 3) 2), (Z.leb_spec (mp1 - 9) 2),
             (Z.leb_spec (mp2 + 3) 2), (Z.leb_spec (mp2 - 9) 2); lia.
Qed.

Lemma ascii_compare_refl (c : ascii) : Ascii.compare c c = Eq.
Proof. unfold Ascii.compare. apply N.compare_refl. Qed.

Lemma compare_cons_same (c : ascii) (a b : string) :
  String.compare (String c a) (String c b) = String.compare a b.
Proof. simpl. rewrite ascii_compare_refl. reflexivity. Qed.

Lemma compare_sep (c : ascii) (a b : string) :
  String.compare (String c "" ++ a) (String c "" ++ b) = String.compare a b.
Proof. apply compare_cons_same. Qed.

Lemma compare_refl (a : string) : String.compare a a = Eq.
Proof.
  induction a as [|c a IH]; simpl; [reflexivity|].
  rewrite ascii_compare_refl. exact IH.
Qed.

Lemma compare_app (a a' b b' : string) :
  String.length a = String.length a' ->
  String.compare (a ++ b) (a' ++ b')
  = then_by (String.compare a a') (String.compare b b').
Proof.
  revert a'. induction a as [|c a IH]; intros [|c' a'] H; simpl in H;
    try discriminate H; simpl; [reflexivity|].
  rewrite IH by lia.
  destruct (Ascii.compare c c'); reflexivity.
Qed.

Lemma compare_digit (a b : Z) :
  Ascii.compare (digit a) (digit b) = Z.compare (a mod 10) (b mod 10).
Proof.
  unfold Ascii.compare, digit.
  assert (Ha : 0 <= a mod 10 < 10) by (apply Z.mod_pos_bound; lia).
  assert (Hb : 0 <= b mod 10 < 10) by (apply Z.mod_pos_bound; lia).
  rewrite !N_ascii_embedding by lia.
  rewrite <- N2Z.inj_compare, !N2Z.inj_add, !Z2N.id by lia.
  apply Z.add_compare_mono_l.
Qed.

Lemma compare_pad (k : nat) (a b : Z) :
  0 <= a < 10 ^ Z.of_nat k -> 0 <= b < 10 ^ Z.of_nat k ->
  String.compare (pad k a) (pad k b) = Z.compare a b.
Proof.
  revert a b. induction k as [|k IH]; intros a b Ha Hb.
  - simpl in *. replace a with 0 by lia. replace b with 0 by lia. reflexivity.
  - rewrite Nat2Z.inj_succ, Z.pow_succ_r in Ha, Hb by lia.
    simpl pad. rewrite compare_app by (rewrite !length_pad; reflexivity).
    rewrite IH by (split; [apply Z.div_pos; lia
                          |apply Z.div_lt_upper_bound; lia]).
    simpl String.compare. rewrite compare_digit.
    destruct (Z.compare_spec (a / 10) (b / 10)) as [E|E|E]; simpl.
    + destruct (Z.compare_spec (a mod 10) (b mod 10)) as [E'|E'|E'];
        symmetry; [apply Z.compare_eq_iff|apply Z.compare_lt_iff
                  |apply Z.compare_gt_iff];
        Z.div_mod_to_equations; lia.
    + symmetry. apply Z.compare_lt_iff. Z.div_mod_to_equations. lia.
    + symmetry. apply Z.compare_gt_iff. Z.div_mod_to_equations. lia.
Qed.

Lemma compare_iso_date (y1 m1 d1 y2 m2 d2 : Z) :
  0 <= y1 <= 9999 -> 1 <= m1 <= 12 -> 1 <= d1 <= 31 ->
  0 <= y2 <= 9999 -> 1 <= m2 <= 12 -> 1 <= d2 <= 31 ->
  String.compare (iso_date_of_civil (y1, m1, d1))
                 (iso_date_of_civil (y2, m2, d2))
  = then_by (Z.compare y1 y2) (then_by (Z.compare m1 m2) (Z.compare d1 d2)).
Proof.
  intros. unfold iso_date_of_civil.
  rewrite !iso_year_four_digits by assumption.
  rewrite compare_app by (rewrite !length_pad; reflexivity).
  rewrite compare_pad by (simpl; lia).
  rewrite compare_sep.
  rewrite compare_app by (rewrite !length_pad; reflexivity).
  rewrite compare_pad by (simpl; lia).
  rewrite compare_sep, compare_pad by (simpl; lia).
  reflexivity.
Qed.

Lemma compare_iso_time (t1 t2 : Z) :
  String.compare (iso_time t1) (iso_time t2)
  = Z.compare (TimeWithinDay t1) (TimeWithinDay t2).
Proof.
  unfold iso_time.
  assert (H1 : 0 <= TimeWithinDay t1 < msPerDay)
    by (apply Z.mod_pos_bound; reflexivity).
  assert (H2 : 0 <= TimeWithinDay t2 < msPerDay)
    by (apply Z.mod_pos_bound; reflexivity).
  generalize dependent (TimeWithinDay t1).
  generalize dependent (TimeWithinDay t2). intros r2 H2 r1 H1.
  unfold msPerDay, msPerHour, msPerMinute in *.
  repeat (rewrite compare_app by (rewrite !length_pad; reflexivity);
          rewrite compare_pad
            by (simpl Z.of_nat; Z.div_mod_to_equations; lia);
          rewrite compare_sep).
  rewrite compare_pad by (simpl Z.of_nat; Z.div_mod_to_equations; lia).
  destruct (Z.compare_spec r1 r2) as [E|E|E].
  - subst r2. rewrite !Z.compare_refl. reflexivity.
  - destruct (Z.compare_spec (r1 / 3600000) (r2 / 3600000)); simpl;
      try reflexivity; [|exfalso; Z.div_mod_to_equations; lia].
    destruct (Z.compare_spec (r1 / 60000 mod 60) (r2 / 60000 mod 60)); simpl;
      try reflexivity; [|exfalso; Z.div_mod_to_equations; lia].
    destruct (Z.compare_spec (r1 / 1000 mod 60) (r2 / 1000 mod 60)); simpl;
      try reflexivity; [|exfalso; Z.div_mod_to_equations; lia].
    apply Z.compare_lt_iff. Z.div_mod_to_equations. lia.
  - destruct (Z.compare_spec (r1 / 3600000) (r2 / 3600000)); simpl;
      try reflexivity; [|exfalso; Z.div_mod_to_equations; lia].
    destruct (Z.compare_spec (r1 / 60000 mod 60) (r2 / 60000 mod 60)); simpl;
      try reflexivity; [|exfalso; Z.div_mod_to_equations; lia].
    destruct (Z.compare_spec (r1 / 1000 mod 60) (r2 / 1000 mod 60)); simpl;
      try reflexivity; [|exfalso; Z.div_mod_to_equations; lia].
    apply Z.compare_gt_iff. Z.div_mod_to_equations. lia.
Qed.

Lemma length_iso_time (t : Z) : String.length (iso_time t) = 12%nat.
Proof.
  unfold iso_time. rewrite !length_append, !length_pad. reflexivity.
Qed.

Lemma compare_toISOString (t1 t2 : Z) :
  in_calendar (Day t1) -> in_calendar (Day t2) ->
  String.compare (toISOString t1) (toISOString t2) = Z.compare t1 t2.
Proof.
  intros H1 H2. unfold toISOString, iso_date.
  pose proof (civil_from_days_inverse (Day t1)) as I1.
  pose proof (civil_from_days_inverse (Day t2)) as I2.
  pose proof (civil_from_days_year (Day t1) H1) as Y1.
  pose proof (civil_from_days_year (Day t2) H2) as Y2.
  pose proof (civil_from_days_increasing (Day t1) (Day t2)) as M12.
  pose proof (civil_from_days_increasing (Day t2) (Day t1)) as M21.
  destruct (civil_from_days (Day t1)) as [[y1 m1] d1] eqn:E1.
  destruct (civil_from_days (Day t2)) as [[y2 m2] d2] eqn:E2.
  destruct I1 as (_ & Hm1 & Hd1). destruct I2 as (_ & Hm2 & Hd2).
  rewrite compare_app by (rewrite !length_iso_date by assumption; reflexivity).
  rewrite compare_iso_date by assumption.
  rewrite compare_sep.
  rewrite compare_app by (rewrite !length_iso_time; reflexivity).
  rewrite compare_iso_time. simpl (String.compare "Z" "Z").
  assert (Ht1 : t1 = msPerDay * Day t1 + TimeWithinDay t1)
    by (apply Z.div_mod; discriminate).
  assert (Ht2 : t2 = msPerDay * Day t2 + TimeWithinDay t2)
    by (apply Z.div_mod; discriminate).
  assert (Hr1 : 0 <= TimeWithinDay t1 < msPerDay)
    by (apply Z.mod_pos_bound; reflexivity).
  assert (Hr2 : 0 <= TimeWithinDay t2 < msPerDay)
    by (apply Z.mod_pos_bound; reflexivity).
  unfold msPerDay in *.
  destruct (Z.compare_spec (Day t1) (Day t2)) as [E|E|E].
  - rewrite E in E1. rewrite E1 in E2. injection E2 as <- <- <-.
    rewrite !Z.compare_refl. simpl.
    destruct (Z.compare_spec (TimeWithinDay t1) (TimeWithinDay t2)); simpl;
      symmetry; [apply Z.compare_eq_iff|apply Z.compare_lt_iff
                |apply Z.compare_gt_iff]; lia.
  - specialize (M12 E).
    replace (t1 ?= t2) with Lt by (symmetry; apply Z.compare_lt_iff; lia).
    destruct M12 as [H|[-> [H|[-> H]]]];
      rewrite ?Z.compare_refl; simpl;
      rewrite (proj2 (Z.compare_lt_iff _ _) H); reflexivity.
  - specialize (M21 E).
    replace (t1 ?= t2) with Gt by (symmetry; apply Z.compare_gt_iff; lia).
    destruct M21 as [H|[-> [H|[-> H]]]];
      rewrite ?Z.compare_refl; simpl;
      rewrite (proj2 (Z.compare_gt_iff _ _) H); reflexivity.
Qed.

End IsoOrder.

Section StoredOrder.
Import Database Spec Invariant Behaviour.

(** X30.  Listing follows the clock.  [ORDER BY createdAt] and the
    bounds of [getMemoriesByDateRange] compare strings; on timestamps
    written by [toISOString], for years of four digits, the order of the
    strings is the order of the instants.  So when every row carries
    such a timestamp, [getAllMemories] lists the rows with the most
    recently created first, and a range given by two such timestamps
    selects the rows created between the two instants, bounds
    included. *)
Theorem memories_are_listed_by_instant (s : Store) :
  Forall (fun m => exists t, written_at t (Memory.createdAt m)) (memories s) ->
  exists rows,
    outcome getAllMemories s = Fulfilled rows
    /\ Permutation rows (memories s)
    /\ StronglySorted
         (fun a b =>
            forall ta tb,
              written_at ta (Memory.createdAt a) ->
              written_at tb (Memory.createdAt b) -> tb <= ta)
         rows
    /\ (forall ta tb,
          in_calendar (JSDate.Day ta) -> in_calendar (JSDate.Day tb) ->
          String.compare (JSDate.toISOString ta) (JSDate.toISOString tb)
          = Z.compare ta tb)
    /\ (forall ta tb,
          in_calendar (JSDate.Day ta) -> in_calendar (JSDate.Day tb) ->
          exists selected,
            outcome (getMemoriesByDateRange (JSDate.toISOString ta)
                                            (JSDate.toISOString tb)) s
            = Fulfilled selected
            /\ forall m t,
                 written_at t (Memory.createdAt m) ->
                 (In m selected <-> In m (memories s) /\ ta <= t <= tb)).
Proof.
  intros Hw. eexists. split; [apply getAllMemories_eq|].
  split; [apply sort_permutation|].
  split; [|split; [apply compare_toISOString|]].
  2: { intros ta tb Ha Hb. eexists.
       split; [apply getMemoriesByDateRange_eq|].
       intros m t [Ht Et].
       assert (Hin : forall x l, In x (by_createdAt_desc l) <-> In x l).
       { intros x l. split; apply Permutation_in;
           [|symmetry]; apply sort_permutation. }
       rewrite Hin, filter_In, andb_true_iff, Et. unfold String.leb.
       rewrite !compare_toISOString by assumption.
       destruct (Z.compare_spec ta t), (Z.compare_spec t tb);
         split; intros [H1 H2]; split; try exact H1; try lia;
         try (destruct H2; discriminate); split; reflexivity. }
  pose proof (by_createdAt_desc_sorted (memories s)) as H.
  unfold newest_first in H.
  induction H as [|a l Hs IH Ha]; constructor; [exact IH|].
  rewrite Forall_forall in *. intros b Hb ta tb [Hta Ea] [Htb Eb].
  specialize (Ha b Hb). rewrite Ea, Eb, compare_toISOString in Ha by assumption.
  rewrite Z.compare_lt_iff in Ha. lia.
Qed.

Lemma memories_are_listed_by_instant_witness :
  exists rows,
    outcome getAllMemories Sample.three_days = Fulfilled rows
    /\ map Memory.content rows
       = ["Book flights"; "Call the bank"; "Plan the week"].
Proof.
  destruct (memories_are_listed_by_instant Sample.three_days)
    as (rows & Ho & _).
  - apply Forall_cons;
      [exists Sample.jan1_0800; split;
         [vm_compute; split; discriminate|reflexivity]|].
    apply Forall_cons;
      [exists (Sample.jan1_0800 + Sample.hours 26); split;
         [vm_compute; split; discriminate|reflexivity]|].
    apply Forall_cons;
      [exists (Sample.jan1_0800 + Sample.hours 49); split;
         [vm_compute; split; discriminate|reflexivity]|].
    apply Forall_nil.
  - exists rows. split; [exact Ho|].
    vm_compute in Ho. injection Ho as <-. reflexivity.
Defined.

End StoredOrder.
